(** * Verification of the agent's tool-dispatch loop, memory store and page fetcher

    Shallow embedding of
      - [tool_dispatcher.py]  (directive parsing, time short-circuit, round loop),
      - [agent_langchain_project/memory.py]  (class [JsonMemoryFallback]),
      - [agent_langchain_project/tools_fetch.py]  ([fetch_rendered_page]).

    Python [str] values are sequences of Unicode code points; they are modelled
    as lists of code points ([N]).  Callables handed to the code (the model
    function, the tools, the operating system) act on an explicit world. *)

From Stdlib Require Import ZArith NArith List Bool Lia.
From Stdlib Require String Ascii.
From Stdlib Require Import Floats.PrimFloat.
From stdpp Require Import base option list strings gmap.

Set Default Proof Using "Type".
Set Warnings "-register-all".
Local Open Scope N_scope.

(* ===================================================================== *)
(** * Python strings *)
(* ===================================================================== *)

Module Py.

Abbreviation char := N (only parsing).
Abbreviation str := (list N) (only parsing).

(** ** Literals: UTF-8 source text decoded to code points *)

Fixpoint bytes_of (s : String.string) : list N :=
  match s with
  | String.EmptyString => []
  | String.String a r => Ascii.N_of_ascii a :: bytes_of r
  end.

Definition cont (b : N) : N := N.land b 0x3F.

Fixpoint utf8_decode (bs : list N) : str :=
  match bs with
  | [] => []
  | b0 :: r =>
    if b0 <? 0x80 then b0 :: utf8_decode r
    else if b0 <? 0xE0 then
      match r with
      | b1 :: r1 => N.lor (N.shiftl (N.land b0 0x1F) 6) (cont b1) :: utf8_decode r1
      | _ => []
      end
    else if b0 <? 0xF0 then
      match r with
      | b1 :: b2 :: r2 =>
        N.lor (N.shiftl (N.land b0 0x0F) 12)
              (N.lor (N.shiftl (cont b1) 6) (cont b2)) :: utf8_decode r2
      | _ => []
      end
    else
      match r with
      | b1 :: b2 :: b3 :: r3 =>
        N.lor (N.shiftl (N.land b0 0x07) 18)
              (N.lor (N.shiftl (cont b1) 12)
                     (N.lor (N.shiftl (cont b2) 6) (cont b3))) :: utf8_decode r3
      | _ => []
      end
  end.

(** [u "..."] is the Python literal with the same text. *)
Definition u (s : String.string) : str := utf8_decode (bytes_of s).

(** [jq "..."] is [u] with every apostrophe read as a double quote, for
    literals that contain JSON text. *)
Definition jq (s : String.string) : str :=
  map (fun c => if c =? 39 then 34 else c) (u s).

Arguments u s%_string.
Arguments jq s%_string.

Definition nl : str := [10].

(** ** [str.isspace], [str.strip], [str.splitlines], [str.join] *)

(** The code points for which [str.isspace()] holds; the same set is matched
    by [\s] in a [re] pattern over [str]. *)
Definition isspace (c : char) : bool :=
  ((9 <=? c) && (c <=? 13)) || ((28 <=? c) && (c <=? 32))
  || (c =? 0x85) || (c =? 0xA0) || (c =? 0x1680)
  || ((0x2000 <=? c) && (c <=? 0x200A))
  || (c =? 0x2028) || (c =? 0x2029) || (c =? 0x202F) || (c =? 0x205F)
  || (c =? 0x3000).

Fixpoint take_while (p : char -> bool) (s : str) : str :=
  match s with
  | c :: r => if p c then c :: take_while p r else []
  | [] => []
  end.

Fixpoint drop_while (p : char -> bool) (s : str) : str :=
  match s with
  | c :: r => if p c then drop_while p r else s
  | [] => []
  end.

Definition lstrip (s : str) : str := drop_while isspace s.
Definition rstrip (s : str) : str := rev (drop_while isspace (rev s)).
Definition strip (s : str) : str := rstrip (lstrip s).

(** Line boundaries of [str.splitlines()]; CR LF counts as one boundary. *)
Definition is_linebreak (c : char) : bool :=
  ((10 <=? c) && (c <=? 13)) || ((28 <=? c) && (c <=? 30))
  || (c =? 0x85) || (c =? 0x2028) || (c =? 0x2029).

(** [split_acc cur s]: [cur] is the current line, reversed. *)
Fixpoint split_acc (cur : str) (s : str) : list str :=
  match s with
  | [] => match cur with [] => [] | _ => [rev cur] end
  | c :: r =>
    if is_linebreak c then
      match r with
      | c' :: r' =>
        if (c =? 13) && (c' =? 10) then rev cur :: split_acc [] r'
        else rev cur :: split_acc [] r
      | [] => [rev cur]
      end
    else split_acc (c :: cur) r
  end.

Definition splitlines (s : str) : list str := split_acc [] s.

Fixpoint join (sep : str) (parts : list str) : str :=
  match parts with
  | [] => []
  | [p] => p
  | p :: ps => p ++ sep ++ join sep ps
  end.

(** ** [str(int)] *)

Fixpoint uint_digits (d : Decimal.uint) : str :=
  match d with
  | Decimal.Nil => []
  | Decimal.D0 r => 48 :: uint_digits r
  | Decimal.D1 r => 49 :: uint_digits r
  | Decimal.D2 r => 50 :: uint_digits r
  | Decimal.D3 r => 51 :: uint_digits r
  | Decimal.D4 r => 52 :: uint_digits r
  | Decimal.D5 r => 53 :: uint_digits r
  | Decimal.D6 r => 54 :: uint_digits r
  | Decimal.D7 r => 55 :: uint_digits r
  | Decimal.D8 r => 56 :: uint_digits r
  | Decimal.D9 r => 57 :: uint_digits r
  end.

Definition str_of_int (z : Z) : str :=
  match Z.to_int z with
  | Decimal.Pos d => uint_digits d
  | Decimal.Neg d => 45 :: uint_digits d
  end.

(** ** Substring test ([x in s], and [re.search] of a literal) *)

Fixpoint starts_with (p s : str) : bool :=
  match p, s with
  | [], _ => true
  | a :: p', b :: s' => (a =? b) && starts_with p' s'
  | _ :: _, [] => false
  end.

Fixpoint contains (p s : str) : bool :=
  starts_with p s ||
  match s with
  | [] => false
  | _ :: r => contains p r
  end.

End Py.

Import Py.


(* ===================================================================== *)
(** * JSON values as Python sees them *)
(* ===================================================================== *)

Module Json.

(** What [json.loads] builds and [json.dump] accepts: [None], [bool], [int],
    [float], [str], [list], and [dict] with [str] keys.  A [dict] keeps its
    keys in insertion order, hence the association list. *)
Inductive json :=
  | JNull
  | JBool (b : bool)
  | JInt (z : Z)
  | JFloat (f : float)
  | JString (s : str)
  | JArray (l : list json)
  | JObject (kv : list (str * json)).

(** Python truth value, as tested by [or], [if] and [not]. *)
Definition truthy (v : json) : bool :=
  match v with
  | JNull => false
  | JBool b => b
  | JInt z => negb (z =? 0)%Z
  | JFloat f => negb (PrimFloat.eqb f 0%float)
  | JString s => negb (bool_decide (s = []))
  | JArray l => negb (bool_decide (length l = 0%nat))
  | JObject kv => negb (bool_decide (length kv = 0%nat))
  end.

(** [d.get(k)] *)
Fixpoint dict_get (k : str) (kv : list (str * json)) : option json :=
  match kv with
  | [] => None
  | (k', v) :: r => if bool_decide (k = k') then Some v else dict_get k r
  end.

(** [d[k] = v]: an existing key keeps its position. *)
Fixpoint dict_set (k : str) (v : json) (kv : list (str * json)) : list (str * json) :=
  match kv with
  | [] => [(k, v)]
  | (k', v') :: r =>
    if bool_decide (k = k') then (k, v) :: r else (k', v') :: dict_set k v r
  end.

(** ** A decoder for the grammar [json.loads] accepts

    [None] stands for a raised [JSONDecodeError].  The conversion of a number
    literal with a fraction or an exponent to a binary64 value is Python's
    [float(...)], taken as a parameter. *)
Section Decoder.
Variable float_of_literal : str -> float.

Definition json_ws (c : char) : bool :=
  (c =? 32) || (c =? 9) || (c =? 10) || (c =? 13).
Definition skip_ws : str -> str := drop_while json_ws.

Definition is_digit (c : char) : bool := (48 <=? c) && (c <=? 57).

Definition hex_val (c : char) : option N :=
  if is_digit c then Some (c - 48)
  else if (97 <=? c) && (c <=? 102) then Some (c - 87)
  else if (65 <=? c) && (c <=? 70) then Some (c - 55)
  else None.

Definition hex4 (s : str) : option (N * str) :=
  match s with
  | a :: b :: c :: d :: r =>
    match hex_val a, hex_val b, hex_val c, hex_val d with
    | Some x, Some y, Some z, Some w => Some (((x * 16 + y) * 16 + z) * 16 + w, r)
    | _, _, _, _ => None
    end
  | _ => None
  end.

Definition simple_escape (e : char) : option char :=
  if e =? 34 then Some 34 else if e =? 92 then Some 92
  else if e =? 47 then Some 47 else if e =? 98 then Some 8
  else if e =? 102 then Some 12 else if e =? 110 then Some 10
  else if e =? 114 then Some 13 else if e =? 116 then Some 9
  else None.

(** The text after an opening quote, up to and including the closing one. *)
Fixpoint scanstring (fuel : nat) (s : str) : option (str * str) :=
  match fuel, s with
  | O, _ | _, [] => None
  | S fuel, c :: r =>
    if c =? 34 then Some ([], r)
    else if c <? 32 then None
    else if c =? 92 then
      match r with
      | [] => None
      | e :: r1 =>
        if e =? 117 then
          match hex4 r1 with
          | None => None
          | Some (hi, r2) =>
            let alone := '(t, r') ← scanstring fuel r2; Some (hi :: t, r') in
            if (0xD800 <=? hi) && (hi <=? 0xDBFF) then
              match r2 with
              | 92 :: 117 :: r3 =>
                match hex4 r3 with
                | None => None
                | Some (lo, r4) =>
                  if (0xDC00 <=? lo) && (lo <=? 0xDFFF) then
                    '(t, r') ← scanstring fuel r4;
                    Some (0x10000 + (hi - 0xD800) * 0x400 + (lo - 0xDC00) :: t, r')
                  else alone
                end
              | _ => alone
              end
            else alone
          end
        else
          ch ← simple_escape e;
          '(t, r') ← scanstring fuel r1;
          Some (ch :: t, r')
      end
    else '(t, r') ← scanstring fuel r; Some (c :: t, r')
  end.

Definition int_of_digits (ds : str) : Z :=
  fold_left (fun acc d => (acc * 10 + Z.of_N (d - 48))%Z) ds 0%Z.

(** json's NUMBER_RE: an optional minus, an integer part without leading
    zeros, an optional fraction, an optional exponent. *)
Definition scan_number (s : str) : option (json * str) :=
  let '(sign, r0) := match s with 45 :: r => ([45], r) | _ => ([], s) end in
  match r0 with
  | d :: r1 =>
    if is_digit d then
      let '(ipart, r2) :=
        if d =? 48 then ([d], r1)
        else (d :: take_while is_digit r1, drop_while is_digit r1) in
      let '(frac, r3) :=
        match r2 with
        | 46 :: r' =>
          match take_while is_digit r' with
          | [] => ([], r2)
          | ds => (46 :: ds, drop_while is_digit r')
          end
        | _ => ([], r2)
        end in
      let '(expo, r4) :=
        match r3 with
        | e :: r' =>
          if (e =? 101) || (e =? 69) then
            let '(sg, r'') :=
              match r' with
              | x :: y => if (x =? 43) || (x =? 45) then ([x], y) else ([], r')
              | [] => ([], r')
              end in
            match take_while is_digit r'' with
            | [] => ([], r3)
            | ds => (e :: sg ++ ds, drop_while is_digit r'')
            end
          else ([], r3)
        | [] => ([], r3)
        end in
      match frac, expo with
      | [], [] =>
        Some (JInt (match sign with [] => int_of_digits ipart
                    | _ => - int_of_digits ipart end)%Z, r4)
      | _, _ => Some (JFloat (float_of_literal (sign ++ ipart ++ frac ++ expo)), r4)
      end
    else None
  | [] => None
  end.

Definition after (p s : str) : option str :=
  if starts_with p s then Some (drop (length p) s) else None.

Fixpoint scan_once (fuel : nat) (s : str) : option (json * str) :=
  match fuel with
  | O => None
  | S fuel =>
    match s with
    | 34 :: r => '(t, r') ← scanstring (S (length r)) r; Some (JString t, r')
    | 123 :: r =>
      match skip_ws r with
      | 125 :: r' => Some (JObject [], r')
      | r' => scan_object fuel [] r'
      end
    | 91 :: r =>
      match skip_ws r with
      | 93 :: r' => Some (JArray [], r')
      | r' => scan_array fuel [] r'
      end
    | _ =>
      match after (u "null") s, after (u "true") s, after (u "false") s with
      | Some r, _, _ => Some (JNull, r)
      | _, Some r, _ => Some (JBool true, r)
      | _, _, Some r => Some (JBool false, r)
      | _, _, _ =>
        match after (u "NaN") s, after (u "Infinity") s, after (u "-Infinity") s with
        | Some r, _, _ => Some (JFloat nan, r)
        | _, Some r, _ => Some (JFloat infinity, r)
        | _, _, Some r => Some (JFloat neg_infinity, r)
        | _, _, _ => scan_number s
        end
      end
    end
  end
with scan_array (fuel : nat) (acc : list json) (s : str) : option (json * str) :=
  match fuel with
  | O => None
  | S fuel =>
    '(v, r) ← scan_once fuel s;
    match skip_ws r with
    | 93 :: r' => Some (JArray (rev (v :: acc)), r')
    | 44 :: r' => scan_array fuel (v :: acc) (skip_ws r')
    | _ => None
    end
  end
with scan_object (fuel : nat) (acc : list (str * json)) (s : str) : option (json * str) :=
  match fuel with
  | O => None
  | S fuel =>
    match s with
    | 34 :: r =>
      '(k, r1) ← scanstring (S (length r)) r;
      match skip_ws r1 with
      | 58 :: r2 =>
        '(v, r3) ← scan_once fuel (skip_ws r2);
        match skip_ws r3 with
        | 125 :: r' => Some (JObject (dict_set k v acc), r')
        | 44 :: r' => scan_object fuel (dict_set k v acc) (skip_ws r')
        | _ => None
        end
      | _ => None
      end
    | _ => None
    end
  end.

(** [json.loads(s)]: one value, surrounded by optional white space only. *)
Definition loads (s : str) : option json :=
  '(v, r) ← scan_once (2 * length s + 2) (skip_ws s);
  match skip_ws r with
  | [] => Some v
  | _ => None
  end.
End Decoder.

(** ** The encoder of [json.dump(..., ensure_ascii=False, indent=2)]

    [repr] of a float (with [NaN] and [Infinity] for the non-finite values) is
    a parameter. *)
Section Encoder.
Variable float_repr : float -> str.

Definition hex_digit (n : N) : char := if n <? 10 then 48 + n else 87 + n.

Definition escape_char (c : char) : str :=
  if c =? 34 then [92; 34] else if c =? 92 then [92; 92]
  else if c =? 10 then [92; 110] else if c =? 13 then [92; 114]
  else if c =? 9 then [92; 116] else if c =? 8 then [92; 98]
  else if c =? 12 then [92; 102]
  else if c <? 32 then [92; 117; 48; 48; hex_digit (c / 16); hex_digit (c mod 16)]
  else [c].

Definition encode_string (s : str) : str := 34 :: flat_map escape_char s ++ [34].

Definition newline_indent (level : nat) : str := nl ++ repeat 32 (2 * level).

Fixpoint iterencode (level : nat) (v : json) : str :=
  match v with
  | JNull => u "null"
  | JBool true => u "true"
  | JBool false => u "false"
  | JInt z => str_of_int z
  | JFloat f => float_repr f
  | JString s => encode_string s
  | JArray [] => u "[]"
  | JArray l =>
    u "[" ++ newline_indent (S level)
      ++ join (u "," ++ newline_indent (S level)) (map (iterencode (S level)) l)
      ++ newline_indent level ++ u "]"
  | JObject [] => u "{}"
  | JObject kv =>
    u "{" ++ newline_indent (S level)
      ++ join (u "," ++ newline_indent (S level))
           (map (fun p => encode_string (fst p) ++ u ": " ++ iterencode (S level) (snd p)) kv)
      ++ newline_indent level ++ u "}"
  end.

Definition dumps_indent2 (v : json) : str := iterencode 0 v.
End Encoder.

End Json.

Import Json.

(* ===================================================================== *)
(** * What the code takes from its surroundings *)
(* ===================================================================== *)

(** A call either returns a value or raises an exception [e]; the exception is
    kept as the text [str(e)], which is all the code uses of it. *)
Inductive outcome (A : Type) : Type :=
  | Returned (a : A)
  | Raised (e : str).
Arguments Returned {A} a.
Arguments Raised {A} e.

(** The library and collaborator functions called by the dispatcher.  [World]
    is whatever the model function and the tools may read or change. *)
Class Runtime := {
  World : Type;
  (** [json.loads]; [None] when it raises *)
  json_loads : str -> option json;
  (** [str(x)] of a float, a list or a dict *)
  py_repr : json -> str;
  (** the persona hook applied to the system prompt *)
  inject_persona_to_system : option str -> World -> str;
  (** [datetime.now().year] *)
  local_year : World -> Z;
  (** [time.time()] *)
  time_time : World -> float;
  (** the format specification [.2f] *)
  format_2f : float -> str;
}.

(* ===================================================================== *)
(** * tool_dispatcher.py *)
(* ===================================================================== *)

Module Dispatcher.

(** ** The two directive patterns *)

(** Case folding as [re.IGNORECASE] applies it to a pattern over ASCII
    letters: besides the ASCII capitals, U+0130 and U+0131 match [i], U+017F
    matches [s] and U+212A matches [k]. *)
Definition ascii_fold (c : char) : char :=
  if (65 <=? c) && (c <=? 90) then c + 32
  else if (c =? 0x130) || (c =? 0x131) then 105
  else if c =? 0x17F then 115
  else if c =? 0x212A then 107
  else c.

Definition ci_eq (p c : char) : bool := ascii_fold p =? ascii_fold c.

(** A literal matched case-insensitively at the start of [s]: what follows. *)
Fixpoint ci_prefix (p s : str) : option str :=
  match p, s with
  | [], _ => Some s
  | a :: p', b :: s' => if ci_eq a b then ci_prefix p' s' else None
  | _ :: _, [] => None
  end.

(** The class [[A-Za-z0-9_]] under [re.IGNORECASE]. *)
Definition is_name_char (c : char) : bool :=
  ((97 <=? ascii_fold c) && (ascii_fold c <=? 122)) || is_digit c || (c =? 95).

(** [$] without [re.MULTILINE]: the end, or just before a final newline. *)
Definition at_end (s : str) : bool :=
  match s with
  | [] | [10] => true
  | _ => false
  end.

Definition not_newline (c : char) : bool := negb (c =? 10).

(** [_TOOL_CALL_RE.match(line)], groups 1 and 2.  The pattern, under
    [re.IGNORECASE], is the keyword [CALL_TOOL:], white space [\s*], group 1
    [[A-Za-z0-9_]+], then optionally white space [\s+] and group 2 (any
    characters but a newline, as many as there are), then [$].
    Every repetition is greedy, and giving characters back
    never turns a failure into a match: the character after the white space is
    no white space, the one after the name is no name character. *)
Definition _TOOL_CALL_RE_match (line : str) : option (str * option str) :=
  r ← ci_prefix (u "CALL_TOOL:") line;
  let r1 := drop_while isspace r in
  let name := take_while is_name_char r1 in
  let r3 := drop_while is_name_char r1 in
  match name with
  | [] => None
  | _ =>
    let r4 := drop_while isspace r3 in
    let g2 := take_while not_newline r4 in
    if negb (bool_decide (take_while isspace r3 = []))
       && at_end (drop_while not_newline r4)
    then Some (name, Some g2)
    else if at_end r3 then Some (name, None)
    else None
  end.

(** The longest prefix of [body] that ends with a closing brace. *)
Definition upto_last_brace (body : str) : str :=
  rev (drop_while (fun c => negb (c =? 125)) (rev body)).

(** [_TOOL_CALL_JSON_RE] tried at the start of [s].  The pattern, under
    [re.IGNORECASE | re.DOTALL], is the keyword [CALL_TOOL_JSON:], white space
    [\s*], and group 1: an opening brace, any characters (as many as there
    are), a closing brace.  So group 1 runs from the brace after the white
    space to the last closing brace of the text. *)
Definition _TOOL_CALL_JSON_RE_match_at (s : str) : option str :=
  r ← ci_prefix (u "CALL_TOOL_JSON:") s;
  match drop_while isspace r with
  | 123 :: body =>
    match upto_last_brace body with
    | [] => None
    | g => Some (123 :: g)
    end
  | _ => None
  end.

(** [_TOOL_CALL_JSON_RE.search(text)]: the leftmost position that matches. *)
Fixpoint _TOOL_CALL_JSON_RE_search (text : str) : option str :=
  match _TOOL_CALL_JSON_RE_match_at text with
  | Some g => Some g
  | None =>
    match text with
    | [] => None
    | _ :: r => _TOOL_CALL_JSON_RE_search r
    end
  end.

Section Parse.
Context `{Runtime}.

(** [a or b] *)
Definition py_or (a b : json) : json := if truthy a then a else b.

(** [payload.get(k)] *)
Definition get (d : list (str * json)) (k : str) : json :=
  default JNull (dict_get k d).

(** [str(x)] *)
Definition py_str (v : json) : str :=
  match v with
  | JString s => s
  | JInt z => str_of_int z
  | JBool true => u "True"
  | JBool false => u "False"
  | JNull => u "None"
  | _ => py_repr v
  end.

(** The [try] block of [_parse_tool_call]; [None] when it falls through,
    either because [name] is false or because an exception was swallowed
    ([json.loads] failing, [.get] on a value that is no dict, [.strip] on a
    name that is no string). *)
Definition parse_json_form (text : str) : option (str * str) :=
  g ← _TOOL_CALL_JSON_RE_search text;
  payload ← json_loads g;
  match payload with
  | JObject d =>
    let name := py_or (get d (u "tool")) (get d (u "name")) in
    let args := py_or (py_or (get d (u "args")) (get d (u "arguments"))) (JString []) in
    match name with
    | JString s => if truthy name then Some (strip s, strip (py_str args)) else None
    | _ => None
    end
  | _ => None
  end.

(** The [for line in text.splitlines()] loop. *)
Fixpoint parse_line_form (lines : list str) : option (str * str) :=
  match lines with
  | [] => None
  | l :: rest =>
    let line := strip l in
    if bool_decide (line = []) then parse_line_form rest
    else
      match _TOOL_CALL_RE_match line with
      | Some (g1, g2) => Some (strip g1, strip (default [] g2))
      | None => parse_line_form rest
      end
  end.

Definition _parse_tool_call (text : str) : option (str * str) :=
  if bool_decide (text = []) then None
  else
    match parse_json_form text with
    | Some tc => Some tc
    | None => parse_line_form (splitlines text)
    end.
End Parse.

(** ** The time short-circuit *)

(** The alternatives of [_TIME_QUERY_RE]; none of their characters is cased,
    so [re.I] changes nothing. *)
Definition _TIME_QUERY_RE : list str :=
  [u "今年是哪年"; u "今年是哪一年"]
  ++ map (app (u "现在是")) [u "哪年"; u "什么年"]
  ++ [u "当前年份"; u "现在是哪一年"; u "现在是什么年"].

(** Whether [_TIME_QUERY_RE.search(s)] finds a match. *)
Definition _TIME_QUERY_RE_search (s : str) : bool :=
  existsb (fun p => contains p s) _TIME_QUERY_RE.

(** ** The round loop *)

(** A callable from [str] to [str] that may read and change the world [W]. *)
Definition callable (W : Type) : Type := str -> W -> outcome str * W.

Record Tool (W : Type) := {
  name : str;
  (** the text of the result, as an f-string renders it *)
  func : callable W;
  description : str;
}.
Arguments name {W} _.
Arguments func {W} _.
Arguments description {W} _.

(** What is observed of a turn: the model calls with their context, and the
    tool invocations. *)
Inductive event :=
  | ModelCall (context : str)
  | ToolInvoke (tool_name tool_args : str).

(** How the [for] loop is left: by a [return], or by running out of rounds
    with the context built so far. *)
Inductive loop_exit :=
  | Answer (s : str)
  | Exhausted (context : str).

Section Loop.
Context `{Runtime}.

Definition state : Type := World * list event.

Definition M (A : Type) : Type := state -> A * state.

#[export] Instance M_ret : MRet M := fun A a st => (a, st).
#[export] Instance M_bind : MBind M := fun A B f m st => let (a, st') := m st in f a st'.

Definition call_model (llm_callable : callable World) (context : str) : M (outcome str) :=
  fun st => let (r, w) := llm_callable context st.1 in (r, (w, st.2 ++ [ModelCall context])).

Definition invoke (tool : Tool World) (tool_args : str) : M (outcome str) :=
  fun st => let (r, w) := func tool tool_args st.1 in
            (r, (w, st.2 ++ [ToolInvoke (name tool) tool_args])).

Definition read {A} (f : World -> A) : M A := fun st => (f st.1, st).

Definition _answer_time_shortcircuit (user_prompt : str) : M (option str) :=
  if _TIME_QUERY_RE_search user_prompt then
    year ← read local_year;
    mret (Some (u "今年是 " ++ str_of_int year ++ u " 年。"))
  else mret None.

Definition tool_error (tool_name response : str) : str :=
  nl ++ nl ++ u "[ToolError] 未找到工具: " ++ tool_name ++ nl
     ++ u "模型原文:" ++ nl ++ response ++ nl
     ++ u "请不要再尝试调用不存在的工具。".

Definition observation (tool_name tool_args tool_result : str) (elapsed : float) : str :=
  nl ++ nl ++ u "[ToolInvocation]" ++ nl ++ u "Tool: " ++ tool_name ++ nl
     ++ u "Args: " ++ tool_args ++ nl ++ u "Result (truncated):" ++ nl
     ++ tool_result ++ nl
     ++ u "(执行耗时: " ++ format_2f elapsed ++ u "s)" ++ nl.

Definition continue_hint : str :=
  nl ++ u "请基于上面的工具结果继续并生成最终回答（如果需要可再次发出 CALL_TOOL: 指令）。".

Definition limit_hint : str :=
  nl ++ nl ++ u "已达到最大工具调用次数，请基于现有信息给出最终回答。".

(** [n] iterations of [for call_idx in range(...)]. *)
Fixpoint rounds (llm_callable : callable World) (name2tool : gmap str (Tool World))
    (n : nat) (context : str) : M loop_exit :=
  match n with
  | O => mret (Exhausted context)
  | S n' =>
    r ← call_model llm_callable context;
    match r with
    | Raised e => mret (Answer (u "LLM 调用失败：" ++ e))
    | Returned response =>
      match _parse_tool_call response with
      | None => mret (Answer response)
      | Some (tool_name, tool_args) =>
        match name2tool !! tool_name with
        | None =>
          rounds llm_callable name2tool n' (context ++ tool_error tool_name response)
        | Some tool =>
          start ← read time_time;
          res ← invoke tool tool_args;
          stop ← read time_time;
          let elapsed := PrimFloat.sub stop start in
          let tool_result :=
            match res with
            | Returned x => x
            | Raised e => u "工具执行异常：" ++ e
            end in
          rounds llm_callable name2tool n'
            (context ++ (nl ++ nl ++ strip response ++ nl
                         ++ observation tool_name tool_args tool_result elapsed)
                     ++ continue_hint)
        end
      end
    end
  end.

(** The rounds, then the forced final call when they are used up. *)
Definition rounds_then_final (llm_callable : callable World) (name2tool : gmap str (Tool World))
    (n : nat) (context : str) : M str :=
  r ← rounds llm_callable name2tool n context;
  match r with
  | Answer a => mret a
  | Exhausted context' =>
    f ← call_model llm_callable (context' ++ limit_hint);
    match f with
    | Returned final => mret final
    | Raised e => mret (u "LLM 调用失败（终结轮）：" ++ e)
    end
  end.

(** [{t.name: t for t in tools}]: a later tool replaces an earlier one of
    the same name. *)
Definition registry (tools : list (Tool World)) : gmap str (Tool World) :=
  foldl (fun m t => <[name t := t]> m) ∅ tools.

Definition initial_context (system_with_persona user_prompt : str) : str :=
  join (nl ++ nl)
    ((if bool_decide (system_with_persona = []) then []
      else [strip system_with_persona]) ++ [strip user_prompt]).

Definition run_with_tools (llm_callable : callable World) (user_prompt : str)
    (tools : list (Tool World)) (system_prompt : option str) (max_tool_calls : Z) : M str :=
  let name2tool := registry tools in
  time_answer ← _answer_time_shortcircuit user_prompt;
  match time_answer with
  | Some a => mret a
  | None =>
    system_with_persona ← read (inject_persona_to_system system_prompt);
    rounds_then_final llm_callable name2tool (Z.to_nat (max_tool_calls + 1))
      (initial_context system_with_persona user_prompt)
  end.

(** A model function that, whatever it is shown, asks for a tool of the
    registry. *)
Definition always_calls_known_tool (llm_callable : callable World)
    (name2tool : gmap str (Tool World)) : Prop :=
  forall context w, exists response w1 tool_name tool_args tool,
    llm_callable context w = (Returned response, w1)
    /\ _parse_tool_call response = Some (tool_name, tool_args)
    /\ name2tool !! tool_name = Some tool.

(** Counting in a trace. *)
Definition is_model_call (e : event) : bool :=
  match e with ModelCall _ => true | _ => false end.
Definition is_tool_invoke (e : event) : bool :=
  match e with ToolInvoke _ _ => true | _ => false end.
Definition model_calls (tr : list event) : nat := length (List.filter is_model_call tr).
Definition tool_invocations (tr : list event) : nat :=
  length (List.filter is_tool_invoke tr).
End Loop.

End Dispatcher.

Import Dispatcher.


(* ===================================================================== *)
(** * agent_langchain_project/memory.py: class JsonMemoryFallback *)
(* ===================================================================== *)

Module Memory.

(** The store.  [texts] and [metadatas] are Python lists; their elements are
    whatever was added or loaded. *)
Record JsonMemoryFallback := {
  path : str;
  texts : list json;
  metadatas : list json;
  max_items : Z;
}.

(** ** [add] *)

(** The [try] block at the head of [add].  [pop(0)] on an empty list raises
    [IndexError], which the [except] swallows; what was popped before stays
    popped. *)
Definition evict (self : JsonMemoryFallback) : JsonMemoryFallback :=
  if (max_items self <=? Z.of_nat (length (texts self)))%Z then
    match texts self with
    | [] => self
    | _ :: ts =>
      match metadatas self with
      | [] => {| path := path self; texts := ts; metadatas := [];
                 max_items := max_items self |}
      | _ :: ms => {| path := path self; texts := ts; metadatas := ms;
                      max_items := max_items self |}
      end
    end
  else self.

(** [meta or {"timestamp": time.time()}] *)
Definition meta_or_default (meta : option json) (now : float) : json :=
  match meta with
  | Some m => if truthy m then m else JObject [(u "timestamp", JFloat now)]
  | None => JObject [(u "timestamp", JFloat now)]
  end.

(** [add(text, meta)], with [now] the reading of [time.time()]: the returned
    index and the store afterwards. *)
Definition add (self : JsonMemoryFallback) (text : str) (meta : option json)
    (now : float) : nat * JsonMemoryFallback :=
  let self1 := evict self in
  let idx := length (texts self1) in
  (idx, {| path := path self1;
           texts := texts self1 ++ [JString text];
           metadatas := metadatas self1 ++ [meta_or_default meta now];
           max_items := max_items self1 |}).

(** ** [persist] *)

(** The files, by path, with their text. *)
Abbreviation files := (gmap (list N) (list N)).

(** How the operating system answers during one [persist]. *)
Record os_behaviour := {
  (** [os.makedirs(dirp, exist_ok=True)] raises *)
  makedirs_fails : bool;
  (** the path [tempfile.mkstemp] creates; [None] when it raises *)
  mkstemp_result : option str;
  (** [json.dump] into the temporary file: [None] when it completes,
      [Some k] when an exception stops it with [k] characters written *)
  write_stops_after : option nat;
  (** [os.replace(tmppath, self.path)] raises *)
  replace_fails : bool;
}.

(** The object handed to [json.dump]. *)
Definition document (self : JsonMemoryFallback) : json :=
  JObject [(u "texts", JArray (texts self)); (u "metadatas", JArray (metadatas self))].

Section Persist.
(** [os.path.dirname], and the text [json.dump(obj, f, ensure_ascii=False,
    indent=2)] writes *)
Variable dirname : str -> str.
Variable json_dumps : json -> str.

(** The temporary file while [json.dump] writes it: after each character. *)
Definition writing (fs : files) (tmppath doc : str) (k : nat) : list files :=
  map (fun i => <[tmppath := take i doc]> fs) (seq 1 k).

(** [os.replace(src, dst)]: one step; [dst] gets the content of [src], and
    the name [src] is gone. *)
Definition os_replace (src dst : str) (fs : files) : files :=
  match fs !! src with
  | Some content => <[dst := content]> (delete src fs)
  | None => fs
  end.

(** The [try] block of [persist]: the states the file system goes through,
    in order, and how the block ends. *)
Definition persist_try (self : JsonMemoryFallback) (os : os_behaviour) (fs : files)
    : list files * outcome unit :=
  let dirp := dirname (path self) in
  if negb (bool_decide (dirp = [])) && makedirs_fails os
  then ([], Raised (u "makedirs"))
  else
    match mkstemp_result os with
    | None => ([], Raised (u "mkstemp"))
    | Some tmppath =>
      let fs1 := <[tmppath := []]> fs in
      let doc := json_dumps (document self) in
      match write_stops_after os with
      | Some k => (fs1 :: writing fs tmppath doc (min k (length doc)), Raised (u "write"))
      | None =>
        let fs2 := <[tmppath := doc]> fs in
        if replace_fails os
        then (fs1 :: writing fs tmppath doc (length doc) ++ [fs2], Raised (u "replace"))
        else (fs1 :: writing fs tmppath doc (length doc)
                ++ [fs2; os_replace tmppath (path self) fs2],
              Returned ())
      end
    end.

(** [persist()]: [return True] at the end of the [try] block,
    [return False] in [except Exception]. *)
Definition persist (self : JsonMemoryFallback) (os : os_behaviour) (fs : files)
    : list files * outcome bool :=
  match persist_try self os fs with
  | (history, Returned _) => (history, Returned true)
  | (history, Raised _) => (history, Returned false)
  end.

(** The file system once [persist] is over. *)
Definition after_persist (self : JsonMemoryFallback) (os : os_behaviour) (fs : files)
    : files :=
  default fs (last (persist self os fs).1).

(** Some step of [persist] raises. *)
Definition some_step_fails (self : JsonMemoryFallback) (os : os_behaviour) : Prop :=
  (dirname (path self) <> [] /\ makedirs_fails os = true)
  \/ mkstemp_result os = None
  \/ write_stops_after os <> None
  \/ replace_fails os = true.

(** [mkstemp] creates a file that did not exist, and it is not the store's
    own file. *)
Definition mkstemp_fresh (self : JsonMemoryFallback) (os : os_behaviour) (fs : files)
    : Prop :=
  forall tmppath, mkstemp_result os = Some tmppath ->
    fs !! tmppath = None /\ tmppath <> path self.
End Persist.

(** Every state of [l] has at [p] what [fs] has there. *)
Definition untouched (p : str) (fs : files) (l : list files) : Prop :=
  Forall (fun fs' => fs' !! p = fs !! p) l.

(** ** [__init__] *)

Section Load.
(** [os.path.expanduser] and [json.loads] ([None] when it raises) *)
Variable expanduser : str -> str.
Variable json_loads : str -> option json.

(** [data.get(k, [])] when it is a list; [None] when the file holds
    something else under [k], which [__init__] would store as it is and
    which the record above has no place for. *)
Definition get_list (data : list (str * json)) (k : str) : option (list json) :=
  match dict_get k data with
  | None => Some []
  | Some (JArray l) => Some l
  | Some _ => None
  end.

(** [JsonMemoryFallback(path)], with [max_items] the value read from the
    environment and [read_fails] telling whether opening or reading the file
    raises.  Every exception inside the [try] leaves the store empty. *)
Definition __init__ (path0 : str) (max_items0 : Z) (fs : files) (read_fails : bool)
    : option JsonMemoryFallback :=
  let p := expanduser path0 in
  let empty := {| path := p; texts := []; metadatas := []; max_items := max_items0 |} in
  match fs !! p with
  | None => Some empty
  | Some content =>
    if read_fails then Some empty
    else
      match json_loads content with
      | Some (JObject data) =>
        match get_list data (u "texts"), get_list data (u "metadatas") with
        | Some t, Some m =>
          Some {| path := p; texts := t; metadatas := m; max_items := max_items0 |}
        | _, _ => None
        end
      | _ => Some empty
      end
  end.
End Load.

(** ** [search] and [info] *)

(** [l[:k]] *)
Definition slice_to {A} (k : Z) (l : list A) : list A :=
  if (0 <=? k)%Z then take (Z.to_nat k) l
  else take (length l - Z.to_nat (- k)) l.

(** The dict appended for a hit. *)
Definition hit (t m : json) : json :=
  JObject [(u "text", t); (u "meta", m); (u "score", JFloat 1%float)].

Section Search.
(** [str.lower], and [str(v)] of a metadata value *)
Variable lower : str -> str.
Variable str_of_value : json -> str.

(** [(m or {}).values()]; [None] when [.values()] raises, [m] being true
    and no dict. *)
Definition meta_values (m : json) : option (list json) :=
  if truthy m then
    match m with
    | JObject d => Some (map snd d)
    | _ => None
    end
  else Some [].

(** The condition of the [if] in the loop of [search]; [false] also when
    evaluating it raises ([t] no string, or [m] true and no dict while the
    text does not match), which the [except] turns into [continue]. *)
Definition is_hit (ql : str) (t m : json) : bool :=
  match t with
  | JString s =>
    contains ql (lower s)
    || match meta_values m with
       | Some vs => existsb (fun v => contains ql (lower (str_of_value v))) vs
       | None => false
       end
  | _ => false
  end.

Definition search (self : JsonMemoryFallback) (query : str) (k : Z) : list json :=
  let ql := lower query in
  slice_to k
    (map (fun tm => hit tm.1 tm.2)
       (List.filter (fun tm => is_hit ql tm.1 tm.2) (zip (texts self) (metadatas self)))).
End Search.

(** [info()] *)
Definition info (self : JsonMemoryFallback) : json :=
  JObject [(u "n_vectors", JInt (Z.of_nat (length (texts self))));
           (u "path", JString (path self))].

(** The last [k] elements of a list. *)
Definition newest {A} (k : nat) (l : list A) : list A := drop (length l - k) l.

(** A record given to [add]: the text, the [meta] argument, and the clock
    reading used for a default [meta]. *)
Definition add_record (self : JsonMemoryFallback) (r : str * option json * float)
    : JsonMemoryFallback :=
  (add self r.1.1 r.1.2 r.2).2.

End Memory.

(* ===================================================================== *)
(** * agent_langchain_project/memory_utils.py *)
(* ===================================================================== *)

Module MemoryUtils.
Import Memory.

(** ** [trim_memory_if_needed] *)

(** The [while] loop: at most [fuel] iterations.  A [pop(0)] on an empty list
    raises; the [except] around the loop ends it, and what was popped stays
    popped. *)
Fixpoint trim_loop (fuel : nat) (MAX_MEMORY_ITEMS : Z) (ts ms : list json)
    : list json * list json :=
  match fuel with
  | O => (ts, ms)
  | S fuel' =>
    if (MAX_MEMORY_ITEMS <? Z.of_nat (length ts))%Z then
      match ts with
      | [] => (ts, ms)
      | _ :: ts' =>
        match ms with
        | [] => (ts', ms)
        | _ :: ms' => trim_loop fuel' MAX_MEMORY_ITEMS ts' ms'
        end
      end
    else (ts, ms)
  end.

(** [trim_memory_if_needed(mem)]; [mem] is [None] or a store.  Each
    iteration shortens [texts], so one iteration per text is enough. *)
Definition trim_memory_if_needed (MAX_MEMORY_ITEMS : Z) (mem : option JsonMemoryFallback)
    : option JsonMemoryFallback :=
  match mem with
  | None => None
  | Some self =>
    let '(ts, ms) := trim_loop (S (length (texts self))) MAX_MEMORY_ITEMS
                       (texts self) (metadatas self) in
    Some {| path := path self; texts := ts; metadatas := ms;
            max_items := max_items self |}
  end.

(** ** [_maybe_summarize] *)

(** [s.split()]: the maximal runs of characters that are no white space.
    [cur] is the current run, reversed. *)
Fixpoint split_ws (cur : str) (s : str) : list str :=
  match s with
  | [] => match cur with [] => [] | _ => [rev cur] end
  | c :: r =>
    if isspace c then
      match cur with
      | [] => split_ws [] r
      | _ => rev cur :: split_ws [] r
      end
    else split_ws (c :: cur) r
  end.

(** [" ".join(s.split())] *)
Definition squeeze (s : str) : str := join [32] (split_ws [] s).

(** [s[-k:]] for a positive [k] *)
Definition last_chars (k : nat) (s : str) : str := drop (length s - k) s.

(** The settings read from the environment when the module is loaded. *)
Record settings := {
  AUTO_SAVE_MODE : str;
  AUTO_SAVE_SUMMARIZE : bool;
  MAX_MEMORY_ITEMS : Z;
  MIN_LENGTH_TO_SUMMARIZE : Z;
}.

Definition _maybe_summarize (cfg : settings) (text : str) : str :=
  if bool_decide (text = []) then []
  else if negb (AUTO_SAVE_SUMMARIZE cfg) then take 3000 text
  else if (Z.of_nat (length text) <? MIN_LENGTH_TO_SUMMARIZE cfg)%Z then take 1000 text
  else
    let head := squeeze (take 300 text) in
    let tail := squeeze (last_chars 200 text) in
    take 1200 (head ++ u " ... " ++ tail).


(** ** [_contains_sensitive] *)

(** [p.search(text)] for a pattern that is tried at the start of [s] by
    [match_at]: some position matches. *)
Fixpoint search_any (match_at : str -> bool) (s : str) : bool :=
  match_at s
  || match s with
     | [] => false
     | _ :: r => search_any match_at r
     end.

(** At least [n] characters of the class [p] at the start of [s]. *)
Definition at_least (n : nat) (p : char -> bool) (s : str) : bool :=
  (n <=? length (take_while p s))%nat.

(** White space, a colon or an equals sign, white space: what follows. *)
Definition after_separator (r : str) : option str :=
  match drop_while isspace r with
  | c :: r' => if (c =? 58) || (c =? 61) then Some (drop_while isspace r') else None
  | [] => None
  end.

Definition is_letter (c : char) : bool :=
  (97 <=? Dispatcher.ascii_fold c) && (Dispatcher.ascii_fold c <=? 122).

Definition is_digit (c : char) : bool := (48 <=? c) && (c <=? 57).

(** The class of letters, digits, hyphen, dot and underscore, under [re.I] *)
Definition is_key_char (c : char) : bool :=
  is_letter c || is_digit c || (c =? 45) || (c =? 46) || (c =? 95).

(** The class of letters, digits, plus, slash and equals sign, under [re.I] *)
Definition is_base64_char (c : char) : bool :=
  is_letter c || is_digit c || (c =? 43) || (c =? 47) || (c =? 61).

(** Pattern 1: [api], optionally an underscore or a hyphen, [key], a
    separator, and 8 or more characters of the key class. *)
Definition api_key_at (s : str) : bool :=
  match Dispatcher.ci_prefix (u "api") s with
  | Some r =>
    let r1 := match r with
              | c :: r' => if (c =? 95) || (c =? 45) then r' else r
              | [] => r
              end in
    match Dispatcher.ci_prefix (u "key") r1 with
    | Some r2 =>
      match after_separator r2 with
      | Some v => at_least 8 is_key_char v
      | None => false
      end
    | None => false
    end
  | None => false
  end.

(** Pattern 2: [secret], a separator, 8 or more characters of the key
    class. *)
Definition secret_at (s : str) : bool :=
  match Dispatcher.ci_prefix (u "secret") s with
  | Some r =>
    match after_separator r with
    | Some v => at_least 8 is_key_char v
    | None => false
    end
  | None => false
  end.

(** Pattern 3: [password], a separator, 4 or more characters that are no
    white space. *)
Definition password_at (s : str) : bool :=
  match Dispatcher.ci_prefix (u "password") s with
  | Some r =>
    match after_separator r with
    | Some v => at_least 4 (fun c => negb (isspace c)) v
    | None => false
    end
  | None => false
  end.

(** Pattern 4: the first line of a PEM block for an RSA or a PRIVATE key. *)
Definition pem_header_at (s : str) : bool :=
  match Dispatcher.ci_prefix (u "-----BEGIN ") s with
  | Some r =>
    existsb (fun kind =>
               match Dispatcher.ci_prefix kind r with
               | Some r' => bool_decide (is_Some (Dispatcher.ci_prefix (u " KEY-----") r'))
               | None => false
               end)
      [u "RSA"; u "PRIVATE"]
  | None => false
  end.

(** Pattern 5: [ssh-rsa], white space, 100 or more characters of the base64
    class. *)
Definition ssh_rsa_at (s : str) : bool :=
  match Dispatcher.ci_prefix (u "ssh-rsa") s with
  | Some r =>
    negb (bool_decide (take_while isspace r = []))
    && at_least 100 is_base64_char (drop_while isspace r)
  | None => false
  end.

Definition _SENSITIVE_PATTERNS : list (str -> bool) :=
  [api_key_at; secret_at; password_at; pem_header_at; ssh_rsa_at].

Definition _contains_sensitive (text : str) : bool :=
  if bool_decide (text = []) then false
  else existsb (fun p => search_any p text) _SENSITIVE_PATTERNS.

(** ** [_should_save] and [auto_save_turn] *)

Section AutoSave.
(** [_short_hash]: the first 10 hexadecimal digits of the SHA-1 of the
    text *)
Variable _short_hash : str -> str.
Variable cfg : settings.

(** The comparison in the loop of [_should_save]; a text that is no string
    cannot be hashed, and the [except] goes on to the next one. *)
Definition same_hash (last_hash : str) (t : json) : bool :=
  match t with
  | JString s => bool_decide (_short_hash s = last_hash)
  | _ => false
  end.

(** [_should_save(user_text, assistant_text)]; [long_memory] is what
    [get_long_memory()] returns.  The loop looks at the last 10 texts. *)
Definition _should_save (long_memory : option JsonMemoryFallback)
    (user_text assistant_text : str) : bool :=
  if bool_decide (AUTO_SAVE_MODE cfg = u "off") then false
  else if _contains_sensitive user_text || _contains_sensitive assistant_text then false
  else if bool_decide (AUTO_SAVE_MODE cfg = u "on_change") then
    match long_memory with
    | None => true
    | Some mem =>
      negb (existsb (same_hash (_short_hash (user_text ++ nl ++ assistant_text)))
              (newest 10 (texts mem)))
    end
  else true.

Variable dirname : str -> str.
Variable json_dumps : json -> str.

(** The [meta] dict of a saved turn. *)
Definition turn_meta (request_id : json) (now : float) (user_text assistant_text : str)
    : json :=
  JObject [(u "type", JString (u "turn"));
           (u "source", JString (u "auto"));
           (u "request_id", request_id);
           (u "ts", JFloat now);
           (u "user_len", JInt (Z.of_nat (length user_text)));
           (u "assistant_len", JInt (Z.of_nat (length assistant_text)))].

(** [auto_save_turn(user_text, assistant_text, request_id, mem, persist)]:
    the returned index, or [None], with the store that was used and the
    files afterwards.  [request_id] is the id after the default has been
    filled in, [now] the clock, [os] the operating system during
    [persist]. *)
Definition auto_save_turn (long_memory : option JsonMemoryFallback)
    (now : float) (os : os_behaviour)
    (user_text : str) (assistant_text : option str) (request_id : json)
    (mem : option JsonMemoryFallback) (persist_flag : bool) (fs : files)
    : option nat * option JsonMemoryFallback * files :=
  let assistant := default [] assistant_text in
  if negb (_should_save long_memory user_text assistant) then (None, mem, fs)
  else
    match (match mem with Some m => Some m | None => long_memory end) with
    | None => (None, None, fs)
    | Some self =>
      let combined := u "User: " ++ user_text ++ nl ++ u "Assistant: " ++ assistant in
      let summary := _maybe_summarize cfg combined in
      let meta := turn_meta request_id now user_text assistant in
      let '(idx, self1) := add self summary (Some meta) now in
      let self2 := trim_memory_if_needed (MAX_MEMORY_ITEMS cfg) (Some self1) in
      (Some idx, self2,
       if persist_flag
       then after_persist dirname json_dumps (default self1 self2) os fs
       else fs)
    end.
End AutoSave.

End MemoryUtils.

(* ===================================================================== *)
(** * agent_langchain_project/tools_fetch.py *)
(* ===================================================================== *)

Module Fetch.

(** How [page.goto] followed by [page.content()] ends. *)
Inductive goto_result :=
  | Loaded (text : str)
  | TimedOut (te : str)
  | Failed (e : str).

(** The browser backend and the network, as [fetch_rendered_page] meets
    them.  [attempt] is the loop variable. *)
Record environment := {
  (** the [from playwright.sync_api import ...] line: [Some e] when it raises *)
  import_playwright : option str;
  (** starting the browser and opening a page: [Some e] when that raises,
      so that [page.goto] is not reached *)
  launch : forall (attempt : nat), option str;
  (** [page.goto(url, timeout=timeout_ms, ...)] and [page.content()] *)
  goto : forall (url : str) (attempt : nat) (timeout_ms : Z), goto_result;
  (** [import requests] and [requests.get(url, timeout=timeout_s, ...)]:
      the text of the response, or the exception *)
  requests_get : forall (url : str) (timeout_s : Z), outcome str;
}.

(** The returned dict. *)
Record result := {
  source : str;
  text : str;
  error : option str;
  attempts : nat;
}.

(** What is observed: the calls with their timeout. *)
Inductive event :=
  | Goto (attempt : nat) (timeout_ms : Z)
  | Get (timeout_s : Z).

(** [str(x)] for [last_err], which is [None] or a string. *)
Definition str_of_last_err (last_err : option str) : str := default (u "None") last_err.

Definition attempt_label (kind : str) (attempt : nat) (e : str) : str :=
  u "playwright " ++ kind ++ u " (attempt " ++ str_of_int (Z.of_nat attempt + 1)
    ++ u "): " ++ e.

(** [k] iterations of [for attempt in range(max_retries + 1)], from loop
    variable [attempt] on: either the [return] inside the loop, or [attempts]
    and [last_err] at its end. *)
Fixpoint render_loop (env : environment) (url : str) (timeout : Z)
    (k attempt attempts : nat) (last_err : option str) (tr : list event)
    : (result + nat * option str) * list event :=
  match k with
  | O => (inr (attempts, last_err), tr)
  | S k' =>
    let attempts := S attempts in
    match launch env attempt with
    | Some e =>
      render_loop env url timeout k' (S attempt) attempts
        (Some (attempt_label (u "error") attempt e)) tr
    | None =>
      let cur_timeout := (timeout * 2 ^ Z.of_nat attempt)%Z in
      let tr := tr ++ [Goto attempt (cur_timeout * 1000)%Z] in
      match goto env url attempt (cur_timeout * 1000)%Z with
      | Loaded text =>
        (inl {| source := u "playwright"; text := text; error := None;
                attempts := attempts |}, tr)
      | TimedOut te =>
        render_loop env url timeout k' (S attempt) attempts
          (Some (attempt_label (u "timeout") attempt te)) tr
      | Failed e =>
        render_loop env url timeout k' (S attempt) attempts
          (Some (attempt_label (u "error") attempt e)) tr
      end
    end
  end.

(** The second [try]: the plain HTTP GET. *)
Definition fallback (env : environment) (url : str) (timeout : Z)
    (attempts : nat) (last_err : option str) (tr : list event) : result * list event :=
  let timeout_s := Z.max (timeout * 2) 10 in
  match requests_get env url timeout_s with
  | Returned text =>
    ({| source := u "requests"; text := text;
        error := Some (u "playwright_failed: " ++ str_of_last_err last_err);
        attempts := S attempts |}, tr ++ [Get timeout_s])
  | Raised e_req =>
    ({| source := u "error"; text := [];
        error := Some (u "playwright_failed: " ++ str_of_last_err last_err
                         ++ u "; requests_failed: " ++ e_req);
        attempts := S attempts |}, tr ++ [Get timeout_s])
  end.

Definition fetch_rendered_page (env : environment) (url : str) (timeout max_retries : Z)
    : result * list event :=
  match import_playwright env with
  | Some e_play =>
    fallback env url timeout 0 (Some (u "playwright import/launch error: " ++ e_play)) []
  | None =>
    match render_loop env url timeout (Z.to_nat (max_retries + 1)) 0 0 None [] with
    | (inl r, tr) => (r, tr)
    | (inr (attempts, last_err), tr) => fallback env url timeout attempts last_err tr
    end
  end.

(** Rendering attempt [attempt] does not deliver the page. *)
Definition attempt_fails (env : environment) (url : str) (timeout : Z) (attempt : nat)
    : Prop :=
  launch env attempt <> None
  \/ forall text, goto env url attempt (timeout * 2 ^ Z.of_nat attempt * 1000)%Z
                  <> Loaded text.

End Fetch.

(* ===================================================================== *)
(** * Reading a turn's trace *)
(* ===================================================================== *)

(** The contexts shown to the model, in order. *)
Definition model_contexts (tr : list event) : list str :=
  omap (fun e => match e with ModelCall c => Some c | _ => None end) tr.

(** The names of the tools invoked, in order. *)
Definition invoked_names (tr : list event) : list str :=
  omap (fun e => match e with ToolInvoke t _ => Some t | _ => None end) tr.

(** Each element is a prefix of all the later ones. *)
Definition grows (cs : list str) : Prop :=
  forall (i j : nat) (a b : str),
    (i <= j)%nat -> cs !! i = Some a -> cs !! j = Some b -> a `prefix_of` b.

(** The directive that names [tool_name] with argument [tool_args], in the
    line form. *)
Definition line_directive_of (tool_name tool_args : str) : str :=
  u "CALL_TOOL: " ++ tool_name ++ u " " ++ tool_args.

(* ===================================================================== *)
(** * The page-fetch tool of tools.py, and reading a fetch's outcome *)
(* ===================================================================== *)

Module FetchTool.
Import Fetch.

(** What [last_err] is set to by rendering attempt [attempt]; [None] when
    the attempt delivers the page. *)
Definition failure_label (env : environment) (url : str) (timeout : Z) (attempt : nat)
    : option str :=
  match launch env attempt with
  | Some e => Some (attempt_label (u "error") attempt e)
  | None =>
    match goto env url attempt (timeout * 2 ^ Z.of_nat attempt * 1000)%Z with
    | Loaded _ => None
    | TimedOut te => Some (attempt_label (u "timeout") attempt te)
    | Failed e => Some (attempt_label (u "error") attempt e)
    end
  end.

Definition is_goto (e : event) : bool :=
  match e with Goto _ _ => true | Get _ => false end.

(** What [fetch_rendered_page_tool] returns: the dict of
    [fetch_rendered_page], or a dict with source [error], an empty text, the
    given error and no attempt count. *)
Inductive tool_result :=
  | Fetched (r : result)
  | Refused (error : str).

(** [fetch_rendered_page_tool(arg)].  [import_tools_fetch] is [Some e] when
    the import of the fetch module raises [e].  [fetch_rendered_page] is
    called with its defaults, a timeout of 15 and 2 retries; it raises
    nothing, so the last [except] is not reached. *)
Definition fetch_rendered_page_tool (import_tools_fetch : option str)
    (env : environment) (arg : str) : tool_result * list event :=
  match import_tools_fetch with
  | Some e => (Refused (u "fetch_impl_missing: " ++ e), [])
  | None =>
    let url := strip arg in
    if bool_decide (url = []) then (Refused (u "no_url_provided"), [])
    else (Fetched (fetch_rendered_page env url 15 2).1,
          (fetch_rendered_page env url 15 2).2)
  end.

End FetchTool.

(* ===================================================================== *)
(** * tools.py: the persona tools *)
(* ===================================================================== *)

Module Tools.
Import Memory.

(** [first.split(":", 1)] unpacked into two names: the parts before and
    after the first colon; [None] when there is no colon and the unpacking
    raises. *)
Definition split_colon (s : str) : option (str * str) :=
  match drop_while (fun c => negb (c =? 58)) s with
  | [] => None
  | _ :: after => Some (take_while (fun c => negb (c =? 58)) s, after)
  end.

(** [x or y] on strings *)
Definition str_or (x y : str) : str := if bool_decide (x = []) then y else x.

(** The [try] block of [save_persona_tool]: the [name] and the [body] handed
    to [save_persona].  An exception inside the block leaves [name] empty and
    sets [body] to the text. *)
Definition persona_name_and_body (text : str) : str * str :=
  if starts_with (u "persona_name:") text then
    match splitlines text with
    | [] => ([], text)
    | first :: rest =>
      match split_colon first with
      | None => ([], text)
      | Some (_, maybe_name) =>
        let name := strip maybe_name in
        (name, str_or (strip (join nl rest)) name)
      end
    end
  else ([], text).

(** [name or (text.splitlines()[0] if text else "")]; the indexing is in no
    [try] block. *)
Definition persona_name_of (name text : str) : outcome str :=
  if negb (bool_decide (name = [])) then Returned name
  else if negb (bool_decide (text = [])) then
    match splitlines text with
    | first :: _ => Returned first
    | [] => Raised (u "IndexError: list index out of range")
    end
  else Returned [].

(** The [meta] dict of [save_persona]; [now] is the reading of [time.time()]
    and [rid] the request id, a string or [None]. *)
Definition persona_meta (persona_name : str) (now : float) (rid : json) : json :=
  JObject [(u "type", JString (u "persona"));
           (u "persona_name", JString persona_name);
           (u "ts", JFloat now);
           (u "request_id", rid);
           (u "source", JString (u "manual_save"))].

Section Persona.
Variable dirname : str -> str.
Variable json_dumps : json -> str.
(** the clock, the request id, and the operating system during [persist] *)
Variable now : float.
Variable rid : json.
Variable os : os_behaviour.

(** [save_persona(text, name)] with the long-term memory [mem], [None] when
    [_get_mem()] has none; the store is a [JsonMemoryFallback].  Returns the
    dict, or the exception, with the store and the files afterwards. *)
Definition save_persona (mem : option JsonMemoryFallback) (fs : files)
    (text name : str) : outcome json * option JsonMemoryFallback * files :=
  match mem with
  | None =>
    (Returned (JObject [(u "error", JString (u "long_memory_unavailable"))]), None, fs)
  | Some self =>
    match persona_name_of name text with
    | Raised e => (Raised e, Some self, fs)
    | Returned persona_name =>
      let meta := persona_meta persona_name now rid in
      let '(idx, self') := add self text (Some meta) now in
      let persisted :=
        match (persist dirname json_dumps self' os fs).2 with
        | Returned b => b
        | Raised _ => false
        end in
      (Returned (JObject [(u "saved_index", JInt (Z.of_nat idx));
                          (u "persisted", JBool persisted);
                          (u "meta", meta)]),
       Some self', after_persist dirname json_dumps self' os fs)
    end
  end.

(** [save_persona_tool(text)] *)
Definition save_persona_tool (mem : option JsonMemoryFallback) (fs : files)
    (text : str) : outcome json * option JsonMemoryFallback * files :=
  let '(name, body) := persona_name_and_body text in
  save_persona mem fs body name.
End Persona.

(** [isinstance(m, dict) and m.get("type") == "persona"] *)
Definition is_persona (m : json) : bool :=
  match m with
  | JObject d =>
    match dict_get (u "type") d with
    | Some (JString s) => bool_decide (s = u "persona")
    | _ => false
    end
  | _ => false
  end.

(** [list_personas_tool()] *)
Definition list_personas_tool (mem : option JsonMemoryFallback) : list json :=
  match mem with
  | None => []
  | Some self =>
    map (fun tm => JObject [(u "meta", tm.2); (u "text", tm.1)])
      (List.filter (fun tm => is_persona tm.2) (zip (texts self) (metadatas self)))
  end.

End Tools.

(* ===================================================================== *)
(** * Concrete inputs *)
(* ===================================================================== *)

(** ** A runtime to evaluate examples with

    The world is a counter that a callable may bump; the decoder is
    [Json.loads].  The examples contain no float, and no list or dict is
    rendered. *)
Definition example_runtime : Runtime := {|
  World := nat;
  json_loads := loads (fun _ => 0%float);
  py_repr := fun _ => [];
  inject_persona_to_system := fun x _ => default [] x;
  local_year := fun _ => 2026%Z;
  time_time := fun _ => 0%float;
  format_2f := fun _ => u "0.00";
|}.


Module Ex.
#[local] Existing Instance example_runtime.

(** A model function that always asks for the tool [Noop], and counts its
    calls in the world. *)
Definition noop_llm : callable World :=
  fun _ w => (Returned (u "CALL_TOOL: Noop"), S w).

Definition noop_tool : Tool World :=
  {| name := u "Noop"; func := fun _ w => (Returned [], w); description := [] |}.

(** A model function that asks for a tool nobody registered. *)
Definition ghost_llm : callable World :=
  fun _ w => (Returned (u "CALL_TOOL: Ghost find me"), S w).

(** A tool with a long result: 2000 times the letter x. *)
Definition long_result : str := repeat 120 2000.

Definition dump_tool : Tool World :=
  {| name := u "Dump"; func := fun _ w => (Returned long_result, w);
     description := [] |}.

Definition dump_llm : callable World :=
  fun _ w => (Returned (u "CALL_TOOL: Dump"), S w).

(** A response with a JSON directive followed by a line directive whose
    argument has a closing brace. *)
Definition json_directive : str := jq "CALL_TOOL_JSON: {'tool':'Foo','args':'hello'}".
Definition line_directive : str := u "CALL_TOOL: Bar {x}".
Definition both_directives : str := json_directive ++ nl ++ line_directive.

(** A store at its limit of two records, and an operating system on which
    every step of [persist] succeeds. *)
Definition full_store : Memory.JsonMemoryFallback :=
  {| Memory.path := u "/data/mem.json";
     Memory.texts := [JString (u "first"); JString (u "second")];
     Memory.metadatas := [JObject [(u "type", JString (u "turn"))];
                          JObject [(u "type", JString (u "note"));
                                   (u "request_id", JString (u "r-2"))]];
     Memory.max_items := 2 |}.

Definition tmp_path : str := u "/data/.tmp.k3x9q2ab.json".

Definition all_fine : Memory.os_behaviour :=
  {| Memory.makedirs_fails := false;
     Memory.mkstemp_result := Some tmp_path;
     Memory.write_stops_after := None;
     Memory.replace_fails := false |}.

(** A disk that fills up 10 characters into the temporary file. *)
Definition disk_full : Memory.os_behaviour :=
  {| Memory.makedirs_fails := false;
     Memory.mkstemp_result := Some tmp_path;
     Memory.write_stops_after := Some 10%nat;
     Memory.replace_fails := false |}.

(** An older file at the store's path. *)
Definition old_disk : Memory.files := {[ u "/data/mem.json" := jq "{'texts': []}" ]}.

(** [os.path.dirname] for a path with a directory part and no trailing
    slash. *)
Definition dirname (p : str) : str :=
  rev (drop 1 (drop_while (fun c => negb (c =? 47)) (rev p))).

Definition dumps : json -> str := dumps_indent2 (fun _ => u "0.0").
End Ex.

(** ** More concrete inputs *)

Module ExMore.
#[local] Existing Instance example_runtime.

(** A second tool registered under the name [Noop]. *)
Definition noop_tool' : Tool World :=
  {| name := u "Noop"; func := fun _ w => (Returned (u "second"), w);
     description := u "replaces the first" |}.

(** A tool that raises, and a model function that always asks for it. *)
Definition boom_tool : Tool World :=
  {| name := u "Boom"; func := fun _ w => (Raised (u "ValueError: bad input"), w);
     description := [] |}.

Definition boom_llm : callable World :=
  fun _ w => (Returned (u "CALL_TOOL: Boom now"), S w).

(** A browser that cannot be started on the second attempt and times out
    on the others, with a network on which the GET succeeds. *)
Definition flaky_env : Fetch.environment :=
  {| Fetch.import_playwright := None;
     Fetch.launch := fun attempt =>
       if Nat.eqb attempt 1 then Some (u "browser closed") else None;
     Fetch.goto := fun _ _ _ => Fetch.TimedOut (u "Timeout exceeded");
     Fetch.requests_get := fun _ _ => Returned (u "<html></html>") |}.

(** [str.lower] on the letters A to Z. *)
Definition ascii_lower (s : str) : str :=
  map (fun c => if (65 <=? c) && (c <=? 90) then c + 32 else c) s.

(** Two records for [add]: one without [meta], one with. *)
Definition two_records : list (str * option json * float) :=
  [(u "third", None, 1%float);
   (u "fourth", Some (JObject [(u "type", JString (u "persona"))]), 2%float)].

(** The settings with their defaults, and with a limit of two records. *)
Definition default_settings : MemoryUtils.settings :=
  {| MemoryUtils.AUTO_SAVE_MODE := u "always";
     MemoryUtils.AUTO_SAVE_SUMMARIZE := true;
     MemoryUtils.MAX_MEMORY_ITEMS := 10000;
     MemoryUtils.MIN_LENGTH_TO_SUMMARIZE := 200 |}.

Definition small_settings : MemoryUtils.settings :=
  {| MemoryUtils.AUTO_SAVE_MODE := u "always";
     MemoryUtils.AUTO_SAVE_SUMMARIZE := true;
     MemoryUtils.MAX_MEMORY_ITEMS := 2;
     MemoryUtils.MIN_LENGTH_TO_SUMMARIZE := 200 |}.

(** A text of 250 times the letter x. *)
Definition unbroken : str := repeat 120 250.

(** A stand-in for the hash: the first 10 characters. *)
Definition first_ten (s : str) : str := take 10 s.

(** A persona in the prefixed form, with a CR LF between its lines. *)
Definition bob_body : str := u "You are Bob." ++ [13; 10] ++ u "Be kind." ++ nl.
End ExMore.
(* ===================================================================== *)
(** * Sanity checks of the string and JSON layers *)
(* ===================================================================== *)

Example splitlines_ex :
  splitlines (u "ab" ++ nl ++ [13; 10] ++ u "c" ++ [13]) = [u "ab"; []; u "c"].
Proof. reflexivity. Qed.

Example u_ex : u "今年" = [0x4ECA; 0x5E74].
Proof. reflexivity. Qed.

Example str_of_int_ex : str_of_int 2026 = u "2026" /\ str_of_int (-7) = u "-7" /\ str_of_int 0 = u "0".
Proof. repeat split. Qed.

Example loads_ex :
  loads (fun _ => 0%float) (jq "{'tool': 'Foo', 'args': ['aé', -12, true, null], 'tool': 'Bar'}")
  = Some (JObject [(u "tool", JString (u "Bar"));
                   (u "args", JArray [JString (u "aé"); JInt (-12); JBool true; JNull])]).
Proof. vm_compute. reflexivity. Qed.

Example loads_extra_data : loads (fun _ => 0%float) (jq "{'a': 1} x") = None.
Proof. vm_compute. reflexivity. Qed.

Example dumps_loads_ex :
  let v := JObject [(u "texts", JArray [JString (jq "a'b" ++ nl); JString (u "今年")]);
                    (u "metadatas", JArray [JObject [(u "type", JString (u "note"))]; JObject []])] in
  loads (fun _ => 0%float) (dumps_indent2 (fun _ => u "0.0") v) = Some v.
Proof. vm_compute. reflexivity. Qed.


(* ===================================================================== *)
(** * Properties of the string layer *)
(* ===================================================================== *)

Section StringFacts.

Lemma starts_with_app (p b : str) : starts_with p (p ++ b) = true.
Proof.
  induction p as [|a p IH]; simpl; [done|].
  by rewrite N.eqb_refl, IH.
Qed.

Lemma starts_with_inv (p s : str) :
  starts_with p s = true -> exists b, s = p ++ b.
Proof.
  revert s; induction p as [|a p IH]; intros s Hs; simpl in *.
  - by exists s.
  - destruct s as [|c s]; [done|].
    apply andb_true_iff in Hs as [Hc Hs]. apply N.eqb_eq in Hc as ->.
    destruct (IH _ Hs) as [b ->]. by exists b.
Qed.

Lemma contains_unfold (p s : str) :
  contains p s
  = starts_with p s || match s with [] => false | _ :: r => contains p r end.
Proof. by destruct s. Qed.

Lemma contains_app (p a b : str) : contains p (a ++ p ++ b) = true.
Proof.
  induction a as [|c a IH]; rewrite contains_unfold.
  - cbn [app]. by rewrite starts_with_app.
  - cbn [app]. rewrite IH. apply orb_true_r.
Qed.

Lemma contains_inv (p s : str) :
  contains p s = true -> exists a b, s = a ++ p ++ b.
Proof.
  induction s as [|c s IH]; simpl; intros Hs.
  - rewrite orb_false_r in Hs. apply starts_with_inv in Hs as [b ->]. by exists [], b.
  - apply orb_true_iff in Hs as [Hs|Hs].
    + apply starts_with_inv in Hs as [b ->]. by exists [], b.
    + destruct (IH Hs) as (a & b & ->). by exists (c :: a), b.
Qed.

Lemma contains_head (p b : str) : contains p (p ++ b) = true.
Proof. apply (contains_app p [] b). Qed.

Lemma contains_skip (p a s : str) :
  contains p s = true -> contains p (a ++ s) = true.
Proof.
  intros Hs. apply contains_inv in Hs as (a' & b & ->).
  rewrite app_assoc. apply contains_app.
Qed.

Lemma contains_spec (p s : str) :
  contains p s = true <-> exists a b, s = a ++ p ++ b.
Proof.
  split; [apply contains_inv|]. intros (a & b & ->). apply contains_app.
Qed.

Lemma _TIME_QUERY_RE_search_spec (s : str) :
  _TIME_QUERY_RE_search s = true
  <-> exists p a b, In p _TIME_QUERY_RE /\ s = a ++ p ++ b.
Proof.
  unfold _TIME_QUERY_RE_search. rewrite existsb_exists. split.
  - intros (p & Hp & Hc). apply contains_inv in Hc as (a & b & ->). by exists p, a, b.
  - intros (p & a & b & Hp & ->). exists p. split; [done|]. apply contains_app.
Qed.

End StringFacts.

(** Finds [p] among the pieces of a concatenation. *)
Ltac find_infix :=
  rewrite <- ?app_assoc;
  repeat first [ apply contains_head | apply contains_skip ].

(* ===================================================================== *)
(** * Properties of the dispatch loop *)
(* ===================================================================== *)

Section LoopFacts.
Context `{Runtime}.
Implicit Types (llm : callable World) (n2t : gmap str (Tool World)) (st : state) (tr : list event).

(** One iteration of the loop, with the monad unfolded. *)
Lemma rounds_S llm n2t n context st :
  rounds llm n2t (S n) context st =
  let st1 := ((llm context st.1).2, st.2 ++ [ModelCall context]) in
  match (llm context st.1).1 with
  | Raised e => (Answer (u "LLM 调用失败：" ++ e), st1)
  | Returned response =>
    match _parse_tool_call response with
    | None => (Answer response, st1)
    | Some (tool_name, tool_args) =>
      match n2t !! tool_name with
      | None => rounds llm n2t n (context ++ tool_error tool_name response) st1
      | Some tool =>
        let res := func tool tool_args st1.1 in
        let tool_result :=
          match res.1 with Returned x => x | Raised e => u "工具执行异常：" ++ e end in
        rounds llm n2t n
          (context ++ (nl ++ nl ++ strip response ++ nl
                       ++ observation tool_name tool_args tool_result
                            (PrimFloat.sub (time_time res.2) (time_time st1.1)))
                   ++ continue_hint)
          (res.2, st1.2 ++ [ToolInvoke (name tool) tool_args])
      end
    end
  end.
Proof.
  destruct st as [w tr]. cbn [rounds]. unfold mbind, M_bind, call_model; cbn [fst snd].
  destruct (llm context w) as [[response|e] w1]; cbn [fst snd]; [|done].
  destruct (_parse_tool_call response) as [[tool_name tool_args]|]; [|done].
  destruct (n2t !! tool_name) as [tool|]; [|done].
  unfold read, invoke; cbn [fst snd].
  by destruct (func tool tool_args w1) as [res w2].
Qed.

(** The trace only grows. *)
Lemma rounds_trace_extends llm n2t n : forall context st,
  exists new, (rounds llm n2t n context st).2.2 = st.2 ++ new.
Proof.
  induction n as [|n IH]; intros context st.
  - exists []. by rewrite app_nil_r.
  - rewrite rounds_S. cbn zeta.
    destruct ((llm context st.1).1) as [response|e]; [|by eexists].
    destruct (_parse_tool_call response) as [[tool_name tool_args]|]; [|by eexists].
    destruct (n2t !! tool_name) as [tool|].
    + edestruct IH as [new ->]. cbn [fst snd]. rewrite <- !app_assoc. by eexists.
    + edestruct IH as [new ->]. cbn [fst snd]. rewrite <- !app_assoc. by eexists.
Qed.

(** Whatever happens, a turn that reaches the loop calls the model: first
    with the context it was given, or, with no round left, with that
    context and the limit hint. *)
Lemma rounds_then_final_calls_model llm n2t n context st :
  exists answer w next rest,
    rounds_then_final llm n2t n context st
      = (answer, (w, st.2 ++ ModelCall next :: rest))
    /\ exists hint, next = context ++ hint.
Proof.
  unfold rounds_then_final, mbind, M_bind.
  destruct n as [|n].
  - cbn [rounds]. unfold mret, M_ret, call_model.
    destruct (llm (context ++ limit_hint) st.1) as [[final|e] w] eqn:E;
      do 4 eexists; (split; [reflexivity|by eexists]).
  - assert (exists r w rest, rounds llm n2t (S n) context st
              = (r, (w, st.2 ++ ModelCall context :: rest))) as (r & w & rest & ->).
    { rewrite rounds_S. cbn zeta.
      destruct ((llm context st.1).1) as [response|e]; [|by do 3 eexists].
      destruct (_parse_tool_call response) as [[tool_name tool_args]|]; [|by do 3 eexists].
      destruct (n2t !! tool_name) as [tool|].
      - match goal with |- context [rounds llm n2t n ?c ?s] =>
          destruct (rounds_trace_extends llm n2t n c s) as [new Hnew];
          destruct (rounds llm n2t n c s) as [r [w tr']] end.
        cbn [fst snd] in Hnew. subst tr'. rewrite <- !app_assoc. by do 3 eexists.
      - match goal with |- context [rounds llm n2t n ?c ?s] =>
          destruct (rounds_trace_extends llm n2t n c s) as [new Hnew];
          destruct (rounds llm n2t n c s) as [r [w tr']] end.
        cbn [fst snd] in Hnew. subst tr'. rewrite <- !app_assoc. by do 3 eexists. }
    destruct r as [a|context'].
    + do 4 eexists. split; [reflexivity|]. exists []. by rewrite app_nil_r.
    + unfold call_model. cbn [fst snd].
      destruct (llm (context' ++ limit_hint) w) as [[final|e] w'];
        unfold mret, M_ret; rewrite <- app_assoc; do 4 eexists;
        (split; [reflexivity|]); exists []; by rewrite app_nil_r.
Qed.

Lemma model_calls_app tr1 tr2 :
  model_calls (tr1 ++ tr2) = (model_calls tr1 + model_calls tr2)%nat.
Proof. unfold model_calls. by rewrite List.filter_app, length_app. Qed.

Lemma tool_invocations_app tr1 tr2 :
  tool_invocations (tr1 ++ tr2) = (tool_invocations tr1 + tool_invocations tr2)%nat.
Proof. unfold tool_invocations. by rewrite List.filter_app, length_app. Qed.

(** With such a model function every iteration calls the model once and
    invokes a tool once, and the loop runs to its end. *)
Lemma rounds_exhausted llm n2t :
  always_calls_known_tool llm n2t ->
  forall n context st, exists context' w new,
    rounds llm n2t n context st = (Exhausted context', (w, st.2 ++ new))
    /\ model_calls new = n /\ tool_invocations new = n.
Proof.
  intros Hllm n. induction n as [|n IH]; intros context st.
  - exists context, st.1, []. rewrite app_nil_r. by destruct st.
  - rewrite rounds_S. cbn zeta.
    destruct (Hllm context st.1) as (response & w1 & tn & ta & tool & Hl & Hp & Hg).
    rewrite Hl. cbn [fst snd]. rewrite Hp, Hg.
    match goal with |- context [rounds llm n2t n ?c ?s] =>
      destruct (IH c s) as (context' & w & new & -> & Hm & Ht) end.
    cbn [fst snd]. rewrite <- !app_assoc.
    exists context', w, ([ModelCall context] ++ [ToolInvoke (name tool) ta] ++ new).
    split; [done|].
    rewrite !model_calls_app, !tool_invocations_app, Hm, Ht. by cbn.
Qed.

End LoopFacts.

(* ===================================================================== *)
(** * The dispatcher's claims *)
(* ===================================================================== *)

Section DispatcherClaims.
Context `{Runtime}.
Implicit Types (llm : callable World) (n2t : gmap str (Tool World)) (tr : list event).

(** C3. Time-query fast path: when the prompt contains one of the
    recognised phrasings, [run_with_tools] returns the sentence built
    around the current local year, which therefore contains that year, and
    the model function is not called: the trace and the world are the ones
    the turn started with. *)
Theorem time_query_fast_path llm (user_prompt : str) (tools : list (Tool World))
    (system_prompt : option str) (max_tool_calls : Z) (w : World) tr (p a b : str) :
  In p _TIME_QUERY_RE ->
  user_prompt = a ++ p ++ b ->
  run_with_tools llm user_prompt tools system_prompt max_tool_calls (w, tr)
    = (u "今年是 " ++ str_of_int (local_year w) ++ u " 年。", (w, tr))
  /\ contains (str_of_int (local_year w))
       (u "今年是 " ++ str_of_int (local_year w) ++ u " 年。") = true
  /\ model_calls
       (run_with_tools llm user_prompt tools system_prompt max_tool_calls (w, [])).2.2
     = 0%nat.
Proof.
  intros Hp ->.
  assert (_TIME_QUERY_RE_search (a ++ p ++ b) = true) as Hs.
  { apply _TIME_QUERY_RE_search_spec. by exists p, a, b. }
  assert (forall tr', run_with_tools llm (a ++ p ++ b) tools system_prompt
                        max_tool_calls (w, tr')
            = (u "今年是 " ++ str_of_int (local_year w) ++ u " 年。", (w, tr'))) as Hrun.
  { intros tr'. unfold run_with_tools, _answer_time_shortcircuit. by rewrite Hs. }
  split; [apply Hrun|]. split; [apply contains_app|]. by rewrite Hrun.
Qed.


(** C4. Unknown tool: when the model's response names a tool that is not in
    the registry, the round neither returns nor invokes anything; the loop
    goes on with one round less and with the error observation, which
    contains the unknown name, appended to the context; and the turn's next
    event is a model call whose context contains that name. *)
Theorem unknown_tool_continues llm n2t (n : nat) (context : str) (w : World) tr
    (response : str) (w1 : World) (tool_name tool_args : str) :
  llm context w = (Returned response, w1) ->
  _parse_tool_call response = Some (tool_name, tool_args) ->
  n2t !! tool_name = None ->
  rounds llm n2t (S n) context (w, tr)
    = rounds llm n2t n (context ++ tool_error tool_name response)
        (w1, tr ++ [ModelCall context])
  /\ contains tool_name (context ++ tool_error tool_name response) = true
  /\ exists answer w2 next rest,
       rounds_then_final llm n2t (S n) context (w, tr)
         = (answer, (w2, tr ++ [ModelCall context; ModelCall next] ++ rest))
       /\ contains tool_name next = true.
Proof.
  intros Hllm Hparse Hget.
  assert (rounds llm n2t (S n) context (w, tr)
          = rounds llm n2t n (context ++ tool_error tool_name response)
              (w1, tr ++ [ModelCall context])) as Hstep.
  { rewrite rounds_S. cbn [fst snd]. rewrite Hllm. cbn [fst snd].
    by rewrite Hparse, Hget. }
  assert (forall hint, contains tool_name
            ((context ++ tool_error tool_name response) ++ hint) = true) as Hin.
  { intros hint. unfold tool_error. find_infix. }
  split; [exact Hstep|]. split.
  { specialize (Hin []). by rewrite app_nil_r in Hin. }
  destruct (rounds_then_final_calls_model llm n2t n
              (context ++ tool_error tool_name response)
              (w1, tr ++ [ModelCall context]))
    as (answer & w2 & next & rest & Hrun & hint & ->).
  exists answer, w2, ((context ++ tool_error tool_name response) ++ hint), rest.
  split; [|apply Hin].
  unfold rounds_then_final in *. unfold mbind, M_bind in *.
  rewrite Hstep, Hrun. cbn [fst snd]. by rewrite <- !app_assoc.
Qed.

(** C1, as the code has it. With a round limit [N >= 0], a prompt that is no
    time query, and a model function that always asks for a registered
    tool, the loop runs [N + 1] rounds, each with a model call and a tool
    invocation, and the forced final call follows: [N + 2] model calls and
    [N + 1] tool invocations in all, and the answer is the output of the
    last call. *)
Theorem round_budget_model_calls llm (user_prompt : str) (tools : list (Tool World))
    (system_prompt : option str) (N : Z) (st : state) :
  (0 <= N)%Z ->
  _TIME_QUERY_RE_search user_prompt = false ->
  always_calls_known_tool llm (registry tools) ->
  exists final w new context w0,
    run_with_tools llm user_prompt tools system_prompt N st
      = (final, (w, st.2 ++ new ++ [ModelCall context]))
    /\ llm context w0 = (Returned final, w)
    /\ model_calls (new ++ [ModelCall context]) = (Z.to_nat N + 2)%nat
    /\ tool_invocations (new ++ [ModelCall context]) = (Z.to_nat N + 1)%nat.
Proof.
  intros HN Hq Hllm.
  unfold run_with_tools, _answer_time_shortcircuit. rewrite Hq.
  unfold mbind, M_bind, mret, M_ret, read, rounds_then_final.
  unfold mbind, M_bind, mret, M_ret.
  destruct (rounds_exhausted llm (registry tools) Hllm (Z.to_nat (N + 1))
              (initial_context (inject_persona_to_system system_prompt st.1) user_prompt)
              st) as (context' & w & new & -> & Hm & Ht).
  unfold call_model. cbn [fst snd].
  destruct (Hllm (context' ++ limit_hint) w)
    as (final & w1 & tn & ta & tool & Hl & _ & _).
  rewrite Hl. exists final, w1, new, (context' ++ limit_hint), w.
  rewrite <- app_assoc. split; [done|]. split; [done|].
  rewrite model_calls_app, tool_invocations_app, Hm, Ht. cbn.
  replace (Z.to_nat (N + 1)) with (S (Z.to_nat N)) by lia. lia.
Qed.

(** C2, as the code has it. In a round that invokes a known tool, the
    whole result goes into the context, whatever its length: the next
    context contains the result, and is longer than the previous one by
    more than the length of the result. *)
Theorem observation_embeds_whole_result llm n2t (n : nat) (context : str)
    (w : World) tr (response : str) (w1 : World) (tool_name tool_args : str)
    (tool : Tool World) (tool_result : str) (w2 : World) :
  llm context w = (Returned response, w1) ->
  _parse_tool_call response = Some (tool_name, tool_args) ->
  n2t !! tool_name = Some tool ->
  func tool tool_args w1 = (Returned tool_result, w2) ->
  let context' :=
    context ++ (nl ++ nl ++ strip response ++ nl
                ++ observation tool_name tool_args tool_result
                     (PrimFloat.sub (time_time w2) (time_time w1)))
            ++ continue_hint in
  rounds llm n2t (S n) context (w, tr)
    = rounds llm n2t n context'
        (w2, tr ++ [ModelCall context; ToolInvoke (name tool) tool_args])
  /\ contains tool_result context' = true
  /\ (length context + length tool_result < length context')%nat.
Proof.
  intros Hllm Hparse Hget Hfunc context'. subst context'. split; [|split].
  - rewrite rounds_S. cbn [fst snd]. rewrite Hllm. cbn [fst snd].
    rewrite Hparse, Hget. cbn zeta. rewrite Hfunc. cbn [fst snd].
    by rewrite <- (app_assoc tr).
  - unfold observation. find_infix.
  - unfold observation. rewrite !length_app. cbn [length nl]. lia.
Qed.

(** The keyword matched case-insensitively in front of anything. *)
Lemma ci_prefix_app (p kw r : str) :
  ci_prefix p kw = Some [] -> ci_prefix p (kw ++ r) = Some r.
Proof.
  revert kw; induction p as [|a p IH]; intros kw Hk.
  - destruct kw; cbn in *; congruence.
  - destruct kw as [|c kw]; [done|]. cbn in *.
    destruct (ci_eq a c); [by apply IH|done].
Qed.

Lemma drop_while_app_all (f : N -> bool) (a b : str) :
  forallb f a = true -> drop_while f (a ++ b) = drop_while f b.
Proof.
  induction a as [|c a IH]; [done|]. cbn. intros Ha.
  apply andb_true_iff in Ha as [-> Ha]. by apply IH.
Qed.

Lemma forallb_rev (f : N -> bool) (a : str) :
  forallb f a = true -> forallb f (rev a) = true.
Proof.
  rewrite !forallb_forall. intros Ha x Hx. apply Ha. by apply in_rev.
Qed.

(** Group 1 of the JSON pattern when the object is followed by no closing
    brace. *)
Lemma _TOOL_CALL_JSON_RE_match_at_directive (kw ws body post : str) :
  ci_prefix (u "CALL_TOOL_JSON:") kw = Some [] ->
  forallb isspace ws = true ->
  forallb (fun c => negb (c =? 125)) post = true ->
  _TOOL_CALL_JSON_RE_match_at (kw ++ ws ++ (123 :: body ++ [125]) ++ post)
    = Some (123 :: body ++ [125]).
Proof.
  intros Hkw Hws Hpost. unfold _TOOL_CALL_JSON_RE_match_at.
  rewrite (ci_prefix_app _ _ _ Hkw). cbn [mbind option_bind].
  rewrite (drop_while_app_all _ _ _ Hws).
  assert (drop_while isspace ((123 :: body ++ [125]) ++ post)
          = 123 :: (body ++ [125]) ++ post) as -> by reflexivity.
  assert (upto_last_brace ((body ++ [125]) ++ post) = body ++ [125]) as ->.
  { unfold upto_last_brace. rewrite rev_app_distr.
    rewrite (drop_while_app_all _ _ _ (forallb_rev _ _ Hpost)).
    rewrite rev_app_distr. cbn [rev app].
    change (drop_while _ (125 :: rev body)) with (125 :: rev body).
    cbn [rev]. by rewrite rev_involutive. }
  destruct (body ++ [125]) eqn:E; [by destruct body|done].
Qed.

Lemma _TOOL_CALL_JSON_RE_search_unfold (t : str) :
  _TOOL_CALL_JSON_RE_search t
  = match _TOOL_CALL_JSON_RE_match_at t with
    | Some g => Some g
    | None => match t with [] => None | _ :: r => _TOOL_CALL_JSON_RE_search r end
    end.
Proof. by destruct t. Qed.

(** The search returns the first match. *)
Lemma _TOOL_CALL_JSON_RE_search_first (pre t g : str) :
  (forall i, (i < length pre)%nat ->
     _TOOL_CALL_JSON_RE_match_at (drop i (pre ++ t)) = None) ->
  _TOOL_CALL_JSON_RE_match_at t = Some g ->
  _TOOL_CALL_JSON_RE_search (pre ++ t) = Some g.
Proof.
  intros Hpre Ht. induction pre as [|c pre IH].
  - cbn [app]. by rewrite _TOOL_CALL_JSON_RE_search_unfold, Ht.
  - rewrite _TOOL_CALL_JSON_RE_search_unfold.
    pose proof (Hpre 0%nat ltac:(cbn; lia)) as H0. rewrite drop_0 in H0.
    rewrite H0. cbn [app]. apply IH.
    intros i Hi. apply (Hpre (S i)). cbn. lia.
Qed.


End DispatcherClaims.

(* ===================================================================== *)
(** * The memory store's claims *)
(* ===================================================================== *)

Section MemoryClaims.
Import Memory.
Implicit Types (self : JsonMemoryFallback) (os : os_behaviour) (fs : files).

(** C6. Eviction invariant: [add] keeps [texts] and [metadatas] of equal
    length.  When the store holds at least [max_items] records, the record
    at index 0 is dropped from both lists and the new record is appended,
    so every record that was at index [i + 1] is at index [i] afterwards
    and the new record is last, at the returned index; below the limit the
    new record is appended and nothing is dropped. *)
Theorem add_keeps_lists_parallel self (text : str) (meta : option json) (now : float) :
  length (texts self) = length (metadatas self) ->
  length (texts (add self text meta now).2) = length (metadatas (add self text meta now).2)
  /\ ((max_items self <= Z.of_nat (length (texts self)))%Z ->
        texts (add self text meta now).2 = drop 1 (texts self) ++ [JString text]
        /\ metadatas (add self text meta now).2
           = drop 1 (metadatas self) ++ [meta_or_default meta now]
        /\ (forall i t m,
              texts self !! S i = Some t -> metadatas self !! S i = Some m ->
              texts (add self text meta now).2 !! i = Some t
              /\ metadatas (add self text meta now).2 !! i = Some m)
        /\ (add self text meta now).1 = length (drop 1 (texts self)))
  /\ ((Z.of_nat (length (texts self)) < max_items self)%Z ->
        texts (add self text meta now).2 = texts self ++ [JString text]
        /\ metadatas (add self text meta now).2
           = metadatas self ++ [meta_or_default meta now]
        /\ (add self text meta now).1 = length (texts self)).
Proof.
  intros Hlen. unfold add, evict.
  destruct (Z.leb_spec (max_items self) (Z.of_nat (length (texts self)))) as [Hfull|Hroom].
  - destruct self as [p [|t0 ts] [|m0 ms] mi]; cbn in *; try discriminate.
    + split; [done|]. split; [|lia]. intros _. repeat split; done.
    + split; [rewrite !length_app; cbn; lia|]. split; [|lia]. intros _.
      split; [done|]. split; [done|]. split; [|done].
      intros i t m Ht Hm. split; apply lookup_app_l_Some; done.
  - cbn. split; [rewrite !length_app; cbn; lia|]. split; [lia|done].
Qed.

Section WithLibraries.
Variable dirname : str -> str.
Variable json_dumps : json -> str.

Lemma writing_lookup fs (tmppath doc : str) (k : nat) (p : str) fs' :
  tmppath <> p -> In fs' (writing fs tmppath doc k) -> fs' !! p = fs !! p.
Proof.
  intros Hne Hin. unfold writing in Hin. apply in_map_iff in Hin as (i & <- & _).
  by apply lookup_insert_ne.
Qed.

Lemma os_replace_lookup (src dst content : str) fs :
  fs !! src = Some content -> os_replace src dst fs !! dst = Some content.
Proof. intros Hs. unfold os_replace. rewrite Hs. apply lookup_insert_eq. Qed.

Lemma untouched_writing fs (tmppath doc p : str) (k : nat) :
  tmppath <> p -> untouched p fs (<[tmppath := []]> fs :: writing fs tmppath doc k).
Proof.
  intros Hne. constructor; [by apply lookup_insert_ne|].
  apply Forall_forall. intros fs' Hin%list_elem_of_In.
  by apply (writing_lookup fs tmppath doc k).
Qed.

Lemma untouched_last (p : str) fs (l : list files) :
  untouched p fs l -> default fs (last l) !! p = fs !! p.
Proof.
  intros Hl. destruct (last l) as [fs'|] eqn:E; [|done]. cbn.
  apply last_Some in E as [l' ->]. apply Forall_app in Hl as [_ Hl].
  by inversion Hl.
Qed.

Lemma untouched_In (p : str) fs (l : list files) fs' :
  untouched p fs l -> In fs' l -> fs' !! p = fs !! p.
Proof.
  intros Hl Hin%list_elem_of_In. unfold untouched in Hl.
  rewrite Forall_forall in Hl. by apply Hl.
Qed.

Lemma untouched_snoc (p : str) fs (l : list files) fs' :
  untouched p fs l -> fs' !! p = fs !! p -> untouched p fs (l ++ [fs']).
Proof. intros Hl Hf. apply Forall_app. split; [done|]. by constructor. Qed.


Variable expanduser : str -> str.
Variable json_loads : str -> option json.

(** C7. Memory round-trip: when [persist] returns [True] and the JSON
    library reads back the document it wrote, a fresh store constructed
    on the same path, from a file that can be read, has the same [texts]
    and the same [metadatas], element for element and in the same
    order. *)
Theorem persist_then_load_roundtrip self os fs (path0 : str) (max_items0 : Z) :
  (persist dirname json_dumps self os fs).2 = Returned true ->
  json_loads (json_dumps (document self)) = Some (document self) ->
  expanduser path0 = path self ->
  __init__ expanduser json_loads path0 max_items0
    (after_persist dirname json_dumps self os fs) false
  = Some {| path := path self; texts := texts self; metadatas := metadatas self;
            max_items := max_items0 |}.
Proof.
  intros Hok Hrt Hpath.
  assert (after_persist dirname json_dumps self os fs !! path self
          = Some (json_dumps (document self))) as Hfile.
  { revert Hok. unfold after_persist, persist, persist_try.
    destruct (negb (bool_decide (dirname (path self) = [])) && makedirs_fails os);
      [discriminate|].
    destruct (mkstemp_result os) as [tmppath|]; [|discriminate].
    destruct (write_stops_after os); [discriminate|].
    destruct (replace_fails os); [discriminate|]. intros _. cbn [fst snd].
    rewrite last_cons, last_app. cbn [last default].
    apply os_replace_lookup, lookup_insert_eq. }
  unfold __init__. rewrite Hpath, Hfile, Hrt. unfold document.
  unfold get_list. cbn [dict_get].
  rewrite bool_decide_eq_true_2 by done.
  rewrite bool_decide_eq_false_2 by (vm_compute; discriminate).
  by rewrite bool_decide_eq_true_2 by done.
Qed.
End WithLibraries.

End MemoryClaims.

(* ===================================================================== *)
(** * The page fetcher's claim *)
(* ===================================================================== *)

Section FetchClaims.
Import Fetch.
Implicit Types (env : environment) (tr : list event).

(** What the retry loop does, from any point of its run. *)
Lemma render_loop_spec env (url : str) (timeout : Z) (k : nat) :
  forall (a0 n0 : nat) (last_err : option str) tr0,
  exists new,
    (render_loop env url timeout k a0 n0 last_err tr0).2 = tr0 ++ new
    /\ (forall e, In e new -> exists a,
          e = Goto a (timeout * 2 ^ Z.of_nat a * 1000)%Z /\ (a0 <= a < a0 + k)%nat)
    /\ match (render_loop env url timeout k a0 n0 last_err tr0).1 with
       | inl r =>
         source r = u "playwright"
         /\ exists a, (a0 <= a < a0 + k)%nat
              /\ launch env a = None
              /\ goto env url a (timeout * 2 ^ Z.of_nat a * 1000)%Z = Loaded (text r)
              /\ attempts r = (n0 + (a - a0) + 1)%nat
       | inr (n, _) =>
         n = (n0 + k)%nat
         /\ forall a, (a0 <= a < a0 + k)%nat -> attempt_fails env url timeout a
       end.
Proof.
  induction k as [|k IH]; intros a0 n0 last_err tr0.
  - exists []. cbn. rewrite app_nil_r. split; [done|]. split; [intros ? []|].
    split; [lia|]. intros a Ha. lia.
  - cbn [render_loop].
    assert (forall le tr1 new1,
              (forall e, In e new1 -> exists a,
                 e = Goto a (timeout * 2 ^ Z.of_nat a * 1000)%Z /\ a = a0) ->
              tr1 = tr0 ++ new1 ->
              attempt_fails env url timeout a0 ->
              exists new,
                (render_loop env url timeout k (S a0) (S n0) le tr1).2 = tr0 ++ new
                /\ (forall e, In e new -> exists a,
                      e = Goto a (timeout * 2 ^ Z.of_nat a * 1000)%Z
                      /\ (a0 <= a < a0 + S k)%nat)
                /\ match (render_loop env url timeout k (S a0) (S n0) le tr1).1 with
                   | inl r =>
                     source r = u "playwright"
                     /\ exists a, (a0 <= a < a0 + S k)%nat
                          /\ launch env a = None
                          /\ goto env url a (timeout * 2 ^ Z.of_nat a * 1000)%Z
                             = Loaded (text r)
                          /\ attempts r = (n0 + (a - a0) + 1)%nat
                   | inr (n, _) =>
                     n = (n0 + S k)%nat
                     /\ forall a, (a0 <= a < a0 + S k)%nat ->
                          attempt_fails env url timeout a
                   end) as Hnext.
    { intros le tr1 new1 Hnew1 -> Hfail.
      destruct (IH (S a0) (S n0) le (tr0 ++ new1)) as (new & Htr & Hev & Hres).
      exists (new1 ++ new). split; [by rewrite Htr, app_assoc|]. split.
      - intros e [He|He]%in_app_or.
        + destruct (Hnew1 e He) as (a & -> & ->). exists a0. split; [done|lia].
        + destruct (Hev e He) as (a & -> & Ha). exists a. split; [done|lia].
      - destruct (render_loop env url timeout k (S a0) (S n0) le (tr0 ++ new1)).1
          as [r|[n le']].
        + destruct Hres as (Hsrc & a & Ha & Hl & Hg & Hat). split; [done|].
          exists a. repeat split; try done; lia.
        + destruct Hres as (-> & Hall). split; [lia|]. intros a Ha.
          destruct (decide (a = a0)) as [->|Hne]; [done|]. apply Hall. lia. }
    destruct (launch env a0) as [e|] eqn:Hlaunch.
    + apply (Hnext _ tr0 []); [intros ? []|by rewrite app_nil_r|].
      left. by rewrite Hlaunch.
    + destruct (goto env url a0 (timeout * 2 ^ Z.of_nat a0 * 1000)%Z)
        as [txt|te|e] eqn:Hgoto.
      * exists [Goto a0 (timeout * 2 ^ Z.of_nat a0 * 1000)%Z]. cbn [fst snd].
        split; [done|]. split.
        { intros e [<-|[]]. exists a0. split; [done|lia]. }
        split; [done|]. exists a0. cbn. repeat split; try done; lia.
      * apply (Hnext _ _ [Goto a0 (timeout * 2 ^ Z.of_nat a0 * 1000)%Z]);
          [intros ? [<-|[]]; by exists a0|done|].
        right. intros text. by rewrite Hgoto.
      * apply (Hnext _ _ [Goto a0 (timeout * 2 ^ Z.of_nat a0 * 1000)%Z]);
          [intros ? [<-|[]]; by exists a0|done|].
        right. intros text. by rewrite Hgoto.
Qed.

(** What the fallback does. *)
Lemma fallback_spec env (url : str) (timeout : Z) (n : nat) (last_err : option str) tr :
  (fallback env url timeout n last_err tr).2 = tr ++ [Get (Z.max (timeout * 2) 10)]
  /\ attempts (fallback env url timeout n last_err tr).1 = S n
  /\ match requests_get env url (Z.max (timeout * 2) 10) with
     | Returned txt =>
       source (fallback env url timeout n last_err tr).1 = u "requests"
       /\ text (fallback env url timeout n last_err tr).1 = txt
     | Raised _ => source (fallback env url timeout n last_err tr).1 = u "error"
     end.
Proof.
  unfold fallback. by destruct (requests_get env url (Z.max (timeout * 2) 10)).
Qed.


End FetchClaims.

(* ===================================================================== *)
(** * Further properties of the dispatch loop *)
(* ===================================================================== *)

(** Evaluates the counting functions on a literal trace, and nothing else. *)
Ltac trace_simpl :=
  cbn [app model_calls tool_invocations model_contexts invoked_names omap list_omap
       List.filter is_model_call is_tool_invoke length fst snd].

Section TurnFacts.
Context `{Runtime}.
Implicit Types (llm : callable World) (n2t : gmap str (Tool World)) (tr : list event).

Lemma model_contexts_app tr1 tr2 :
  model_contexts (tr1 ++ tr2) = model_contexts tr1 ++ model_contexts tr2.
Proof. apply omap_app. Qed.

Lemma invoked_names_app tr1 tr2 :
  invoked_names (tr1 ++ tr2) = invoked_names tr1 ++ invoked_names tr2.
Proof. apply omap_app. Qed.

Lemma grows_cons (a : str) (cs : list str) :
  Forall (prefix a) cs -> grows cs -> grows (a :: cs).
Proof.
  intros Ha Hcs i j x y Hij Hx Hy. destruct i as [|i], j as [|j]; cbn in *.
  - by simplify_eq.
  - simplify_eq. rewrite Forall_forall in Ha. apply Ha. by eapply list_elem_of_lookup_2.
  - lia.
  - apply (Hcs i j); [lia|done..].
Qed.

Lemma grows_snoc (z : str) (cs : list str) :
  Forall (fun c => c `prefix_of` z) cs -> grows cs -> grows (cs ++ [z]).
Proof.
  intros Hz Hcs i j x y Hij Hx Hy.
  destruct (decide (j < length cs)%nat) as [Hj|Hj].
  - rewrite lookup_app_l in Hx, Hy by lia. by apply (Hcs i j).
  - assert (y = z) as ->.
    { rewrite lookup_app_r in Hy by lia.
      destruct (j - length cs)%nat as [|k]; cbn in Hy; [by simplify_eq|].
      by destruct k. }
    destruct (decide (i < length cs)%nat) as [Hi|Hi].
    + rewrite lookup_app_l in Hx by lia. rewrite Forall_forall in Hz. apply Hz.
      by eapply list_elem_of_lookup_2.
    + rewrite lookup_app_r in Hx by lia.
      destruct (i - length cs)%nat as [|k]; cbn in Hx; [by simplify_eq|].
      by destruct k.
Qed.

(** What a run of the loop adds to the trace. *)
Lemma rounds_shape llm n2t n : forall context st ex wf trf,
  rounds llm n2t n context st = (ex, (wf, trf)) ->
  exists new,
    trf = st.2 ++ new
    /\ (model_calls new <= n)%nat
    /\ Forall (prefix context) (model_contexts new)
    /\ grows (model_contexts new)
    /\ Forall (fun t => exists k tool, n2t !! k = Some tool /\ name tool = t)
         (invoked_names new)
    /\ match ex with
       | Answer a =>
         (tool_invocations new + 1 <= model_calls new)%nat
         /\ exists pre c w0,
              new = pre ++ [ModelCall c]
              /\ (llm c w0 = (Returned a, wf)
                  \/ exists e, llm c w0 = (Raised e, wf)
                               /\ a = u "LLM 调用失败：" ++ e)
       | Exhausted context' =>
         (tool_invocations new <= model_calls new)%nat
         /\ model_calls new = n
         /\ context `prefix_of` context'
         /\ Forall (fun c => c `prefix_of` context') (model_contexts new)
       end.
Proof.
  assert (forall c : str, grows [c]) as Hone.
  { intros c i j a b Hij Hi Hj.
    pose proof (lookup_lt_Some _ _ _ Hi) as Hi'. pose proof (lookup_lt_Some _ _ _ Hj) as Hj'.
    cbn in Hi', Hj'. assert (i = 0%nat) as -> by lia. assert (j = 0%nat) as -> by lia.
    cbn in *. by simplify_eq. }
  induction n as [|n IH]; intros context st ex wf trf Hrun.
  - cbn in Hrun. unfold mret, M_ret in Hrun. destruct st as [w tr]. simplify_eq.
    exists []. trace_simpl. rewrite app_nil_r. repeat split; try done; try constructor.
  - rewrite rounds_S in Hrun. cbn zeta in Hrun.
    destruct (llm context st.1) as [[response|e] w1] eqn:Hllm; cbn [fst snd] in Hrun.
    2:{ simplify_eq. exists [ModelCall context]. trace_simpl.
        repeat split; try done; try lia; try (by repeat constructor).
        exists [], context, st.1. split; [done|]. right. by exists e. }
    destruct (_parse_tool_call response) as [[tool_name tool_args]|] eqn:Hparse.
    2:{ simplify_eq. exists [ModelCall context]. trace_simpl.
        repeat split; try done; try lia; try (by repeat constructor).
        exists [], context, st.1. split; [done|]. by left. }
    destruct (n2t !! tool_name) as [tool|] eqn:Hget.
    + apply IH in Hrun as (new & -> & Hm & Hpre & Hgrow & Hreg & Hexit).
      cbn [fst snd] in *.
      match type of Hpre with Forall (prefix ?c) _ => set (c' := c) in * end.
      assert (context `prefix_of` c') as Hcc by (by eexists).
      assert (Forall (prefix context) (model_contexts new)) as Hpre'.
      { eapply Forall_impl; [exact Hpre|]. intros c Hc. by etrans. }
      exists ([ModelCall context; ToolInvoke (name tool) tool_args] ++ new).
      rewrite <- !app_assoc. split; [done|].
      rewrite !model_calls_app, !tool_invocations_app, !model_contexts_app,
        !invoked_names_app. trace_simpl.
      split; [lia|]. split; [by constructor|]. split; [by apply grows_cons|].
      split; [constructor; [by exists tool_name, tool|done]|].
      destruct ex as [a|context'].
      * destruct Hexit as (Hti & pre & c & w0 & -> & Hlast). split; [lia|].
        exists ([ModelCall context; ToolInvoke (name tool) tool_args] ++ pre), c, w0.
        by rewrite <- !app_assoc.
      * destruct Hexit as (Hti & Hmc & Hp & Hall). split; [lia|]. split; [lia|].
        split; [by etrans|]. constructor; [by etrans|done].
    + apply IH in Hrun as (new & -> & Hm & Hpre & Hgrow & Hreg & Hexit).
      cbn [fst snd] in *.
      match type of Hpre with Forall (prefix ?c) _ => set (c' := c) in * end.
      assert (context `prefix_of` c') as Hcc by (by eexists).
      assert (Forall (prefix context) (model_contexts new)) as Hpre'.
      { eapply Forall_impl; [exact Hpre|]. intros c Hc. by etrans. }
      exists ([ModelCall context] ++ new).
      rewrite <- !app_assoc. split; [done|].
      rewrite !model_calls_app, !tool_invocations_app, !model_contexts_app,
        !invoked_names_app. trace_simpl.
      split; [lia|]. split; [by constructor|]. split; [by apply grows_cons|].
      split; [done|].
      destruct ex as [a|context'].
      * destruct Hexit as (Hti & pre & c & w0 & -> & Hlast). split; [lia|].
        exists ([ModelCall context] ++ pre), c, w0. by rewrite <- !app_assoc.
      * destruct Hexit as (Hti & Hmc & Hp & Hall). split; [lia|]. split; [lia|].
        split; [by etrans|]. constructor; [by etrans|done].
Qed.

(** The loop followed by the forced final call. *)
Lemma turn_shape llm n2t n context st answer wf trf :
  rounds_then_final llm n2t n context st = (answer, (wf, trf)) ->
  exists new,
    trf = st.2 ++ new
    /\ (model_calls new <= n + 1)%nat
    /\ (tool_invocations new <= n)%nat
    /\ (tool_invocations new + 1 <= model_calls new)%nat
    /\ Forall (prefix context) (model_contexts new)
    /\ grows (model_contexts new)
    /\ Forall (fun t => exists k tool, n2t !! k = Some tool /\ name tool = t)
         (invoked_names new)
    /\ exists pre c w0,
         new = pre ++ [ModelCall c]
         /\ (llm c w0 = (Returned answer, wf)
             \/ exists e, llm c w0 = (Raised e, wf)
                          /\ (answer = u "LLM 调用失败：" ++ e
                              \/ answer = u "LLM 调用失败（终结轮）：" ++ e)).
Proof.
  unfold rounds_then_final, mbind, M_bind. intros Hrun.
  destruct (rounds llm n2t n context st) as [ex [w1 tr1]] eqn:Hr.
  apply rounds_shape in Hr as (new & -> & Hm & Hpre & Hgrow & Hreg & Hexit).
  destruct ex as [a|context'].
  - unfold mret, M_ret in Hrun. simplify_eq.
    destruct Hexit as (Hti & pre & c & w0 & -> & Hlast).
    exists (pre ++ [ModelCall c]). repeat split; try done; try lia.
    exists pre, c, w0. split; [done|]. destruct Hlast as [?|(e & ? & ?)]; [by left|].
    right. exists e. split; [done|by left].
  - destruct Hexit as (Hti & Hmc & Hp & Hall).
    unfold call_model in Hrun. cbn [fst snd] in Hrun.
    destruct (llm (context' ++ limit_hint) w1) as [r w2] eqn:Hl.
    assert (trf = st.2 ++ new ++ [ModelCall (context' ++ limit_hint)]
            /\ wf = w2
            /\ (r = Returned answer
                \/ exists e, r = Raised e /\ answer = u "LLM 调用失败（终结轮）：" ++ e))
      as (-> & -> & Hans).
    { destruct r as [final|e]; unfold mret, M_ret in Hrun; simplify_eq;
        rewrite <- app_assoc; split; [done| |done|]; split; try done;
        [by left|right; by exists e]. }
    exists (new ++ [ModelCall (context' ++ limit_hint)]).
    rewrite !model_calls_app, !tool_invocations_app, !model_contexts_app,
      !invoked_names_app. trace_simpl. rewrite app_nil_r.
    split; [done|]. split; [lia|]. split; [lia|]. split; [lia|].
    assert (forall c, c `prefix_of` context' -> c `prefix_of` context' ++ limit_hint)
      as Hext by (intros c Hc; etrans; [exact Hc|by eexists]).
    split; [apply Forall_app; split; [done|]; constructor; [by apply Hext|done]|].
    split; [apply grows_snoc; [|done]; eapply Forall_impl; [exact Hall|]; apply Hext|].
    split; [done|].
    exists new, (context' ++ limit_hint), w1. split; [done|].
    destruct Hans as [->|(e & -> & ->)]; [by left|]. right. exists e. split; [done|by right].
Qed.

(** [run_with_tools] is the short-circuit, or the loop on the initial
    context. *)
Lemma run_with_tools_unfold llm (user_prompt : str) (tools : list (Tool World))
    (system_prompt : option str) (max_tool_calls : Z) (st : state) :
  run_with_tools llm user_prompt tools system_prompt max_tool_calls st
  = if _TIME_QUERY_RE_search user_prompt
    then (u "今年是 " ++ str_of_int (local_year st.1) ++ u " 年。", st)
    else rounds_then_final llm (registry tools) (Z.to_nat (max_tool_calls + 1))
           (initial_context (inject_persona_to_system system_prompt st.1) user_prompt) st.
Proof.
  unfold run_with_tools, _answer_time_shortcircuit.
  by destruct (_TIME_QUERY_RE_search user_prompt).
Qed.

(** The registry after one more tool. *)
Lemma registry_snoc (tools : list (Tool World)) (t : Tool World) :
  registry (tools ++ [t]) = <[name t := t]> (registry tools).
Proof. unfold registry. by rewrite foldl_snoc. Qed.

Lemma registry_lookup_Some (tools : list (Tool World)) (k : str) (t : Tool World) :
  registry tools !! k = Some t -> In t tools /\ name t = k.
Proof.
  induction tools as [|t' tools IH] using rev_ind; [done|].
  rewrite registry_snoc. intros Hk.
  destruct (decide (name t' = k)) as [<-|Hne].
  - rewrite lookup_insert_eq in Hk. simplify_eq. split; [|done].
    apply in_or_app. right. by left.
  - rewrite lookup_insert_ne in Hk by done. destruct (IH Hk) as [Hin Hn].
    split; [|done]. apply in_or_app. by left.
Qed.

(** X1. Whatever the model function and the tools do, a turn with round
    limit [max_tool_calls] adds at most [max_tool_calls + 2] model calls and
    at most [max_tool_calls + 1] tool invocations to the trace (none at all
    when the limit is negative), and never more tool invocations than model
    calls. *)
Theorem turn_call_bounds llm (user_prompt : str) (tools : list (Tool World))
    (system_prompt : option str) (max_tool_calls : Z) (st : state) :
  exists new,
    (run_with_tools llm user_prompt tools system_prompt max_tool_calls st).2.2
      = st.2 ++ new
    /\ (model_calls new <= Z.to_nat (max_tool_calls + 1) + 1)%nat
    /\ (tool_invocations new <= Z.to_nat (max_tool_calls + 1))%nat
    /\ (tool_invocations new <= model_calls new)%nat.
Proof.
  rewrite run_with_tools_unfold. destruct (_TIME_QUERY_RE_search user_prompt).
  - exists []. trace_simpl. rewrite app_nil_r. repeat split; try done; lia.
  - match goal with |- context [rounds_then_final ?l ?r ?n ?c ?s] =>
      destruct (rounds_then_final l r n c s) as [answer [wf trf]] eqn:Hrun end.
    apply turn_shape in Hrun as (new & -> & Hm & Ht & Htm & _).
    exists new. cbn [fst snd]. repeat split; try done; lia.
Qed.

(** X2. The context only grows during a turn: every context shown to the
    model starts with the initial context, and each one is a prefix of all
    the later ones. *)
Theorem turn_contexts_grow llm (user_prompt : str) (tools : list (Tool World))
    (system_prompt : option str) (max_tool_calls : Z) (st : state) :
  exists new,
    (run_with_tools llm user_prompt tools system_prompt max_tool_calls st).2.2
      = st.2 ++ new
    /\ Forall (prefix (initial_context (inject_persona_to_system system_prompt st.1)
                         user_prompt))
         (model_contexts new)
    /\ grows (model_contexts new).
Proof.
  rewrite run_with_tools_unfold. destruct (_TIME_QUERY_RE_search user_prompt).
  - exists []. trace_simpl. rewrite app_nil_r. repeat split; try done.
  - match goal with |- context [rounds_then_final ?l ?r ?n ?c ?s] =>
      destruct (rounds_then_final l r n c s) as [answer [wf trf]] eqn:Hrun end.
    apply turn_shape in Hrun as (new & -> & _ & _ & _ & Hpre & Hgrow & _).
    by exists new.
Qed.

(** X3. A turn that is no time query ends with a model call, and its answer
    is what that call returned, unchanged, or, when that call raised [e], one
    of the two failure messages followed by [e]; the world is left as that
    call left it. *)
Theorem turn_ends_with_model_call llm (user_prompt : str) (tools : list (Tool World))
    (system_prompt : option str) (max_tool_calls : Z) (st : state) :
  _TIME_QUERY_RE_search user_prompt = false ->
  exists answer wf pre c w0,
    run_with_tools llm user_prompt tools system_prompt max_tool_calls st
      = (answer, (wf, st.2 ++ pre ++ [ModelCall c]))
    /\ (llm c w0 = (Returned answer, wf)
        \/ exists e, llm c w0 = (Raised e, wf)
                     /\ (answer = u "LLM 调用失败：" ++ e
                         \/ answer = u "LLM 调用失败（终结轮）：" ++ e)).
Proof.
  intros Hq. rewrite run_with_tools_unfold, Hq.
  match goal with |- context [rounds_then_final ?l ?r ?n ?c ?s] =>
    destruct (rounds_then_final l r n c s) as [answer [wf trf]] eqn:Hrun end.
  apply turn_shape in Hrun
    as (new & -> & _ & _ & _ & _ & _ & _ & pre & c & w0 & -> & Hlast).
  by exists answer, wf, pre, c, w0.
Qed.

(** X4. Only registered tools run: every tool invocation of a turn carries
    the name of a tool of the list given to [run_with_tools]. *)
Theorem only_registered_tools_invoked llm (user_prompt : str)
    (tools : list (Tool World)) (system_prompt : option str) (max_tool_calls : Z)
    (st : state) :
  exists new,
    (run_with_tools llm user_prompt tools system_prompt max_tool_calls st).2.2
      = st.2 ++ new
    /\ Forall (fun t => exists tool, In tool tools /\ name tool = t) (invoked_names new).
Proof.
  rewrite run_with_tools_unfold. destruct (_TIME_QUERY_RE_search user_prompt).
  - exists []. trace_simpl. by rewrite app_nil_r.
  - match goal with |- context [rounds_then_final ?l ?r ?n ?c ?s] =>
      destruct (rounds_then_final l r n c s) as [answer [wf trf]] eqn:Hrun end.
    apply turn_shape in Hrun as (new & -> & _ & _ & _ & _ & _ & Hreg & _).
    exists new. split; [done|]. eapply Forall_impl; [exact Hreg|].
    intros t (k & tool & Hk & <-). apply registry_lookup_Some in Hk as [Hin _].
    by exists tool.
Qed.

(** X5. In the registry a later tool replaces an earlier one of the same
    name: the tool found under a name is the last one of the list with that
    name, and a name no tool of the list has is not found. *)
Theorem registry_last_wins (earlier later : list (Tool World)) (t : Tool World) (k : str) :
  (forall t', In t' later -> name t' <> name t) ->
  registry (earlier ++ t :: later) !! name t = Some t
  /\ ((forall t', In t' (earlier ++ t :: later) -> name t' <> k)
      -> registry (earlier ++ t :: later) !! k = None).
Proof.
  intros Hlater. split.
  - induction later as [|t' later IH] using rev_ind.
    + change (earlier ++ [t]) with (earlier ++ [t]). rewrite registry_snoc.
      apply lookup_insert_eq.
    + rewrite app_comm_cons, app_assoc, registry_snoc, lookup_insert_ne.
      * apply IH. intros t'' Hin. apply Hlater, in_or_app. by left.
      * apply Hlater, in_or_app. right. by left.
  - generalize (earlier ++ t :: later). intros tools Hall.
    destruct (registry tools !! k) as [t'|] eqn:Hk; [|done].
    apply registry_lookup_Some in Hk as [Hin Hn]. by destruct (Hall t' Hin).
Qed.

(** X6. A tool that raises does not end the turn: the text
    [工具执行异常：] followed by the exception goes into the observation in
    place of a result, and the loop goes on with one round less. *)
Theorem tool_exception_becomes_observation llm n2t (n : nat) (context : str)
    (w : World) tr (response : str) (w1 : World) (tool_name tool_args : str)
    (tool : Tool World) (e : str) (w2 : World) :
  llm context w = (Returned response, w1) ->
  _parse_tool_call response = Some (tool_name, tool_args) ->
  n2t !! tool_name = Some tool ->
  func tool tool_args w1 = (Raised e, w2) ->
  rounds llm n2t (S n) context (w, tr)
    = rounds llm n2t n
        (context ++ (nl ++ nl ++ strip response ++ nl
                     ++ observation tool_name tool_args (u "工具执行异常：" ++ e)
                          (PrimFloat.sub (time_time w2) (time_time w1)))
                 ++ continue_hint)
        (w2, tr ++ [ModelCall context; ToolInvoke (name tool) tool_args])
  /\ contains (u "工具执行异常：" ++ e)
       (context ++ (nl ++ nl ++ strip response ++ nl
                    ++ observation tool_name tool_args (u "工具执行异常：" ++ e)
                         (PrimFloat.sub (time_time w2) (time_time w1)))
                ++ continue_hint) = true.
Proof.
  intros Hllm Hparse Hget Hfunc. split.
  - rewrite rounds_S. cbn [fst snd]. rewrite Hllm. cbn [fst snd].
    rewrite Hparse, Hget. cbn zeta. rewrite Hfunc. cbn [fst snd].
    by rewrite <- (app_assoc tr).
  - unfold observation.
    generalize (u "工具执行异常：" ++ e). intros x. find_infix.
Qed.

(** X7. With a negative round limit the loop body never runs: a turn that is
    no time query makes the forced final call at once, on the initial context
    followed by the limit hint, and invokes no tool. *)
Theorem negative_limit_single_call llm (user_prompt : str) (tools : list (Tool World))
    (system_prompt : option str) (max_tool_calls : Z) (st : state) :
  (max_tool_calls < 0)%Z ->
  _TIME_QUERY_RE_search user_prompt = false ->
  exists answer wf,
    run_with_tools llm user_prompt tools system_prompt max_tool_calls st
      = (answer,
         (wf, st.2 ++ [ModelCall (initial_context
                                    (inject_persona_to_system system_prompt st.1)
                                    user_prompt ++ limit_hint)])).
Proof.
  intros HN Hq. rewrite run_with_tools_unfold, Hq.
  replace (Z.to_nat (max_tool_calls + 1)) with 0%nat by lia.
  unfold rounds_then_final, mbind, M_bind. cbn [rounds]. unfold mret, M_ret, call_model.
  match goal with |- context [llm ?c ?w] => destruct (llm c w) as [[final|e] w1] end;
    by do 2 eexists.
Qed.

End TurnFacts.

Ltac bool_to_prop H :=
  rewrite ?orb_true_iff, ?andb_true_iff, ?orb_false_iff, ?andb_false_iff,
    ?N.leb_le, ?N.leb_gt, ?N.eqb_eq, ?N.eqb_neq in H.

Section ParseFacts.
Context `{Runtime}.

(** *** Facts about the character classes *)

(** Turns boolean comparisons on [N] in [H] into propositions. *)
Lemma ascii_fold_cases (c : N) :
  (65 <= c <= 90 /\ ascii_fold c = c + 32)
  \/ ((c = 0x130 \/ c = 0x131) /\ ascii_fold c = 105)
  \/ (c = 0x17F /\ ascii_fold c = 115)
  \/ (c = 0x212A /\ ascii_fold c = 107)
  \/ (~ (65 <= c <= 90) /\ c <> 0x130 /\ c <> 0x131 /\ c <> 0x17F /\ c <> 0x212A
      /\ ascii_fold c = c).
Proof.
  unfold ascii_fold.
  destruct ((65 <=? c) && (c <=? 90)) eqn:E1; bool_to_prop E1; [left; split; [lia|done]|].
  destruct ((c =? 0x130) || (c =? 0x131)) eqn:E2; bool_to_prop E2;
    [right; left; split; [lia|done]|].
  destruct (c =? 0x17F) eqn:E3; bool_to_prop E3; [right; right; left; split; [lia|done]|].
  destruct (c =? 0x212A) eqn:E4; bool_to_prop E4;
    [right; right; right; left; split; [lia|done]|].
  right; right; right; right. repeat split; try lia.
Qed.

Lemma is_name_char_cases (c : N) :
  is_name_char c = true ->
  65 <= c <= 90 \/ 97 <= c <= 122 \/ 48 <= c <= 57 \/ c = 95
  \/ c = 0x130 \/ c = 0x131 \/ c = 0x17F \/ c = 0x212A.
Proof.
  unfold is_name_char, is_digit. intros Hc. bool_to_prop Hc.
  destruct (ascii_fold_cases c) as [[? E]|[[? E]|[[? E]|[[? E]|(? & ? & ? & ? & ? & E)]]]];
    rewrite E in Hc; lia.
Qed.

Lemma is_name_char_props (c : N) :
  is_name_char c = true ->
  isspace c = false /\ is_linebreak c = false /\ c <> 123 /\ c <> 58.
Proof.
  intros Hc%is_name_char_cases. repeat split.
  - apply not_true_is_false. unfold isspace. intros Hs. bool_to_prop Hs. lia.
  - apply not_true_is_false. unfold is_linebreak. intros Hs. bool_to_prop Hs. lia.
  - lia.
  - lia.
Qed.

Lemma ci_eq_refl (c : N) : ci_eq c c = true.
Proof. apply N.eqb_refl. Qed.

Lemma ci_prefix_refl (p r : str) : ci_prefix p (p ++ r) = Some r.
Proof. induction p as [|a p IH]; cbn; [done|]. by rewrite ci_eq_refl. Qed.

Lemma ci_eq_colon (c : N) : ci_eq 58 c = true -> c = 58.
Proof.
  unfold ci_eq. change (ascii_fold 58) with 58. intros Hc%N.eqb_eq.
  destruct (ascii_fold_cases c) as [[? E]|[[? E]|[[? E]|[[? E]|(? & ? & ? & ? & ? & E)]]]];
    rewrite E in Hc; lia.
Qed.

(** *** Facts about [drop_while], [take_while] and [strip] *)

Lemma drop_while_In (f : N -> bool) (s : str) (c : N) :
  In c (drop_while f s) -> In c s.
Proof.
  induction s as [|x s IH]; cbn; [done|]. destruct (f x); [|done]. intros Hc. right. auto.
Qed.

Lemma drop_while_length (f : N -> bool) (s : str) :
  (length (drop_while f s) <= length s)%nat.
Proof. induction s as [|x s IH]; cbn; [done|]. destruct (f x); cbn; lia. Qed.

Lemma drop_while_same_length (f : N -> bool) (s : str) :
  length (drop_while f s) = length s -> drop_while f s = s.
Proof.
  destruct s as [|x s]; cbn; [done|]. destruct (f x); [|done].
  pose proof (drop_while_length f s). lia.
Qed.

Lemma drop_while_none (f : N -> bool) (s : str) :
  forallb (fun c => negb (f c)) s = true -> drop_while f s = s.
Proof. destruct s as [|x s]; cbn; [done|]. by destruct (f x). Qed.

Lemma drop_while_all (f : N -> bool) (s : str) :
  forallb f s = true -> drop_while f s = [].
Proof.
  induction s as [|x s IH]; cbn; [done|]. destruct (f x); [|done]. apply IH.
Qed.

Lemma take_while_all (f : N -> bool) (s : str) :
  forallb f s = true -> take_while f s = s.
Proof.
  induction s as [|x s IH]; cbn; [done|]. destruct (f x); [|done].
  intros Hs. by rewrite IH.
Qed.

Lemma take_while_app_stop (f : N -> bool) (a b : str) :
  forallb f a = true -> take_while f b = [] -> take_while f (a ++ b) = a.
Proof.
  intros Ha Hb. induction a as [|x a IH]; cbn in *; [done|].
  destruct (f x); [|done]. by rewrite IH.
Qed.

Lemma drop_while_app_stop (f : N -> bool) (a b : str) :
  forallb f a = true -> take_while f b = [] -> drop_while f (a ++ b) = b.
Proof.
  intros Ha Hb. rewrite (drop_while_app_all _ _ _ Ha).
  destruct b as [|y b]; cbn in *; [done|]. by destruct (f y).
Qed.

Lemma drop_while_keeps_front (f : N -> bool) (a b : str) :
  a <> [] -> drop_while f a = a -> drop_while f (a ++ b) = a ++ b.
Proof.
  destruct a as [|x a]; [done|]. cbn. intros _ Ha. destruct (f x); [|done].
  pose proof (drop_while_length f a) as Hl. rewrite Ha in Hl. cbn in Hl. lia.
Qed.

Lemma strip_In (s : str) (c : N) : In c (strip s) -> In c s.
Proof.
  unfold strip, rstrip, lstrip. intros Hc%in_rev%drop_while_In%in_rev.
  by apply drop_while_In in Hc.
Qed.

(** A string that [strip] leaves alone is left alone at both ends. *)
Lemma strip_fixed (s : str) :
  strip s = s -> drop_while isspace s = s /\ drop_while isspace (rev s) = rev s.
Proof.
  unfold strip, rstrip, lstrip. intros Hs.
  assert (length (drop_while isspace s) = length s) as Hl.
  { apply (f_equal length) in Hs. rewrite length_rev in Hs.
    pose proof (drop_while_length isspace (rev (drop_while isspace s))) as H1.
    rewrite length_rev in H1. pose proof (drop_while_length isspace s). lia. }
  apply drop_while_same_length in Hl. rewrite Hl in Hs. split; [done|].
  apply (f_equal (@rev N)) in Hs. by rewrite rev_involutive in Hs.
Qed.

Lemma strip_no_space (s : str) :
  forallb (fun c => negb (isspace c)) s = true -> strip s = s.
Proof.
  intros Hs. unfold strip, rstrip, lstrip. rewrite (drop_while_none _ _ Hs).
  rewrite drop_while_none; [apply rev_involutive|].
  rewrite forallb_forall in *. intros c Hc%in_rev. by apply Hs.
Qed.

Lemma rstrip_app_keep (y a : str) :
  a <> [] -> drop_while isspace (rev a) = rev a -> rstrip (y ++ a) = y ++ a.
Proof.
  intros Ha Hr. unfold rstrip. rewrite rev_app_distr.
  rewrite drop_while_keeps_front; [by rewrite <- rev_app_distr, rev_involutive| |done].
  intros E. apply (f_equal length) in E. rewrite length_rev in E.
  by destruct a.
Qed.

Lemma rstrip_app_space (y : str) : rstrip (y ++ [32]) = rstrip y.
Proof. unfold rstrip. by rewrite rev_app_distr. Qed.

(** *** Facts about [splitlines] *)

Lemma split_acc_no_break (cur s : str) :
  forallb (fun c => negb (is_linebreak c)) s = true ->
  split_acc cur s = match rev cur ++ s with [] => [] | l => [l] end.
Proof.
  revert cur. induction s as [|c s IH]; intros cur Hs; cbn in *.
  - rewrite app_nil_r. destruct cur as [|x cur]; [done|].
    destruct (rev (x :: cur)) eqn:E; [|done].
    apply (f_equal length) in E. rewrite length_rev in E. done.
  - apply andb_true_iff in Hs as [Hc Hs]. apply negb_true_iff in Hc. rewrite Hc.
    rewrite IH by done. cbn [rev]. by rewrite <- app_assoc.
Qed.

Lemma split_acc_In (cur s l : str) (c : N) :
  In l (split_acc cur s) -> In c l -> In c cur \/ In c s.
Proof.
  revert cur. induction s as [|x s IH]; intros cur Hl Hc; cbn in Hl.
  - destruct cur as [|y cur]; [done|]. destruct Hl as [<-|[]]. left. by apply in_rev.
  - destruct (is_linebreak x).
    + assert (In l (rev cur :: split_acc [] s) \/
              (exists s', s = 10 :: s' /\ In l (rev cur :: split_acc [] s'))) as Hcases.
      { destruct s as [|c' s']; [left; cbn; tauto|].
        destruct ((x =? 13) && (c' =? 10)) eqn:E; [|by left].
        right. apply andb_true_iff in E as [_ ->%N.eqb_eq]. by exists s'. }
      destruct Hcases as [[<-|Hl']|(s' & -> & [<-|Hl'])].
      * left. by apply in_rev.
      * destruct (IH [] Hl' Hc) as [[]|?]. right. by right.
      * left. by apply in_rev.
      * assert (In l (split_acc [] (10 :: s'))) as Hl''.
        { cbn. destruct s'; cbn in *; tauto. }
        destruct (IH [] Hl'' Hc) as [[]|?]. right. by right.
    + destruct (IH (x :: cur) Hl Hc) as [[<-|?]|?]; auto.
      * right. by left.
      * right. by right.
Qed.

(** *** The patterns need their characters *)

Lemma ci_prefix_suffix (p s r : str) :
  ci_prefix p s = Some r -> exists k, s = k ++ r /\ length k = length p.
Proof.
  revert s. induction p as [|a p IH]; intros s Hs; cbn in Hs.
  - simplify_eq. by exists [].
  - destruct s as [|b s]; [done|]. destruct (ci_eq a b) eqn:E; [|done].
    destruct (IH _ Hs) as (k & -> & Hk). exists (b :: k). split; [done|]. cbn. lia.
Qed.

Lemma ci_prefix_lookup (p s r : str) (i : nat) (a : N) :
  ci_prefix p s = Some r -> p !! i = Some a ->
  exists b, s !! i = Some b /\ ci_eq a b = true.
Proof.
  revert s i. induction p as [|x p IH]; intros s i Hs Hi; [done|].
  destruct s as [|y s]; [done|]. cbn in Hs. destruct (ci_eq x y) eqn:E; [|done].
  destruct i as [|i]; cbn in Hi.
  - simplify_eq. by exists y.
  - by apply (IH s i).
Qed.

(** A keyword that ends with a colon is matched only where a colon is. *)
Lemma ci_prefix_colon (p s r : str) (i : nat) :
  ci_prefix p s = Some r -> p !! i = Some 58 -> In 58 s.
Proof.
  intros Hs Hi. destruct (ci_prefix_lookup p s r i 58 Hs Hi) as (b & Hb & Hc).
  apply ci_eq_colon in Hc as ->. apply list_elem_of_In. by eapply list_elem_of_lookup_2.
Qed.

Lemma _TOOL_CALL_JSON_RE_match_at_needs (s g : str) :
  _TOOL_CALL_JSON_RE_match_at s = Some g -> In 123 s /\ In 58 s.
Proof.
  unfold _TOOL_CALL_JSON_RE_match_at. intros Hm.
  destruct (ci_prefix (u "CALL_TOOL_JSON:") s) as [r|] eqn:Hp; [|done]. cbn in Hm.
  pose proof (ci_prefix_colon _ _ _ 14%nat Hp eq_refl) as Hcolon.
  apply ci_prefix_suffix in Hp as (k & -> & Hk). split; [|done].
  - destruct (drop_while isspace r) as [|c body] eqn:Hd; [done|].
    assert (c = 123) as ->.
    { destruct (N.eqb_spec c 123) as [->|Hne]; [done|].
      destruct c as [|c]; [done|]. do 8 (destruct c as [c|c|]; try done). }
    apply in_or_app. right. apply (drop_while_In isspace). rewrite Hd. by left.
Qed.

Lemma _TOOL_CALL_JSON_RE_search_needs (text g : str) :
  _TOOL_CALL_JSON_RE_search text = Some g -> In 123 text /\ In 58 text.
Proof.
  induction text as [|c text IH]; rewrite _TOOL_CALL_JSON_RE_search_unfold.
  - assert (_TOOL_CALL_JSON_RE_match_at [] = None) as -> by (vm_compute; reflexivity).
    done.
  - destruct (_TOOL_CALL_JSON_RE_match_at (c :: text)) as [g'|] eqn:Hm.
    + intros _. by apply _TOOL_CALL_JSON_RE_match_at_needs in Hm.
    + intros Hs. destruct (IH Hs). split; by right.
Qed.

Lemma _TOOL_CALL_RE_match_needs (line : str) r :
  _TOOL_CALL_RE_match line = Some r -> In 58 line.
Proof.
  unfold _TOOL_CALL_RE_match. intros Hm.
  destruct (ci_prefix (u "CALL_TOOL:") line) as [rest|] eqn:Hp; [|done].
  by apply (ci_prefix_colon _ _ _ 9%nat Hp).
Qed.

Lemma parse_line_form_cons (l : str) (rest : list str) :
  parse_line_form (l :: rest)
  = if bool_decide (strip l = []) then parse_line_form rest
    else match _TOOL_CALL_RE_match (strip l) with
         | Some (g1, g2) => Some (strip g1, strip (default [] g2))
         | None => parse_line_form rest
         end.
Proof. reflexivity. Qed.

Lemma parse_line_form_needs (lines : list str) r :
  parse_line_form lines = Some r -> exists l, In l lines /\ In 58 l.
Proof.
  induction lines as [|l lines IH]; [done|]. rewrite parse_line_form_cons.
  destruct (bool_decide (strip l = [])).
  - intros Hr. destruct (IH Hr) as (l' & ? & ?). exists l'. split; [by right|done].
  - destruct (_TOOL_CALL_RE_match (strip l)) as [[g1 g2]|] eqn:Hm.
    + intros _. exists l. split; [by left|].
      apply strip_In. by apply _TOOL_CALL_RE_match_needs in Hm.
    + intros Hr. destruct (IH Hr) as (l' & ? & ?). exists l'. split; [by right|done].
Qed.

(** X9. A response without a colon holds no directive: [_parse_tool_call]
    gives [None], so the loop returns such a response as the final answer. *)
Theorem parse_tool_call_needs_colon (text : str) :
  ~ In 58 text -> _parse_tool_call text = None.
Proof.
  intros Hno. unfold _parse_tool_call. destruct (bool_decide (text = [])); [done|].
  assert (parse_json_form text = None) as ->.
  { unfold parse_json_form.
    destruct (_TOOL_CALL_JSON_RE_search text) as [g|] eqn:Hs; [|done].
    apply _TOOL_CALL_JSON_RE_search_needs in Hs as [_ Hc]. by destruct Hno. }
  destruct (parse_line_form (splitlines text)) as [r|] eqn:Hl; [|done].
  apply parse_line_form_needs in Hl as (l & Hin & Hc).
  destruct (split_acc_In [] text l 58 Hin Hc) as [[]|?]. by destruct Hno.
Qed.

(** X8. Writing a directive in the line form and parsing it gives the name
    and the argument back: for a non-empty name of letters, digits and
    underscores, and an argument without line break or opening brace that
    neither starts nor ends with white space. *)
Theorem line_directive_roundtrip (tool_name tool_args : str) :
  tool_name <> [] ->
  forallb is_name_char tool_name = true ->
  forallb (fun c => negb (is_linebreak c)) tool_args = true ->
  ~ In 123 tool_args ->
  strip tool_args = tool_args ->
  _parse_tool_call (line_directive_of tool_name tool_args) = Some (tool_name, tool_args).
Proof.
  intros Hne Hname Hbreak Hbrace Hstrip.
  destruct (strip_fixed _ Hstrip) as [Hl Hr].
  assert (forall c, In c tool_name -> is_name_char c = true) as Hnc
    by (by apply forallb_forall).
  assert (forallb (fun c => negb (isspace c)) tool_name = true) as Hnsp.
  { apply forallb_forall. intros c Hc. by destruct (is_name_char_props c (Hnc c Hc)) as (-> & _). }
  assert (forallb (fun c => negb (is_linebreak c)) tool_name = true) as Hnlb.
  { apply forallb_forall. intros c Hc.
    by destruct (is_name_char_props c (Hnc c Hc)) as (_ & -> & _). }
  (* the line that the loop over [splitlines] sees *)
  set (tail := match tool_args with [] => [] | _ => u " " ++ tool_args end).
  assert (take_while is_name_char tail = []) as Htail_name.
  { subst tail. by destruct tool_args. }
  assert (splitlines (line_directive_of tool_name tool_args)
          = [line_directive_of tool_name tool_args]) as Hsplit.
  { unfold splitlines. rewrite split_acc_no_break.
    - cbn [rev app]. unfold line_directive_of. by destruct tool_name.
    - unfold line_directive_of. rewrite !forallb_app, Hnlb, Hbreak. by vm_compute. }
  assert (drop_while isspace (rev tool_name) = rev tool_name) as Hrname.
  { apply drop_while_none. rewrite forallb_forall in *. intros c Hc%in_rev. by apply Hnsp. }
  assert (strip (line_directive_of tool_name tool_args)
          = u "CALL_TOOL:" ++ u " " ++ tool_name ++ tail) as Hline.
  { unfold strip, line_directive_of.
    assert (forall x, lstrip (u "CALL_TOOL: " ++ x) = u "CALL_TOOL: " ++ x) as ->
      by reflexivity.
    subst tail. destruct tool_args as [|a args].
    - rewrite app_nil_r, !app_assoc. change (u " ") with [32].
      rewrite rstrip_app_space, rstrip_app_keep by done. rewrite app_nil_r. reflexivity.
    - rewrite !app_assoc. rewrite rstrip_app_keep by done. rewrite <- !app_assoc.
      reflexivity. }
  assert (_TOOL_CALL_RE_match (u "CALL_TOOL:" ++ u " " ++ tool_name ++ tail)
          = Some (tool_name, match tool_args with [] => None | _ => Some tool_args end))
    as Hmatch.
  { unfold _TOOL_CALL_RE_match. rewrite ci_prefix_refl. cbn [mbind option_bind].
    change (drop_while isspace (u " " ++ tool_name ++ tail))
      with (drop_while isspace (tool_name ++ tail)).
    rewrite (drop_while_keeps_front _ tool_name tail Hne (drop_while_none _ _ Hnsp)).
    rewrite (take_while_app_stop _ _ _ Hname Htail_name).
    rewrite (drop_while_app_stop _ _ _ Hname Htail_name).
    destruct tool_name as [|n0 name']; [done|].
    subst tail. destruct tool_args as [|a args]; [done|].
    change (take_while isspace (u " " ++ a :: args))
      with (32 :: take_while isspace (a :: args)).
    rewrite bool_decide_eq_false_2 by done. cbn [negb andb].
    change (drop_while isspace (u " " ++ a :: args)) with (drop_while isspace (a :: args)).
    rewrite Hl.
    assert (forallb not_newline (a :: args) = true) as Hnn.
    { apply forallb_forall. intros c Hc. rewrite forallb_forall in Hbreak.
      specialize (Hbreak c Hc). unfold not_newline.
      destruct (N.eqb_spec c 10) as [->|]; [done|done]. }
    by rewrite (drop_while_all _ _ Hnn), (take_while_all _ _ Hnn). }
  unfold _parse_tool_call. rewrite bool_decide_eq_false_2 by done.
  assert (parse_json_form (line_directive_of tool_name tool_args) = None) as ->.
  { unfold parse_json_form.
    destruct (_TOOL_CALL_JSON_RE_search _) as [g|] eqn:Hs; [|done].
    apply _TOOL_CALL_JSON_RE_search_needs in Hs as [Hb _]. exfalso.
    unfold line_directive_of in Hb.
    apply in_app_or in Hb as [Hb|Hb]; [vm_compute in Hb; intuition discriminate|].
    apply in_app_or in Hb as [Hb|Hb];
      [by destruct (is_name_char_props 123 (Hnc _ Hb)) as (_ & _ & ? & _)|].
    apply in_app_or in Hb as [Hb|Hb]; [vm_compute in Hb; intuition discriminate|done]. }
  rewrite Hsplit, parse_line_form_cons, Hline.
  rewrite bool_decide_eq_false_2 by done. rewrite Hmatch.
  rewrite (strip_no_space _ Hnsp).
  assert (default [] (match tool_args with [] => None | _ => Some tool_args end)
          = tool_args) as -> by (by destruct tool_args).
  by rewrite Hstrip.
Qed.

End ParseFacts.

(* ===================================================================== *)
(** * Further properties of the page fetcher *)
(* ===================================================================== *)

Section FetchFacts.
Import Fetch FetchTool.
Implicit Types (env : environment) (tr : list event).

(** The loop's result in full: what it adds to the trace, and the fields of
    the dict or the last error. *)
Lemma render_loop_outcome env (url : str) (timeout : Z) (k : nat) :
  forall (a0 n0 : nat) (last_err : option str) tr0,
  exists gotos,
    (render_loop env url timeout k a0 n0 last_err tr0).2 = tr0 ++ gotos
    /\ forallb is_goto gotos = true
    /\ (length gotos <= k)%nat
    /\ match (render_loop env url timeout k a0 n0 last_err tr0).1 with
       | inl r => error r = None /\ source r = u "playwright"
       | inr (n, le) =>
         le = match k with
              | O => last_err
              | S k' => failure_label env url timeout (a0 + k')
              end
         /\ (forall a, (a0 <= a < a0 + k)%nat -> failure_label env url timeout a <> None)
       end.
Proof.
  induction k as [|k IH]; intros a0 n0 last_err tr0.
  - exists []. cbn [render_loop fst snd forallb length]. rewrite app_nil_r.
    repeat split; try done. intros a Ha. lia.
  - cbn [render_loop].
    assert (forall le new1,
              forallb is_goto new1 = true -> (length new1 <= 1)%nat ->
              failure_label env url timeout a0 = Some le ->
              exists gotos,
                (render_loop env url timeout k (S a0) (S n0) (Some le) (tr0 ++ new1)).2
                  = tr0 ++ gotos
                /\ forallb is_goto gotos = true
                /\ (length gotos <= S k)%nat
                /\ match (render_loop env url timeout k (S a0) (S n0) (Some le)
                            (tr0 ++ new1)).1 with
                   | inl r => error r = None /\ source r = u "playwright"
                   | inr (n, le') =>
                     le' = failure_label env url timeout (a0 + k)
                     /\ (forall a, (a0 <= a < a0 + S k)%nat ->
                           failure_label env url timeout a <> None)
                   end) as Hnext.
    { intros le new1 Hg Hlen Hfail.
      destruct (IH (S a0) (S n0) (Some le) (tr0 ++ new1)) as (gotos & Htr & Hgs & Hl & Hres).
      exists (new1 ++ gotos). split; [by rewrite Htr, app_assoc|].
      split; [by rewrite forallb_app, Hg, Hgs|]. split; [rewrite length_app; lia|].
      destruct (render_loop env url timeout k (S a0) (S n0) (Some le) (tr0 ++ new1)).1
        as [r|[n le']]; [done|].
      destruct Hres as [-> Hall]. split.
      - destruct k as [|k']; [by rewrite Nat.add_0_r|]. f_equal. lia.
      - intros a Ha. destruct (decide (a = a0)) as [->|Hne]; [by rewrite Hfail|].
        apply Hall. lia. }
    unfold failure_label in Hnext at 1.
    destruct (launch env a0) as [e|] eqn:Hlaunch.
    + specialize (Hnext _ [] eq_refl ltac:(cbn [length]; lia) eq_refl).
      by rewrite app_nil_r in Hnext.
    + destruct (goto env url a0 (timeout * 2 ^ Z.of_nat a0 * 1000)%Z)
        as [txt|te|e] eqn:Hgoto.
      * exists [Goto a0 (timeout * 2 ^ Z.of_nat a0 * 1000)%Z]. cbn [fst snd].
        repeat split; try done. cbn [length]. lia.
      * apply (Hnext _ [Goto a0 (timeout * 2 ^ Z.of_nat a0 * 1000)%Z]); [done|cbn [length]; lia|done].
      * apply (Hnext _ [Goto a0 (timeout * 2 ^ Z.of_nat a0 * 1000)%Z]); [done|cbn [length]; lia|done].
Qed.

Lemma fallback_fields env (url : str) (timeout : Z) (n : nat) (last_err : option str) tr :
  error (fallback env url timeout n last_err tr).1 <> None
  /\ source (fallback env url timeout n last_err tr).1 <> u "playwright"
  /\ match requests_get env url (Z.max (timeout * 2) 10) with
     | Returned txt =>
       error (fallback env url timeout n last_err tr).1
       = Some (u "playwright_failed: " ++ str_of_last_err last_err)
     | Raised e =>
       text (fallback env url timeout n last_err tr).1 = []
       /\ error (fallback env url timeout n last_err tr).1
          = Some (u "playwright_failed: " ++ str_of_last_err last_err
                    ++ u "; requests_failed: " ++ e)
     end.
Proof.
  unfold fallback.
  destruct (requests_get env url (Z.max (timeout * 2) 10));
    cbn [fst snd error source text];
    (split; [discriminate|]); (split; [intros E; vm_compute in E; discriminate|]);
    by repeat split.
Qed.

(** The run of [fetch_rendered_page] in one of its three shapes. *)
Lemma fetch_rendered_page_cases env (url : str) (timeout max_retries : Z) :
  (exists e, import_playwright env = Some e
     /\ fetch_rendered_page env url timeout max_retries
        = fallback env url timeout 0
            (Some (u "playwright import/launch error: " ++ e)) [])
  \/ (exists r gotos, import_playwright env = None
        /\ fetch_rendered_page env url timeout max_retries = (r, gotos)
        /\ forallb is_goto gotos = true
        /\ (length gotos <= Z.to_nat (max_retries + 1))%nat
        /\ error r = None /\ source r = u "playwright")
  \/ (exists n gotos, import_playwright env = None
        /\ fetch_rendered_page env url timeout max_retries
           = fallback env url timeout n
               (match Z.to_nat (max_retries + 1) with
                | O => None
                | S k' => failure_label env url timeout k'
                end) gotos
        /\ forallb is_goto gotos = true
        /\ (length gotos <= Z.to_nat (max_retries + 1))%nat).
Proof.
  unfold fetch_rendered_page. destruct (import_playwright env) as [e|].
  - left. by exists e.
  - right.
    destruct (render_loop_outcome env url timeout (Z.to_nat (max_retries + 1)) 0 0 None [])
      as (gotos & Htr & Hg & Hl & Hres).
    destruct (render_loop env url timeout (Z.to_nat (max_retries + 1)) 0 0 None [])
      as [[r|[n le]] tr]; cbn [fst snd] in *; subst tr.
    + left. exists r, gotos. by destruct Hres.
    + right. exists n, gotos. destruct Hres as [-> _]. split; [done|]. split; [|done].
      by destruct (Z.to_nat (max_retries + 1)).
Qed.

(** X10. The fields of the returned dict fit together: [error] is [None]
    exactly when the source is [playwright]; with source [error] the text is
    empty and the error names both failures, ending with the exception of the
    GET; with source [requests] the error starts with [playwright_failed: ]. *)
Theorem fetch_result_fields env (url : str) (timeout max_retries : Z) :
  (error (fetch_rendered_page env url timeout max_retries).1 = None
   <-> source (fetch_rendered_page env url timeout max_retries).1 = u "playwright")
  /\ (source (fetch_rendered_page env url timeout max_retries).1 = u "error" ->
      text (fetch_rendered_page env url timeout max_retries).1 = []
      /\ exists le e,
           requests_get env url (Z.max (timeout * 2) 10) = Raised e
           /\ error (fetch_rendered_page env url timeout max_retries).1
              = Some (u "playwright_failed: " ++ le ++ u "; requests_failed: " ++ e))
  /\ (source (fetch_rendered_page env url timeout max_retries).1 = u "requests" ->
      exists le,
        error (fetch_rendered_page env url timeout max_retries).1
        = Some (u "playwright_failed: " ++ le)).
Proof.
  assert (forall n le tr,
    let r := (fallback env url timeout n le tr).1 in
    (error r = None <-> source r = u "playwright")
    /\ (source r = u "error" ->
        text r = []
        /\ exists le' e, requests_get env url (Z.max (timeout * 2) 10) = Raised e
             /\ error r = Some (u "playwright_failed: " ++ le' ++ u "; requests_failed: " ++ e))
    /\ (source r = u "requests" ->
        exists le', error r = Some (u "playwright_failed: " ++ le'))) as Hfb.
  { intros n le tr r. subst r.
    destruct (fallback_fields env url timeout n le tr) as (He & Hs & Hreq).
    pose proof (fallback_spec env url timeout n le tr) as (_ & _ & Hsrc).
    split; [split; intros ?; by exfalso|].
    destruct (requests_get env url (Z.max (timeout * 2) 10)) as [txt|e].
    - destruct Hsrc as [Hsrc _]. split.
      + intros Herr. rewrite Hsrc in Herr. vm_compute in Herr. discriminate.
      + intros _. by eexists.
    - destruct Hreq as [Ht Herr]. split.
      + intros _. split; [done|]. by exists (str_of_last_err le), e.
      + intros Hrq. rewrite Hsrc in Hrq. vm_compute in Hrq. discriminate. }
  destruct (fetch_rendered_page_cases env url timeout max_retries)
    as [(e & _ & ->)|[(r & gotos & _ & -> & _ & _ & Herr & Hsrc)|(n & gotos & _ & -> & _)]].
  - apply Hfb.
  - cbn [fst snd]. rewrite Herr, Hsrc. split; [done|].
    split; intros Habs; vm_compute in Habs; discriminate.
  - apply Hfb.
Qed.

(** X11. What a fetch does, in order: rendering tries, at most
    [max_retries + 1] of them, and then, only when the source is not
    [playwright], exactly one GET, with timeout [max(timeout * 2, 10)], as the
    last event. *)
Theorem fetch_trace_shape env (url : str) (timeout max_retries : Z) :
  exists gotos,
    forallb is_goto gotos = true
    /\ (length gotos <= Z.to_nat (max_retries + 1))%nat
    /\ ((source (fetch_rendered_page env url timeout max_retries).1 = u "playwright"
         /\ (fetch_rendered_page env url timeout max_retries).2 = gotos)
        \/ (source (fetch_rendered_page env url timeout max_retries).1 <> u "playwright"
            /\ (fetch_rendered_page env url timeout max_retries).2
               = gotos ++ [Get (Z.max (timeout * 2) 10)])).
Proof.
  destruct (fetch_rendered_page_cases env url timeout max_retries)
    as [(e & _ & ->)|[(r & gotos & _ & -> & Hg & Hl & _ & Hsrc)|(n & gotos & _ & -> & Hg & Hl)]].
  - exists []. split; [done|]. split; [cbn [length]; lia|]. right.
    destruct (fallback_fields env url timeout 0
                (Some (u "playwright import/launch error: " ++ e)) []) as (_ & Hs & _).
    split; [done|]. apply fallback_spec.
  - exists gotos. split; [done|]. split; [done|]. by left.
  - exists gotos. split; [done|]. split; [done|]. right.
    destruct (fallback_fields env url timeout n
                (match Z.to_nat (max_retries + 1) with
                 | O => None
                 | S k' => failure_label env url timeout k'
                 end) gotos) as (_ & Hs & _).
    split; [done|]. apply fallback_spec.
Qed.


(** X13. With a negative [max_retries] no rendering is tried: the GET is the
    only event, [attempts] is 1, and the error reads
    [playwright_failed: None]. *)
Theorem fetch_negative_retries env (url : str) (timeout max_retries : Z) :
  import_playwright env = None ->
  (max_retries < 0)%Z ->
  (fetch_rendered_page env url timeout max_retries).2 = [Get (Z.max (timeout * 2) 10)]
  /\ attempts (fetch_rendered_page env url timeout max_retries).1 = 1%nat
  /\ exists rest,
       error (fetch_rendered_page env url timeout max_retries).1
       = Some (u "playwright_failed: None" ++ rest).
Proof.
  intros Himp HN. unfold fetch_rendered_page. rewrite Himp.
  replace (Z.to_nat (max_retries + 1)) with 0%nat by lia. cbn [render_loop].
  unfold fallback.
  destruct (requests_get env url (Z.max (timeout * 2) 10)) as [txt|e0]; cbn [fst snd].
  - split; [done|]. split; [done|]. exists []. cbn [error].
    vm_compute. reflexivity.
  - split; [done|]. split; [done|]. exists (u "; requests_failed: " ++ e0).
    cbn [error]. vm_compute. reflexivity.
Qed.


End FetchFacts.

(* ===================================================================== *)
(** * Further properties of the memory store *)
(* ===================================================================== *)

Section MemoryFacts.
Import Memory MemoryUtils.
Implicit Types (self : JsonMemoryFallback) (os : os_behaviour) (fs : files).

(** *** Slices *)

Lemma slice_to_In {A} (k : Z) (l : list A) (x : A) : In x (slice_to k l) -> In x l.
Proof.
  unfold slice_to. destruct (0 <=? k)%Z; intros Hx%list_elem_of_In;
    apply list_elem_of_In; by eapply subseteq_take.
Qed.

Lemma slice_to_length {A} (k : Z) (l : list A) :
  (length (slice_to k l) <= length l)%nat
  /\ ((0 <= k)%Z -> (length (slice_to k l) <= Z.to_nat k)%nat).
Proof. unfold slice_to. destruct (Z.leb_spec 0 k); rewrite length_take; lia. Qed.

Lemma slice_to_all {A} (k : Z) (l : list A) :
  (Z.of_nat (length l) <= k)%Z -> slice_to k l = l.
Proof.
  intros Hk. unfold slice_to. destruct (Z.leb_spec 0 k); [|lia]. apply take_ge. lia.
Qed.

Lemma newest_length {A} (k : nat) (l : list A) : length (newest k l) = min k (length l).
Proof. unfold newest. rewrite length_drop. lia. Qed.

Lemma newest_all {A} (k : nat) (l : list A) : (length l <= k)%nat -> newest k l = l.
Proof. intros Hk. unfold newest. by replace (length l - k)%nat with 0%nat by lia. Qed.

Lemma newest_snoc {A} (k : nat) (l : list A) (x : A) :
  (1 <= k)%nat -> newest k (newest k l ++ [x]) = newest k (l ++ [x]).
Proof.
  intros Hk. unfold newest. rewrite !length_app, length_drop. cbn [length].
  destruct (decide (length l < k)%nat) as [Hlt|Hge].
  - replace (length l - k)%nat with 0%nat by lia. cbn [drop]. f_equal. lia.
  - rewrite (drop_app_le l [x]) by lia.
    rewrite drop_app_le by (rewrite length_drop; lia).
    rewrite drop_drop. do 2 f_equal. lia.
Qed.

(** *** [search] *)

Section SearchFacts.
Variable lower : str -> str.
Variable str_of_value : json -> str.

(** X15. What [search] returns: every hit is the dict of a record stored at
    some index of both lists, with score 1.0, and that record matches the
    query; there are never more hits than records, and for [k >= 0] never
    more than [k]. *)
Theorem search_hits_are_stored_records self (query : str) (k : Z) :
  (forall h, In h (search lower str_of_value self query k) ->
     exists i t m,
       texts self !! i = Some t /\ metadatas self !! i = Some m
       /\ h = JObject [(u "text", t); (u "meta", m); (u "score", JFloat 1%float)]
       /\ is_hit lower str_of_value (lower query) t m = true)
  /\ (length (search lower str_of_value self query k)
      <= min (length (texts self)) (length (metadatas self)))%nat
  /\ ((0 <= k)%Z -> (length (search lower str_of_value self query k) <= Z.to_nat k)%nat).
Proof.
  unfold search. split; [|split].
  - intros h Hh%slice_to_In. apply in_map_iff in Hh as ([t m] & <- & Hin).
    apply filter_In in Hin as [Hin Hhit]. cbn [fst snd] in *.
    apply list_elem_of_In, elem_of_lookup_zip_with in Hin
      as (i & t' & m' & [= -> ->] & Ht & Hm).
    by exists i, t', m'.
  - match goal with |- (length (slice_to k ?L) <= _)%nat =>
      pose proof (proj1 (slice_to_length k L)) as H1;
      assert (length L <= min (length (texts self)) (length (metadatas self)))%nat;
        [|lia] end.
    rewrite List.length_map.
    etrans; [apply filter_length_le|]. by rewrite length_zip.
  - apply slice_to_length.
Qed.

(** X16. With [k] at least the number of records, [search] misses nothing:
    a record whose text is a string that contains the query, both in lower
    case, is among the hits. *)
Theorem search_finds_matching_text self (query : str) (k : Z) (i : nat) (s : str)
    (m : json) (a b : str) :
  (Z.of_nat (length (texts self)) <= k)%Z ->
  texts self !! i = Some (JString s) ->
  metadatas self !! i = Some m ->
  lower s = a ++ lower query ++ b ->
  In (hit (JString s) m) (search lower str_of_value self query k).
Proof.
  intros Hk Ht Hm Hs. unfold search. rewrite slice_to_all.
  - apply in_map_iff. exists (JString s, m). split; [done|]. apply filter_In. split.
    + apply list_elem_of_In, elem_of_lookup_zip_with. by exists i, (JString s), m.
    + cbn [fst snd is_hit]. rewrite Hs, contains_app. done.
  - rewrite List.length_map.
    pose proof (filter_length_le (fun tm : json * json =>
                  is_hit lower str_of_value (lower query) tm.1 tm.2)
                  (zip (texts self) (metadatas self))) as Hf.
    rewrite length_zip in Hf. lia.
Qed.

End SearchFacts.

(** *** [add] repeated, and [trim_memory_if_needed] *)

Lemma add_window self (text : str) (meta : option json) (now : float) :
  length (texts self) = length (metadatas self) ->
  (Z.of_nat (length (texts self)) <= max_items self)%Z ->
  (1 <= max_items self)%Z ->
  texts (add self text meta now).2
    = newest (Z.to_nat (max_items self)) (texts self ++ [JString text])
  /\ metadatas (add self text meta now).2
     = newest (Z.to_nat (max_items self)) (metadatas self ++ [meta_or_default meta now])
  /\ max_items (add self text meta now).2 = max_items self
  /\ path (add self text meta now).2 = path self.
Proof.
  intros Hlen Hle Hmax. unfold add, evict.
  destruct (Z.leb_spec (max_items self) (Z.of_nat (length (texts self)))) as [Hfull|Hroom].
  - assert (Z.to_nat (max_items self) = length (texts self)) as Hn by lia.
    destruct self as [p [|t0 ts] [|m0 ms] mi]; cbn [texts metadatas max_items path
      fst snd length] in *; try discriminate; try lia.
    unfold newest. rewrite Hn, !length_app. cbn [length].
    replace (S (length ts) + 1 - S (length ts))%nat with 1%nat by lia.
    replace (S (length ms) + 1 - S (length ts))%nat with 1%nat by lia.
    done.
  - cbn [fst snd texts metadatas max_items path].
    rewrite !newest_all by (rewrite length_app; cbn [length]; lia). done.
Qed.

(** X17. The store is a sliding window: starting from a store within its
    limit, with lists of equal length and a limit of at least 1, adding any
    number of records leaves exactly the newest [max_items] of all records,
    old and new, in their order, and the two lists stay of equal length. *)
Theorem add_keeps_newest_records self (records : list (str * option json * float)) :
  length (texts self) = length (metadatas self) ->
  (Z.of_nat (length (texts self)) <= max_items self)%Z ->
  (1 <= max_items self)%Z ->
  texts (fold_left add_record records self)
    = newest (Z.to_nat (max_items self))
        (texts self ++ map (fun r => JString r.1.1) records)
  /\ metadatas (fold_left add_record records self)
     = newest (Z.to_nat (max_items self))
         (metadatas self ++ map (fun r => meta_or_default r.1.2 r.2) records)
  /\ length (texts (fold_left add_record records self))
     = length (metadatas (fold_left add_record records self))
  /\ (Z.of_nat (length (texts (fold_left add_record records self))) <= max_items self)%Z.
Proof.
  intros Hlen Hle Hmax.
  induction records as [|[[text meta] now] records IH] using rev_ind.
  - cbn [fold_left map]. rewrite !app_nil_r, !newest_all by lia. done.
  - rewrite fold_left_app. cbn [fold_left].
    destruct IH as (Ht & Hm & Hl & Hb).
    set (s1 := fold_left add_record records self) in *.
    unfold add_record. cbn [fst snd].
    assert (max_items s1 = max_items self) as Hmi.
    { subst s1. clear. revert self. induction records as [|r records IH]; intros self;
        [done|]. cbn [fold_left]. rewrite IH. unfold add_record, add, evict.
      destruct (max_items self <=? Z.of_nat (length (texts self)))%Z; [|done].
      by destruct (texts self), (metadatas self). }
    destruct (add_window s1 text meta now Hl ltac:(lia) ltac:(lia)) as (Ht' & Hm' & _ & _).
    rewrite Ht', Hm', Hmi, Ht, Hm, !map_app. cbn [map fst snd].
    assert (1 <= Z.to_nat (max_items self))%nat as Hk by lia.
    rewrite !app_assoc, !(newest_snoc _ _ _ Hk).
    split; [done|]. split; [done|]. rewrite !newest_length, !length_app, !List.length_map.
    cbn [length]. split; lia.
Qed.

Lemma trim_loop_spec (MAX : Z) (fuel : nat) : forall (ts ms : list json),
  length ts = length ms -> (length ts < fuel)%nat ->
  trim_loop fuel MAX ts ms = (newest (Z.to_nat MAX) ts, newest (Z.to_nat MAX) ms).
Proof.
  induction fuel as [|fuel IH]; intros ts ms Hlen Hfuel; [lia|]. cbn [trim_loop].
  destruct (Z.ltb_spec MAX (Z.of_nat (length ts))) as [Hover|Hok].
  - destruct ts as [|t ts], ms as [|m ms]; cbn [length] in *; try discriminate.
    + by rewrite !newest_all by (cbn; lia).
    + rewrite IH by lia. unfold newest. cbn [length].
      replace (S (length ts) - Z.to_nat MAX)%nat with (S (length ts - Z.to_nat MAX)) by lia.
      replace (S (length ms) - Z.to_nat MAX)%nat with (S (length ms - Z.to_nat MAX)) by lia.
      done.
  - by rewrite !newest_all by lia.
Qed.

Lemma trim_spec (MAX : Z) self :
  length (texts self) = length (metadatas self) ->
  trim_memory_if_needed MAX (Some self)
    = Some {| path := path self;
              texts := newest (Z.to_nat MAX) (texts self);
              metadatas := newest (Z.to_nat MAX) (metadatas self);
              max_items := max_items self |}.
Proof.
  intros Hlen. unfold trim_memory_if_needed. by rewrite trim_loop_spec by (done || lia).
Qed.

(** X18. [trim_memory_if_needed] on a store whose lists have equal length
    keeps exactly the newest [MAX_MEMORY_ITEMS] records (none for a limit
    below 1) and leaves the lists of equal length; a store within the limit is
    not changed. *)
Theorem trim_keeps_newest (MAX : Z) self :
  length (texts self) = length (metadatas self) ->
  trim_memory_if_needed MAX (Some self)
    = Some {| path := path self;
              texts := newest (Z.to_nat MAX) (texts self);
              metadatas := newest (Z.to_nat MAX) (metadatas self);
              max_items := max_items self |}
  /\ ((Z.of_nat (length (texts self)) <= MAX)%Z ->
      trim_memory_if_needed MAX (Some self) = Some self).
Proof.
  intros Hlen. rewrite trim_spec by done.
  split; [done|]. intros Hle. rewrite !newest_all by lia. by destruct self.
Qed.

(** X19. After an [add] on a store within its limit, [trim_memory_if_needed]
    with the same limit has nothing to do. *)
Theorem add_then_trim self (text : str) (meta : option json) (now : float) :
  length (texts self) = length (metadatas self) ->
  (Z.of_nat (length (texts self)) <= max_items self)%Z ->
  (1 <= max_items self)%Z ->
  trim_memory_if_needed (max_items self) (Some (add self text meta now).2)
    = Some (add self text meta now).2.
Proof.
  intros Hlen Hle Hmax.
  destruct (add_window self text meta now Hlen Hle Hmax) as (Ht & Hm & Hmi & Hp).
  rewrite trim_spec
    by (rewrite Ht, Hm, !newest_length, !length_app; cbn [length]; lia).
  rewrite !newest_all
    by (rewrite ?Ht, ?Hm, newest_length, length_app; cbn [length]; lia).
  by destruct (add self text meta now).2.
Qed.

(** *** [persist] and the other files *)

Section PersistFacts.
Variable dirname : str -> str.
Variable json_dumps : json -> str.

Lemma last_writing fs (tmppath doc : str) (n : nat) :
  default (<[tmppath := []]> fs) (last (<[tmppath := []]> fs :: writing fs tmppath doc n))
  = <[tmppath := take n doc]> fs.
Proof.
  destruct n as [|n]; [done|]. unfold writing.
  rewrite seq_S, map_app. cbn [map]. by rewrite app_comm_cons, last_snoc.
Qed.

(** The file system after [persist], step by step. *)
Lemma after_persist_cases self os fs :
  after_persist dirname json_dumps self os fs
  = if negb (bool_decide (dirname (path self) = [])) && makedirs_fails os then fs
    else match mkstemp_result os with
         | None => fs
         | Some tmppath =>
           match write_stops_after os with
           | Some k =>
             <[tmppath := take (min k (length (json_dumps (document self))))
                            (json_dumps (document self))]> fs
           | None =>
             if replace_fails os
             then <[tmppath := json_dumps (document self)]> fs
             else os_replace tmppath (path self)
                    (<[tmppath := json_dumps (document self)]> fs)
           end
         end.
Proof.
  unfold after_persist, persist, persist_try.
  destruct (negb (bool_decide (dirname (path self) = [])) && makedirs_fails os); [done|].
  destruct (mkstemp_result os) as [tmppath|]; [|done].
  destruct (write_stops_after os) as [k|]; cbn [fst snd].
  - pose proof (last_writing fs tmppath (json_dumps (document self))
                  (min k (length (json_dumps (document self))))) as Hl.
    destruct (last (<[tmppath := []]> fs :: writing fs tmppath _ _)) eqn:E; [done|].
    by rewrite last_cons in E; destruct (last (writing fs tmppath _ _)).
  - destruct (replace_fails os); cbn [fst snd].
    + by rewrite app_comm_cons, last_snoc.
    + change ([<[tmppath := json_dumps (document self)]> fs;
               os_replace tmppath (path self) (<[tmppath := json_dumps (document self)]> fs)])
        with ([<[tmppath := json_dumps (document self)]> fs]
                ++ [os_replace tmppath (path self)
                      (<[tmppath := json_dumps (document self)]> fs)]).
      by rewrite app_assoc, app_comm_cons, last_snoc.
Qed.

Lemma persist_result self os fs :
  (persist dirname json_dumps self os fs).2
  = Returned (negb (negb (bool_decide (dirname (path self) = [])) && makedirs_fails os)
              && bool_decide (is_Some (mkstemp_result os))
              && bool_decide (write_stops_after os = None)
              && negb (replace_fails os)).
Proof.
  unfold persist, persist_try.
  destruct (negb (bool_decide (dirname (path self) = [])) && makedirs_fails os); [done|].
  destruct (mkstemp_result os) as [tmppath|]; [|done].
  destruct (write_stops_after os) as [k|]; [done|].
  by destruct (replace_fails os).
Qed.

(** X20. [persist] changes no file but the store's and its temporary one.
    After [True] the temporary name is gone.  After a write that stopped, the
    temporary file is left behind with what had been written: [persist] does
    not remove it. *)
Theorem persist_changes_only_its_files self os fs :
  mkstemp_fresh self os fs ->
  (forall p, p <> path self -> mkstemp_result os <> Some p ->
     after_persist dirname json_dumps self os fs !! p = fs !! p)
  /\ ((persist dirname json_dumps self os fs).2 = Returned true ->
      forall tmppath, mkstemp_result os = Some tmppath ->
        after_persist dirname json_dumps self os fs !! tmppath = None)
  /\ (forall tmppath k,
        mkstemp_result os = Some tmppath ->
        write_stops_after os = Some k ->
        (dirname (path self) = [] \/ makedirs_fails os = false) ->
        after_persist dirname json_dumps self os fs !! tmppath
        = Some (take k (json_dumps (document self)))).
Proof.
  intros Hfresh. rewrite after_persist_cases, persist_result. split; [|split].
  - intros p Hp Htmp.
    destruct (negb (bool_decide (dirname (path self) = [])) && makedirs_fails os); [done|].
    destruct (mkstemp_result os) as [tmppath|]; [|done].
    assert (tmppath <> p) as Hne by congruence.
    destruct (write_stops_after os) as [k|]; [by rewrite lookup_insert_ne|].
    destruct (replace_fails os); [by rewrite lookup_insert_ne|].
    unfold os_replace. rewrite lookup_insert_eq.
    by rewrite lookup_insert_ne, lookup_delete_ne, lookup_insert_ne.
  - intros Hok tmppath Htmp. rewrite Htmp in *.
    destruct (Hfresh tmppath Htmp) as [_ Hne].
    destruct (negb (bool_decide (dirname (path self) = [])) && makedirs_fails os);
      [done|].
    destruct (write_stops_after os) as [k|]; [done|].
    destruct (replace_fails os); [done|].
    unfold os_replace. rewrite lookup_insert_eq.
    by rewrite lookup_insert_ne, lookup_delete_eq.
  - intros tmppath k Htmp Hw Hdir. rewrite Htmp, Hw.
    assert (negb (bool_decide (dirname (path self) = [])) && makedirs_fails os = false)
      as ->.
    { destruct Hdir as [->| ->]; [by rewrite bool_decide_eq_true_2|apply andb_false_r]. }
    rewrite lookup_insert_eq. f_equal.
    destruct (decide (k <= length (json_dumps (document self)))%nat).
    + by rewrite Nat.min_l.
    + rewrite Nat.min_r by lia. by rewrite !take_ge by lia.
Qed.

Variable expanduser : str -> str.
Variable json_loads : str -> option json.

(** X21. A [persist] that returns [False] does not change what a later
    construction of the store on the same path loads. *)
Theorem failed_persist_keeps_load self os fs (path0 : str) (max_items0 : Z)
    (read_fails : bool) :
  mkstemp_fresh self os fs ->
  (persist dirname json_dumps self os fs).2 = Returned false ->
  expanduser path0 = path self ->
  __init__ expanduser json_loads path0 max_items0
    (after_persist dirname json_dumps self os fs) read_fails
  = __init__ expanduser json_loads path0 max_items0 fs read_fails.
Proof.
  intros Hfresh Hfail Hpath.
  assert (after_persist dirname json_dumps self os fs !! path self = fs !! path self)
    as Hsame.
  { revert Hfail. rewrite after_persist_cases, persist_result.
    destruct (negb (bool_decide (dirname (path self) = [])) && makedirs_fails os);
      [done|].
    destruct (mkstemp_result os) as [tmppath|] eqn:Htmp; [|done].
    destruct (Hfresh tmppath Htmp) as [_ Hne].
    destruct (write_stops_after os) as [k|]; [by rewrite lookup_insert_ne|].
    destruct (replace_fails os); [by rewrite lookup_insert_ne|].
    intros Hfail. exfalso. revert Hfail.
    rewrite (bool_decide_eq_true_2 (is_Some (Some tmppath))) by by eexists.
    rewrite (bool_decide_eq_true_2 (None = None)) by done. discriminate. }
  unfold __init__. by rewrite Hpath, Hsame.
Qed.

End PersistFacts.

End MemoryFacts.

(* ===================================================================== *)
(** * Further properties: summaries and the persona tools *)
(* ===================================================================== *)

Section SummaryFacts.
Import Memory MemoryUtils.

Lemma join_cons_length (sep p : str) (ps : list str) :
  (length (join sep (p :: ps)) <= length p + length sep + length (join sep ps))%nat.
Proof.
  destruct ps as [|q ps]; cbn [join length]; [lia|].
  rewrite !length_app. lia.
Qed.

Lemma split_ws_length (cur s : str) :
  (length (join [32%N] (split_ws cur s)) <= length cur + length s)%nat.
Proof.
  revert cur. induction s as [|c s IH]; intros cur; cbn [split_ws].
  - destruct cur as [|x cur]; cbn [join length]; [lia|].
    rewrite length_rev. cbn [length]. lia.
  - destruct (isspace c).
    + destruct cur as [|x cur].
      * specialize (IH []). cbn [length] in *. lia.
      * pose proof (join_cons_length [32] (rev (x :: cur)) (split_ws [] s)) as Hj.
        specialize (IH []). rewrite length_rev in Hj. cbn [length] in *. lia.
    + specialize (IH (c :: cur)). cbn [length] in *. lia.
Qed.

Lemma squeeze_length (s : str) : (length (squeeze s) <= length s)%nat.
Proof. unfold squeeze. pose proof (split_ws_length [] s). cbn [length] in *. lia. Qed.

Lemma split_ws_no_space (cur s : str) :
  Forall (fun c => isspace c = false) s ->
  split_ws cur s = match rev cur ++ s with [] => [] | l => [l] end.
Proof.
  revert cur. induction s as [|c s IH]; intros cur Hs; cbn [split_ws].
  - rewrite app_nil_r. destruct cur as [|x cur]; [done|].
    destruct (rev (x :: cur)) eqn:E; [|done].
    apply (f_equal length) in E. by rewrite length_rev in E.
  - apply Forall_cons in Hs as [-> Hs]. rewrite (IH (c :: cur) Hs).
    cbn [rev]. by rewrite <- app_assoc.
Qed.

Lemma squeeze_no_space (s : str) :
  Forall (fun c => isspace c = false) s -> squeeze s = s.
Proof.
  intros Hs. unfold squeeze. rewrite (split_ws_no_space [] s Hs). by destruct s.
Qed.

Lemma length_last_chars (k : nat) (s : str) :
  length (last_chars k s) = Nat.min k (length s).
Proof. unfold last_chars. rewrite length_drop. lia. Qed.

Lemma length_dots : length (u " ... ") = 5%nat.
Proof. reflexivity. Qed.

(** X22. The length of what [_maybe_summarize] returns: never over 3000
    characters, and never over 1000 when summarising is on.  For a text of at
    least [MIN_LENGTH_TO_SUMMARIZE] characters the result is the squeezed
    first 300 characters, [ ... ], and the squeezed last 200 characters, at
    most 505 characters in all: the final cut at 1200 never removes
    anything. *)
Theorem maybe_summarize_bounds cfg (text : str) :
  (length (_maybe_summarize cfg text) <= 3000)%nat
  /\ (AUTO_SAVE_SUMMARIZE cfg = true ->
      (length (_maybe_summarize cfg text) <= 1000)%nat)
  /\ (AUTO_SAVE_SUMMARIZE cfg = true -> text <> [] ->
      (MIN_LENGTH_TO_SUMMARIZE cfg <= Z.of_nat (length text))%Z ->
      _maybe_summarize cfg text
        = squeeze (take 300 text) ++ u " ... " ++ squeeze (last_chars 200 text)
      /\ (length (_maybe_summarize cfg text) <= 505)%nat).
Proof.
  assert (length (squeeze (take 300 text) ++ u " ... " ++ squeeze (last_chars 200 text))
          <= 505)%nat as Hsum.
  { rewrite !length_app, length_dots.
    pose proof (squeeze_length (take 300 text)) as H1.
    pose proof (squeeze_length (last_chars 200 text)) as H2.
    rewrite length_take in H1. rewrite length_last_chars in H2. lia. }
  unfold _maybe_summarize.
  destruct (bool_decide (text = [])) eqn:He.
  { apply bool_decide_eq_true in He. cbn [length].
    split; [lia|]. split; [lia|]. done. }
  destruct (AUTO_SAVE_SUMMARIZE cfg); cbn [negb].
  2:{ rewrite length_take. split; [lia|]. split; done. }
  destruct (Z.of_nat (length text) <? MIN_LENGTH_TO_SUMMARIZE cfg)%Z eqn:Hmin.
  { rewrite length_take. split; [lia|]. split; [lia|]. intros _ _ Hle. lia. }
  cbn zeta. rewrite take_ge by lia. split; [lia|]. split; [lia|]. done.
Qed.

(** X23. The summary of a text without white space, of at least
    [MIN_LENGTH_TO_SUMMARIZE] characters: its first 300 and its last 200
    characters around [ ... ], which overlap for a text under 500 characters;
    under 505 characters the summary is longer than the text. *)
Theorem summary_of_unbroken_text cfg (text : str) :
  AUTO_SAVE_SUMMARIZE cfg = true ->
  text <> [] ->
  (MIN_LENGTH_TO_SUMMARIZE cfg <= Z.of_nat (length text))%Z ->
  Forall (fun c => isspace c = false) text ->
  _maybe_summarize cfg text = take 300 text ++ u " ... " ++ last_chars 200 text
  /\ length (_maybe_summarize cfg text)
     = (Nat.min 300 (length text) + 5 + Nat.min 200 (length text))%nat
  /\ ((length text < 505)%nat -> (length text < length (_maybe_summarize cfg text))%nat).
Proof.
  intros Hon Hne Hmin Hns.
  assert (_maybe_summarize cfg text = take 300 text ++ u " ... " ++ last_chars 200 text)
    as ->.
  { unfold _maybe_summarize. rewrite bool_decide_eq_false_2 by done. rewrite Hon.
    cbn [negb]. replace (Z.of_nat (length text) <? MIN_LENGTH_TO_SUMMARIZE cfg)%Z
      with false by lia.
    cbn zeta. rewrite !squeeze_no_space
      by (by apply Forall_take || by apply Forall_drop).
    apply take_ge. rewrite !length_app, length_dots, length_take, length_last_chars. lia. }
  split; [done|].
  rewrite !length_app, length_dots, length_take, length_last_chars.
  split; lia.
Qed.

End SummaryFacts.

Section PersonaFacts.
Import Memory Tools.

Lemma split_acc_nonempty (cur s : str) :
  cur <> [] \/ s <> [] -> split_acc cur s <> [].
Proof.
  revert cur. induction s as [|c s IH]; intros cur Hne; cbn [split_acc].
  - destruct cur; [by destruct Hne|done].
  - destruct (is_linebreak c).
    + destruct s as [|c' s']; [done|]. by destruct ((c =? 13) && (c' =? 10)).
    + apply IH. by left.
Qed.

Lemma persona_name_of_returns (name text : str) :
  exists persona_name, persona_name_of name text = Returned persona_name.
Proof.
  unfold persona_name_of. destruct (bool_decide (name = [])); cbn [negb]; [|by eexists].
  destruct (bool_decide (text = [])) eqn:He; cbn [negb]; [by eexists|].
  apply bool_decide_eq_false in He.
  pose proof (split_acc_nonempty [] text (or_intror He)) as Hs. unfold splitlines.
  destruct (split_acc [] text); [done|by eexists].
Qed.

Section WithSystem.
Variable dirname : str -> str.
Variable json_dumps : json -> str.
Variable now : float.
Variable rid : json.
Variable os : os_behaviour.

(** X24. [save_persona] raises nothing, whatever the text and the name:
    the first line of the text is taken only from a text that has one.
    Without a long-term memory nothing is stored and no file is touched. *)
Theorem save_persona_never_raises (mem : option JsonMemoryFallback) (fs : files)
    (text name : str) :
  (exists r mem' fs',
     save_persona dirname json_dumps now rid os mem fs text name
     = (Returned r, mem', fs'))
  /\ (mem = None ->
      save_persona dirname json_dumps now rid os mem fs text name
      = (Returned (JObject [(u "error", JString (u "long_memory_unavailable"))]),
         None, fs)).
Proof.
  split.
  - unfold save_persona. destruct mem as [self|]; [|by do 3 eexists].
    destruct (persona_name_of_returns name text) as [pn ->].
    destruct (add self text _ now) as [idx self']. by do 3 eexists.
  - by intros ->.
Qed.

Lemma zip_snoc {A B} (l : list A) (k : list B) (x : A) (y : B) :
  length l = length k -> zip (l ++ [x]) (k ++ [y]) = zip l k ++ [(x, y)].
Proof.
  revert k. induction l as [|a l IH]; intros [|b k] Hlen; try done.
  cbn in *. f_equal. apply IH. lia.
Qed.

Lemma evict_parallel self :
  length (texts self) = length (metadatas self) ->
  length (texts (evict self)) = length (metadatas (evict self)).
Proof.
  destruct self as [p ts ms mx]. unfold evict. cbn [texts metadatas max_items path].
  intros Hlen. destruct (mx <=? Z.of_nat (length ts))%Z; [|done].
  destruct ts as [|t ts], ms as [|m ms]; cbn [texts metadatas length] in *; lia.
Qed.

(** X25. A persona saved into a store whose lists have equal length is the
    record at the returned index, with a [meta] of type [persona], and it is
    the last entry of what [list_personas_tool] returns afterwards; this holds
    also when persisting fails. *)
Theorem saved_persona_is_listed (self : JsonMemoryFallback) (fs : files)
    (text name : str) :
  length (texts self) = length (metadatas self) ->
  exists idx persisted persona_name self' fs',
    save_persona dirname json_dumps now rid os (Some self) fs text name
    = (Returned (JObject [(u "saved_index", JInt (Z.of_nat idx));
                          (u "persisted", JBool persisted);
                          (u "meta", persona_meta persona_name now rid)]),
       Some self', fs')
    /\ persona_name_of name text = Returned persona_name
    /\ texts self' !! idx = Some (JString text)
    /\ metadatas self' !! idx = Some (persona_meta persona_name now rid)
    /\ last (list_personas_tool (Some self'))
       = Some (JObject [(u "meta", persona_meta persona_name now rid);
                        (u "text", JString text)]).
Proof.
  intros Hlen. unfold save_persona.
  destruct (persona_name_of_returns name text) as [pn Hpn]. rewrite Hpn.
  pose proof (evict_parallel self Hlen) as Hev.
  unfold add. cbn [meta_or_default].
  change (truthy (persona_meta pn now rid)) with true. cbn match.
  set (self' := {| path := path (evict self);
                   texts := texts (evict self) ++ [JString text];
                   metadatas := metadatas (evict self) ++ [persona_meta pn now rid];
                   max_items := max_items (evict self) |}).
  eexists (length (texts (evict self))), _, pn, self', _.
  split; [reflexivity|]. split; [done|]. subst self'. cbn [texts metadatas].
  split; [|split].
  - by rewrite lookup_app_r, Nat.sub_diag by lia.
  - by rewrite Hev, lookup_app_r, Nat.sub_diag by lia.
  - unfold list_personas_tool. cbn [texts metadatas].
    rewrite zip_snoc by done. rewrite List.filter_app, map_app.
    cbn [List.filter snd fst]. change (is_persona (persona_meta pn now rid)) with true.
    cbn [map fst snd]. by rewrite last_snoc.
Qed.

End WithSystem.

Lemma split_acc_app_break (cur a b : str) :
  forallb (fun c => negb (is_linebreak c)) a = true ->
  split_acc cur (a ++ 10 :: b) = (rev cur ++ a) :: split_acc [] b.
Proof.
  revert cur. induction a as [|x a IH]; intros cur Ha.
  - rewrite app_nil_r. cbn [app split_acc].
    change (is_linebreak 10) with true. cbn match.
    destruct b as [|c' b']; [done|]. done.
  - cbn in Ha. apply andb_prop in Ha as [Hx Ha]. cbn [app split_acc].
    apply negb_true_iff in Hx. rewrite Hx. rewrite (IH (x :: cur) Ha).
    cbn [rev]. by rewrite <- app_assoc.
Qed.

Lemma persona_prefix_chars :
  u "persona_name:" = [112; 101; 114; 115; 111; 110; 97; 95; 110; 97; 109; 101; 58].
Proof. vm_compute. reflexivity. Qed.

(** X26. The prefixed form of [save_persona_tool]: for a text made of
    [persona_name:], a name without line break, a newline and a body, the name
    handed on is the name stripped (colons inside it are kept), and the body
    is the body's lines joined with newlines and stripped, or the name when
    that is empty. *)
Theorem persona_prefix_form (name body : str) :
  forallb (fun c => negb (is_linebreak c)) name = true ->
  persona_name_and_body (u "persona_name:" ++ name ++ nl ++ body)
  = (strip name, str_or (strip (join nl (splitlines body))) (strip name)).
Proof.
  intros Hname. unfold persona_name_and_body. rewrite starts_with_app.
  unfold splitlines, nl. rewrite app_assoc.
  change ([10] ++ body) with (10 :: body).
  rewrite split_acc_app_break.
  2:{ rewrite forallb_app, Hname, persona_prefix_chars. done. }
  cbn [rev app]. rewrite persona_prefix_chars. done.
Qed.

End PersonaFacts.

(* ===================================================================== *)
(** * Further properties: what is kept out of the memory *)
(* ===================================================================== *)

Section SensitiveFacts.
Import Memory MemoryUtils.

Lemma search_any_app (m : str -> bool) (a s : str) :
  m s = true -> search_any m (a ++ s) = true.
Proof.
  intros Hm. induction a as [|x a IH]; cbn [app].
  - destruct s; cbn [search_any]; by rewrite Hm.
  - cbn [search_any]. rewrite IH. apply orb_true_r.
Qed.

Lemma search_any_found (m : str -> bool) (s : str) :
  search_any m s = true -> exists a s', s = a ++ s' /\ m s' = true.
Proof.
  induction s as [|x s IH]; cbn [search_any]; intros Hs.
  - rewrite orb_false_r in Hs. by exists [], [].
  - apply orb_true_iff in Hs as [Hs|Hs]; [by exists [], (x :: s)|].
    destruct (IH Hs) as (a & s' & -> & Hm). by exists (x :: a), s'.
Qed.

Lemma ci_prefix_fold (p kw s : str) :
  map ascii_fold kw = map ascii_fold p -> ci_prefix p (kw ++ s) = Some s.
Proof.
  revert kw. induction p as [|a p IH]; intros [|b kw] Heq; try done.
  cbn [map] in Heq. injection Heq as Hab Hrest. cbn [app ci_prefix].
  unfold ci_eq. rewrite Hab, N.eqb_refl. by apply IH.
Qed.

Lemma take_while_app_length (p : N -> bool) (a b : str) :
  forallb p a = true -> (length a <= length (take_while p (a ++ b)))%nat.
Proof.
  induction a as [|x a IH]; cbn [app take_while forallb length]; [lia|].
  destruct (p x); [|done]. cbn [andb length]. intros Ha. specialize (IH Ha). lia.
Qed.

Lemma after_separator_app (ws1 ws2 rest : str) (sep : N) :
  forallb isspace ws1 = true -> forallb isspace ws2 = true ->
  sep = 58 \/ sep = 61 ->
  take_while isspace rest = [] ->
  after_separator (ws1 ++ [sep] ++ ws2 ++ rest) = Some rest.
Proof.
  intros H1 H2 Hsep Hrest. unfold after_separator.
  rewrite (drop_while_app_all _ _ _ H1). cbn [app drop_while].
  assert (isspace sep = false) as -> by (by destruct Hsep as [-> | ->]).
  assert ((sep =? 58) || (sep =? 61) = true) as -> by (by destruct Hsep as [-> | ->]).
  rewrite (drop_while_app_all _ _ _ H2).
  destruct rest as [|c rest]; [done|]. cbn [take_while drop_while] in *.
  by destruct (isspace c).
Qed.

Lemma is_key_char_no_space (c : N) : is_key_char c = true -> isspace c = false.
Proof.
  unfold is_key_char, is_letter, is_digit. intros Hc. bool_to_prop Hc.
  apply not_true_is_false. unfold isspace. intros Hs. bool_to_prop Hs.
  destruct (ascii_fold_cases c) as [[? E]|[[? E]|[[? E]|[[? E]|(? & ? & ? & ? & ? & E)]]]];
    rewrite E in Hc; lia.
Qed.

Lemma take_while_space_stop (p : N -> bool) (value after : str) :
  value <> [] ->
  forallb p value = true ->
  (forall c, p c = true -> isspace c = false) ->
  take_while isspace (value ++ after) = [].
Proof.
  destruct value as [|c value]; [done|]. intros _ Hv Hp. cbn [forallb] in Hv.
  apply andb_prop in Hv as [Hc _]. cbn [app take_while]. by rewrite (Hp c Hc).
Qed.

(** A keyword, a separator and a value of [n] or more characters of a class
    that has no white space. *)
Lemma assignment_matches (kw_pattern : str) (n : nat) (cls : N -> bool)
    (kw ws1 ws2 value after : str) (sep : N) :
  map ascii_fold kw = map ascii_fold kw_pattern ->
  forallb isspace ws1 = true -> forallb isspace ws2 = true ->
  sep = 58 \/ sep = 61 ->
  (1 <= n <= length value)%nat ->
  forallb cls value = true ->
  (forall c, cls c = true -> isspace c = false) ->
  match ci_prefix kw_pattern (kw ++ ws1 ++ [sep] ++ ws2 ++ value ++ after) with
  | Some r =>
    match after_separator r with
    | Some v => at_least n cls v
    | None => false
    end
  | None => false
  end = true.
Proof.
  intros Hkw H1 H2 Hsep Hn Hv Hcls. rewrite (ci_prefix_fold _ _ _ Hkw).
  rewrite after_separator_app; try done.
  - unfold at_least. apply Nat.leb_le.
    pose proof (take_while_app_length cls value after Hv). lia.
  - apply (take_while_space_stop cls); try done. intros ->. cbn in Hn. lia.
Qed.

(** X27. Assignments of secrets are found anywhere in a text and in any
    letter case: [password], then optional white space, a colon or an equals
    sign, optional white space, and 4 or more characters that are no white
    space; or [secret], [apikey], [api_key] or [api-key], the same separator,
    and 8 or more letters, digits, hyphens, dots or underscores. *)
Theorem assignments_are_sensitive (before kw ws1 ws2 value after : str) (sep : N) :
  forallb isspace ws1 = true -> forallb isspace ws2 = true ->
  sep = 58 \/ sep = 61 ->
  (map ascii_fold kw = u "password" /\ (4 <= length value)%nat
   /\ forallb (fun c => negb (isspace c)) value = true)
  \/ ((map ascii_fold kw = u "secret" \/ map ascii_fold kw = u "apikey"
       \/ map ascii_fold kw = u "api_key" \/ map ascii_fold kw = u "api-key")
      /\ (8 <= length value)%nat /\ forallb is_key_char value = true) ->
  _contains_sensitive (before ++ kw ++ ws1 ++ [sep] ++ ws2 ++ value ++ after) = true.
Proof.
  intros H1 H2 Hsep Hcases. unfold _contains_sensitive.
  rewrite bool_decide_eq_false_2.
  2:{ intros E. apply (f_equal length) in E. rewrite !length_app in E. cbn [length] in E.
      lia. }
  unfold _SENSITIVE_PATTERNS. cbn [existsb].
  destruct Hcases as [(Hkw & Hlen & Hval)|(Hkw & Hlen & Hval)].
  - assert (search_any password_at
              (before ++ kw ++ ws1 ++ [sep] ++ ws2 ++ value ++ after) = true) as ->.
    { apply search_any_app. unfold password_at.
      apply assignment_matches; try done; try lia.
      intros c Hc. by apply negb_true_iff. }
    by rewrite !orb_true_r.
  - destruct Hkw as [Hkw|Hkw].
    + assert (search_any secret_at
                (before ++ kw ++ ws1 ++ [sep] ++ ws2 ++ value ++ after) = true) as ->.
      { apply search_any_app. unfold secret_at.
        apply assignment_matches; try done; try lia.
        apply is_key_char_no_space. }
      by rewrite !orb_true_r.
    + assert (search_any api_key_at
                (before ++ kw ++ ws1 ++ [sep] ++ ws2 ++ value ++ after) = true) as ->; [|done].
      apply search_any_app. unfold api_key_at.
      assert (exists k1 k2,
                 kw = k1 ++ k2
                 /\ map ascii_fold k1 = map ascii_fold (u "api")
                 /\ (forall s,
                       match k2 ++ s with
                       | c :: r' => if (c =? 95) || (c =? 45) then r' else k2 ++ s
                       | [] => k2 ++ s
                       end = drop (length k2 - 3) k2 ++ s)
                 /\ map ascii_fold (drop (length k2 - 3) k2) = map ascii_fold (u "key"))
        as (k1 & k2 & -> & Hk1 & Hopt & Hk2).
      { destruct Hkw as [Hkw|[Hkw|Hkw]].
        - change (u "apikey") with [97; 112; 105; 107; 101; 121] in Hkw.
          destruct kw as [|a [|p [|i [|k [|e [|y [|? ?]]]]]]]; try discriminate Hkw.
          exists [a; p; i], [k; e; y].
          injection Hkw as Ha Hp Hi Hk He Hy. split; [done|].
          split; [cbn [map]; rewrite Ha, Hp, Hi; reflexivity|].
          split; [|cbn [map length Nat.sub drop]; rewrite Hk, He, Hy; reflexivity].
          intros s. cbn [app length Nat.sub drop].
          assert ((k =? 95) || (k =? 45) = false) as ->; [|done].
          apply orb_false_iff.
          split; apply N.eqb_neq; intros ->; vm_compute in Hk; discriminate Hk.
        - change (u "api_key") with [97; 112; 105; 95; 107; 101; 121] in Hkw.
          destruct kw as [|a [|p [|i [|o [|k [|e [|y [|? ?]]]]]]]]; try discriminate Hkw.
          exists [a; p; i], [o; k; e; y].
          injection Hkw as Ha Hp Hi Ho Hk He Hy. split; [done|].
          split; [cbn [map]; rewrite Ha, Hp, Hi; reflexivity|].
          split; [|cbn [map length Nat.sub drop]; rewrite Hk, He, Hy; reflexivity].
          intros s. cbn [app length Nat.sub drop].
          assert (o = 95) as ->; [|done].
          destruct (ascii_fold_cases o)
            as [[? E]|[[? E]|[[? E]|[[? E]|(? & ? & ? & ? & ? & E)]]]];
            rewrite E in Ho; lia.
        - change (u "api-key") with [97; 112; 105; 45; 107; 101; 121] in Hkw.
          destruct kw as [|a [|p [|i [|o [|k [|e [|y [|? ?]]]]]]]]; try discriminate Hkw.
          exists [a; p; i], [o; k; e; y].
          injection Hkw as Ha Hp Hi Ho Hk He Hy. split; [done|].
          split; [cbn [map]; rewrite Ha, Hp, Hi; reflexivity|].
          split; [|cbn [map length Nat.sub drop]; rewrite Hk, He, Hy; reflexivity].
          intros s. cbn [app length Nat.sub drop].
          assert (o = 45) as ->; [|done].
          destruct (ascii_fold_cases o)
            as [[? E]|[[? E]|[[? E]|[[? E]|(? & ? & ? & ? & ? & E)]]]];
            rewrite E in Ho; lia. }
      rewrite <- app_assoc. rewrite (ci_prefix_fold _ _ _ Hk1). cbn zeta.
      rewrite Hopt.
      apply assignment_matches; try done; try lia.
      apply is_key_char_no_space.
Qed.

Lemma ci_eq_hyphen (c : N) : ci_eq 45 c = true -> c = 45.
Proof.
  unfold ci_eq. change (ascii_fold 45) with 45. intros Hc%N.eqb_eq.
  destruct (ascii_fold_cases c) as [[? E]|[[? E]|[[? E]|[[? E]|(? & ? & ? & ? & ? & E)]]]];
    rewrite E in Hc; lia.
Qed.

Lemma after_separator_needs (r v : str) :
  after_separator r = Some v -> In 58 r \/ In 61 r.
Proof.
  unfold after_separator. intros Hr.
  destruct (drop_while isspace r) as [|c r'] eqn:E; [done|].
  destruct ((c =? 58) || (c =? 61)) eqn:Hc; [|done]. bool_to_prop Hc.
  assert (In c r) as Hin by (apply (drop_while_In isspace); rewrite E; by left).
  destruct Hc as [<-|<-]; [by left|by right].
Qed.

Lemma ci_prefix_In (p s r : str) (c : N) :
  ci_prefix p s = Some r -> In c r -> In c s.
Proof.
  intros Hp Hc. destruct (ci_prefix_suffix _ _ _ Hp) as (k & -> & _).
  apply in_or_app. by right.
Qed.

Lemma ci_prefix_hyphen (p s r : str) (i : nat) :
  ci_prefix p s = Some r -> p !! i = Some 45 -> In 45 s.
Proof.
  intros Hs Hi. destruct (ci_prefix_lookup p s r i 45 Hs Hi) as (b & Hb & Hc).
  apply ci_eq_hyphen in Hc as ->. apply list_elem_of_In. by eapply list_elem_of_lookup_2.
Qed.

(** X28. Nothing is flagged in a text that has no colon, no equals sign and
    no hyphen: each of the five patterns needs one of them.  So a secret told
    in plain words is not noticed. *)
Theorem plain_words_are_not_sensitive (text : str) :
  ~ In 58 text -> ~ In 61 text -> ~ In 45 text ->
  _contains_sensitive text = false.
Proof.
  intros Hcolon Heq Hhyphen.
  assert (forall (m : str -> bool),
            (forall s, m s = true -> In 58 s \/ In 61 s \/ In 45 s) ->
            search_any m text = false) as Hnone.
  { intros m Hm. apply not_true_is_false. intros Hs.
    apply search_any_found in Hs as (a & s' & -> & Hs).
    destruct (Hm s' Hs) as [Hc|[Hc|Hc]];
      [destruct Hcolon|destruct Heq|destruct Hhyphen]; apply in_or_app; by right. }
  assert (forall kw r v s, ci_prefix kw s = Some r -> after_separator r = Some v ->
                           In 58 s \/ In 61 s \/ In 45 s) as Hsep.
  { intros kw r v s Hp Hv. apply after_separator_needs in Hv as [Hv|Hv].
    - left. by apply (ci_prefix_In kw s r).
    - right; left. by apply (ci_prefix_In kw s r). }
  unfold _contains_sensitive. destruct (bool_decide (text = [])); [done|].
  unfold _SENSITIVE_PATTERNS. cbn [existsb].
  rewrite !Hnone; [done| | | | |].
  - intros s. unfold ssh_rsa_at.
    destruct (ci_prefix (u "ssh-rsa") s) as [r|] eqn:Hp; [|done]. intros _.
    right; right. by apply (ci_prefix_hyphen (u "ssh-rsa") s r 3).
  - intros s. unfold pem_header_at.
    destruct (ci_prefix (u "-----BEGIN ") s) as [r|] eqn:Hp; [|done]. intros _.
    right; right. by apply (ci_prefix_hyphen (u "-----BEGIN ") s r 0).
  - intros s. unfold password_at.
    destruct (ci_prefix (u "password") s) as [r|] eqn:Hp; [|done].
    destruct (after_separator r) as [v|] eqn:Hv; [|done]. intros _. by eapply Hsep.
  - intros s. unfold secret_at.
    destruct (ci_prefix (u "secret") s) as [r|] eqn:Hp; [|done].
    destruct (after_separator r) as [v|] eqn:Hv; [|done]. intros _. by eapply Hsep.
  - intros s. unfold api_key_at.
    destruct (ci_prefix (u "api") s) as [r|] eqn:Hp; [|done]. cbn zeta.
    match goal with |- context [ci_prefix (u "key") ?r1] =>
      destruct (ci_prefix (u "key") r1) as [r2|] eqn:Hp2; [|done];
      assert (forall c, In c r1 -> In c r) as Hr1
    end.
    { intros c. destruct r as [|x r]; [done|].
      destruct ((x =? 95) || (x =? 45)); [|done]. intros Hc. by right. }
    destruct (after_separator r2) as [v|] eqn:Hv; [|done]. intros _.
    apply after_separator_needs in Hv as [Hv|Hv].
    + left. eapply ci_prefix_In; [exact Hp|]. apply Hr1. by eapply ci_prefix_In.
    + right; left. eapply ci_prefix_In; [exact Hp|]. apply Hr1. by eapply ci_prefix_In.
Qed.

Section AutoSaveFacts.
Variable _short_hash : str -> str.
Variable cfg : settings.
Variable dirname : str -> str.
Variable json_dumps : json -> str.

(** X29. [auto_save_turn] saves nothing when the mode is [off] or when the
    user's or the assistant's text is sensitive: it returns [None], the store
    stays as it was and no file is written, also with [persist=True]. *)
Theorem auto_save_turn_skips (long_memory : option JsonMemoryFallback) (now : float)
    (os : os_behaviour) (user_text : str) (assistant_text : option str)
    (request_id : json) (mem : option JsonMemoryFallback) (persist_flag : bool)
    (fs : files) :
  AUTO_SAVE_MODE cfg = u "off"
  \/ _contains_sensitive user_text = true
  \/ _contains_sensitive (default [] assistant_text) = true ->
  auto_save_turn _short_hash cfg dirname json_dumps long_memory now os user_text
    assistant_text request_id mem persist_flag fs
  = (None, mem, fs).
Proof.
  intros Hskip. unfold auto_save_turn.
  assert (_should_save _short_hash cfg long_memory user_text (default [] assistant_text)
          = false) as ->; [|done].
  unfold _should_save. destruct (bool_decide (AUTO_SAVE_MODE cfg = u "off")) eqn:Hoff; [done|].
  apply bool_decide_eq_false in Hoff.
  destruct Hskip as [?|[-> | ->]]; [done|done|]. by rewrite orb_true_r.
Qed.

(** X30. A turn that is saved.  With the store given to [auto_save_turn]
    within its limit, lists of equal length, and [MAX_MEMORY_ITEMS] equal to
    the store's own limit of at least 1, the record at the returned index of
    the store afterwards is the summary of [User: ...] and [Assistant: ...],
    of at most 3000 characters, with the turn's [meta]; the lists keep equal
    length, within the limit; and without [persist] no file is written. *)
Theorem auto_save_turn_stores_summary (long_memory : option JsonMemoryFallback)
    (now : float) (os : os_behaviour) (user_text : str) (assistant_text : option str)
    (request_id : json) (self : JsonMemoryFallback) (persist_flag : bool) (fs : files) :
  _should_save _short_hash cfg long_memory user_text (default [] assistant_text) = true ->
  length (texts self) = length (metadatas self) ->
  (Z.of_nat (length (texts self)) <= max_items self)%Z ->
  (1 <= max_items self)%Z ->
  MAX_MEMORY_ITEMS cfg = max_items self ->
  exists idx self' fs',
    auto_save_turn _short_hash cfg dirname json_dumps long_memory now os user_text
      assistant_text request_id (Some self) persist_flag fs
    = (Some idx, Some self', fs')
    /\ texts self' !! idx
       = Some (JString (_maybe_summarize cfg
                          (u "User: " ++ user_text ++ nl ++ u "Assistant: "
                             ++ default [] assistant_text)))
    /\ (length (_maybe_summarize cfg
                  (u "User: " ++ user_text ++ nl ++ u "Assistant: "
                     ++ default [] assistant_text)) <= 3000)%nat
    /\ metadatas self' !! idx
       = Some (turn_meta request_id now user_text (default [] assistant_text))
    /\ length (texts self') = length (metadatas self')
    /\ (Z.of_nat (length (texts self')) <= max_items self)%Z
    /\ (persist_flag = false -> fs' = fs).
Proof.
  intros Hsave Hlen Hle Hmax HMAX. unfold auto_save_turn. rewrite Hsave. cbn [negb].
  set (summary := _maybe_summarize cfg _).
  set (meta := turn_meta request_id now user_text (default [] assistant_text)).
  destruct (add_window self summary (Some meta) now Hlen Hle Hmax) as (Ht & Hm & Hmi & Hp).
  assert (add self summary (Some meta) now
          = (length (texts (evict self)), (add self summary (Some meta) now).2)) as Hadd
    by reflexivity.
  rewrite Hadd. clear Hadd.
  assert (length (texts (add self summary (Some meta) now).2)
          = length (metadatas (add self summary (Some meta) now).2)) as Hpar.
  { rewrite Ht, Hm, !newest_length, !length_app. cbn [length]. lia. }
  rewrite HMAX, (trim_spec _ _ Hpar).
  rewrite !newest_all
    by (rewrite ?Ht, ?Hm, newest_length, length_app; cbn [length]; lia).
  do 3 eexists. split; [reflexivity|]. cbn [texts metadatas default].
  assert (length (texts (evict self)) = length (metadatas (evict self))) as Hev.
  { unfold evict. destruct (max_items self <=? Z.of_nat (length (texts self)))%Z; [|done].
    destruct self as [p [|t ts] [|m ms] mx]; cbn [texts metadatas length] in *;
      try done; lia. }
  split; [|split; [|split; [|split; [|split]]]].
  - unfold add. cbn [snd texts]. by rewrite lookup_app_r, Nat.sub_diag by lia.
  - subst summary. match goal with |- (length (_maybe_summarize cfg ?t) <= _)%nat =>
      generalize t end.
    intros t. unfold _maybe_summarize.
    destruct (bool_decide (t = [])); [cbn; lia|].
    destruct (negb (AUTO_SAVE_SUMMARIZE cfg)); [rewrite length_take; lia|].
    destruct (Z.of_nat (length t) <? MIN_LENGTH_TO_SUMMARIZE cfg)%Z;
      rewrite length_take; lia.
  - unfold add. cbn [snd metadatas meta_or_default].
    change (truthy meta) with true. cbn match.
    by rewrite Hev, lookup_app_r, Nat.sub_diag by lia.
  - done.
  - rewrite Ht, newest_length, length_app. cbn [length]. lia.
  - by intros ->.
Qed.

End AutoSaveFacts.

End SensitiveFacts.

(* ===================================================================== *)
(** * The theorems at concrete inputs *)
(* ===================================================================== *)

Section Instances.
#[local] Existing Instance example_runtime.

(** The prompt of a user asking, in Chinese, which year it is. *)
Lemma time_query_fast_path_witness :
  run_with_tools Ex.noop_llm (u "请问今年是哪一年？") [Ex.noop_tool] None 3 (0%nat, [])
    = (u "今年是 " ++ str_of_int 2026 ++ u " 年。", (0%nat, []))
  /\ contains (str_of_int 2026) (u "今年是 " ++ str_of_int 2026 ++ u " 年。") = true
  /\ model_calls
       (run_with_tools Ex.noop_llm (u "请问今年是哪一年？") [Ex.noop_tool] None 3
          (0%nat, [])).2.2 = 0%nat.
Proof.
  apply (time_query_fast_path Ex.noop_llm (u "请问今年是哪一年？") [Ex.noop_tool] None 3
           0%nat [] (u "今年是哪一年") (u "请问") (u "？")).
  - right; left; reflexivity.
  - reflexivity.
Defined.

(** A response naming the tool [Ghost], with only [Noop] registered and one
    round left after this one. *)
Lemma unknown_tool_continues_witness :
  rounds Ex.ghost_llm (registry [Ex.noop_tool]) 2 (u "hi") (0%nat, [])
    = rounds Ex.ghost_llm (registry [Ex.noop_tool]) 1
        (u "hi" ++ tool_error (u "Ghost") (u "CALL_TOOL: Ghost find me"))
        (1%nat, [] ++ [ModelCall (u "hi")])
  /\ contains (u "Ghost")
       (u "hi" ++ tool_error (u "Ghost") (u "CALL_TOOL: Ghost find me")) = true
  /\ exists answer w2 next rest,
       rounds_then_final Ex.ghost_llm (registry [Ex.noop_tool]) 2 (u "hi") (0%nat, [])
         = (answer, (w2, [] ++ [ModelCall (u "hi"); ModelCall next] ++ rest))
       /\ contains (u "Ghost") next = true.
Proof.
  apply (unknown_tool_continues Ex.ghost_llm (registry [Ex.noop_tool]) 1 (u "hi")
           0%nat [] (u "CALL_TOOL: Ghost find me") 1%nat (u "Ghost") (u "find me")).
  - reflexivity.
  - vm_compute. reflexivity.
  - vm_compute. reflexivity.
Defined.

(** The round limit 0 with a model function that always asks for [Noop]:
    two model calls and one tool invocation. *)
Lemma round_budget_model_calls_witness :
  exists final w new context w0,
    run_with_tools Ex.noop_llm (u "hi") [Ex.noop_tool] None 0 (0%nat, [])
      = (final, (w, [] ++ new ++ [ModelCall context]))
    /\ Ex.noop_llm context w0 = (Returned final, w)
    /\ model_calls (new ++ [ModelCall context]) = (Z.to_nat 0 + 2)%nat
    /\ tool_invocations (new ++ [ModelCall context]) = (Z.to_nat 0 + 1)%nat.
Proof.
  apply (round_budget_model_calls Ex.noop_llm (u "hi") [Ex.noop_tool] None 0 (0%nat, [])).
  - lia.
  - vm_compute. reflexivity.
  - intros context w.
    exists (u "CALL_TOOL: Noop"), (S w), (u "Noop"), [], Ex.noop_tool.
    split; [reflexivity|]. split; vm_compute; reflexivity.
Defined.

(** The same turn, evaluated: the world has counted two model calls, and
    the tool ran between them. *)
Example round_budget_zero_evaluated :
  (run_with_tools Ex.noop_llm (u "hi") [Ex.noop_tool] None 0 (0%nat, [])).2.1 = 2%nat
  /\ map is_model_call
       (run_with_tools Ex.noop_llm (u "hi") [Ex.noop_tool] None 0 (0%nat, [])).2.2
     = [true; false; true].
Proof. vm_compute. split; reflexivity. Qed.

(** A tool result of 2000 characters goes into the context whole. *)
Lemma observation_embeds_whole_result_witness :
  rounds Ex.dump_llm (registry [Ex.dump_tool]) 1 (u "hi") (0%nat, [])
    = rounds Ex.dump_llm (registry [Ex.dump_tool]) 0
        (u "hi" ++ (nl ++ nl ++ strip (u "CALL_TOOL: Dump") ++ nl
                    ++ observation (u "Dump") [] Ex.long_result
                         (PrimFloat.sub (time_time 1%nat) (time_time 1%nat)))
                ++ continue_hint)
        (1%nat, [] ++ [ModelCall (u "hi"); ToolInvoke (name Ex.dump_tool) []])
  /\ contains Ex.long_result
       (u "hi" ++ (nl ++ nl ++ strip (u "CALL_TOOL: Dump") ++ nl
                   ++ observation (u "Dump") [] Ex.long_result
                        (PrimFloat.sub (time_time 1%nat) (time_time 1%nat)))
               ++ continue_hint) = true
  /\ (length (u "hi") + length Ex.long_result
      < length (u "hi" ++ (nl ++ nl ++ strip (u "CALL_TOOL: Dump") ++ nl
                           ++ observation (u "Dump") [] Ex.long_result
                                (PrimFloat.sub (time_time 1%nat) (time_time 1%nat)))
                       ++ continue_hint))%nat.
Proof.
  apply (observation_embeds_whole_result Ex.dump_llm (registry [Ex.dump_tool]) 0 (u "hi")
           0%nat [] (u "CALL_TOOL: Dump") 1%nat (u "Dump") [] Ex.dump_tool
           Ex.long_result 1%nat).
  - reflexivity.
  - vm_compute. reflexivity.
  - vm_compute. reflexivity.
  - reflexivity.
Defined.

(** The context of the second model call of that turn is longer than 2000
    characters. *)
Example observation_not_bounded :
  exists c0 t a c1 rest,
    (run_with_tools Ex.dump_llm (u "hi") [Ex.dump_tool] None 3 (0%nat, [])).2.2
      = ModelCall c0 :: ToolInvoke t a :: ModelCall c1 :: rest
    /\ (2000 <? Z.of_nat (length c1))%Z = true.
Proof. do 5 eexists. split; vm_compute; reflexivity. Qed.



End Instances.

Section MemoryInstances.
Import Memory.

(** Adding to a store that holds its limit of two records. *)
Lemma add_keeps_lists_parallel_witness :
  length (texts Ex.full_store) = length (metadatas Ex.full_store)
  /\ texts (add Ex.full_store (u "third") None 0%float).2
     = [JString (u "second"); JString (u "third")]
  /\ length (texts (add Ex.full_store (u "third") None 0%float).2)
     = length (metadatas (add Ex.full_store (u "third") None 0%float).2)
  /\ (add Ex.full_store (u "third") None 0%float).1 = 1%nat.
Proof.
  split; [reflexivity|].
  destruct (add_keeps_lists_parallel Ex.full_store (u "third") None 0%float eq_refl)
    as (Hlen & Hfull & _).
  destruct (Hfull ltac:(vm_compute; discriminate)) as (Ht & _ & _ & Hidx).
  split; [exact Ht|]. split; [exact Hlen|exact Hidx].
Defined.


(** Persisting the two-record store and loading it again, with the encoder
    and the decoder of the [Json] module. *)
Lemma persist_then_load_roundtrip_witness :
  __init__ (fun p => p) (loads (fun _ => 0%float)) (u "/data/mem.json") 10000
    (after_persist Ex.dirname Ex.dumps Ex.full_store Ex.all_fine Ex.old_disk) false
  = Some {| path := path Ex.full_store; texts := texts Ex.full_store;
            metadatas := metadatas Ex.full_store; max_items := 10000 |}.
Proof.
  apply (persist_then_load_roundtrip Ex.dirname Ex.dumps (fun p => p)
           (loads (fun _ => 0%float)) Ex.full_store Ex.all_fine Ex.old_disk
           (u "/data/mem.json") 10000).
  - vm_compute. reflexivity.
  - vm_compute. reflexivity.
  - reflexivity.
Defined.

End MemoryInstances.

(* ===================================================================== *)
(** * The further properties at concrete inputs *)
(* ===================================================================== *)

Section MoreInstances.
#[local] Existing Instance example_runtime.

(** A turn of two rounds with the tool [Noop]. *)
Lemma turn_ends_with_model_call_witness :
  exists answer wf pre c w0,
    run_with_tools Ex.noop_llm (u "hi") [Ex.noop_tool] None 1 (0%nat, [])
      = (answer, (wf, [] ++ pre ++ [ModelCall c]))
    /\ (Ex.noop_llm c w0 = (Returned answer, wf)
        \/ exists e, Ex.noop_llm c w0 = (Raised e, wf)
                     /\ (answer = u "LLM 调用失败：" ++ e
                         \/ answer = u "LLM 调用失败（终结轮）：" ++ e)).
Proof.
  apply (turn_ends_with_model_call Ex.noop_llm (u "hi") [Ex.noop_tool] None 1
           (0%nat, [])).
  vm_compute. reflexivity.
Defined.

(** Two tools named [Noop] with [Dump] after them: the second [Noop] is
    found, [Ghost] is not. *)
Lemma registry_last_wins_witness :
  registry ([Ex.noop_tool] ++ ExMore.noop_tool' :: [Ex.dump_tool])
    !! name ExMore.noop_tool' = Some ExMore.noop_tool'
  /\ ((forall t', In t' ([Ex.noop_tool] ++ ExMore.noop_tool' :: [Ex.dump_tool]) ->
         name t' <> u "Ghost")
      -> registry ([Ex.noop_tool] ++ ExMore.noop_tool' :: [Ex.dump_tool])
           !! u "Ghost" = None).
Proof.
  apply (registry_last_wins [Ex.noop_tool] [Ex.dump_tool] ExMore.noop_tool' (u "Ghost")).
  intros t' [<-|[]]. vm_compute. discriminate.
Defined.

(** The tool [Boom] raises in the first of two rounds. *)
Lemma tool_exception_becomes_observation_witness :
  rounds ExMore.boom_llm (registry [ExMore.boom_tool]) 2 (u "hi") (0%nat, [])
    = rounds ExMore.boom_llm (registry [ExMore.boom_tool]) 1
        (u "hi" ++ (nl ++ nl ++ strip (u "CALL_TOOL: Boom now") ++ nl
                    ++ observation (u "Boom") (u "now")
                         (u "工具执行异常：" ++ u "ValueError: bad input")
                         (PrimFloat.sub (time_time 1%nat) (time_time 1%nat)))
                ++ continue_hint)
        (1%nat, [] ++ [ModelCall (u "hi");
                       ToolInvoke (name ExMore.boom_tool) (u "now")])
  /\ contains (u "工具执行异常：" ++ u "ValueError: bad input")
       (u "hi" ++ (nl ++ nl ++ strip (u "CALL_TOOL: Boom now") ++ nl
                   ++ observation (u "Boom") (u "now")
                        (u "工具执行异常：" ++ u "ValueError: bad input")
                        (PrimFloat.sub (time_time 1%nat) (time_time 1%nat)))
               ++ continue_hint) = true.
Proof.
  apply (tool_exception_becomes_observation ExMore.boom_llm
           (registry [ExMore.boom_tool]) 1 (u "hi") 0%nat []
           (u "CALL_TOOL: Boom now") 1%nat (u "Boom") (u "now") ExMore.boom_tool
           (u "ValueError: bad input") 1%nat).
  - reflexivity.
  - vm_compute. reflexivity.
  - vm_compute. reflexivity.
  - reflexivity.
Defined.

(** The round limit -1. *)
Lemma negative_limit_single_call_witness :
  exists answer wf,
    run_with_tools Ex.noop_llm (u "hi") [Ex.noop_tool] None (-1) (0%nat, [])
      = (answer,
         (wf, [] ++ [ModelCall (initial_context
                                  (inject_persona_to_system None 0%nat)
                                  (u "hi") ++ limit_hint)])).
Proof.
  apply (negative_limit_single_call Ex.noop_llm (u "hi") [Ex.noop_tool] None (-1)
           (0%nat, [])).
  - lia.
  - vm_compute. reflexivity.
Defined.

(** The directive for the tool [Foo] with the argument [hello world]. *)
Lemma line_directive_roundtrip_witness :
  _parse_tool_call (line_directive_of (u "Foo") (u "hello world"))
    = Some (u "Foo", u "hello world").
Proof.
  apply (line_directive_roundtrip (u "Foo") (u "hello world")).
  - vm_compute. discriminate.
  - vm_compute. reflexivity.
  - vm_compute. reflexivity.
  - intros Hin. apply list_elem_of_In in Hin. revert Hin.
    apply (bool_decide_unpack (~ elem_of 123 (u "hello world"))). vm_compute. exact I.
  - vm_compute. reflexivity.
Defined.

(** A plain answer. *)
Lemma parse_tool_call_needs_colon_witness :
  _parse_tool_call (u "All done.") = None.
Proof.
  apply (parse_tool_call_needs_colon (u "All done.")).
  intros Hin. apply list_elem_of_In in Hin. revert Hin.
  apply (bool_decide_unpack (~ elem_of 58 (u "All done."))). vm_compute. exact I.
Defined.

End MoreInstances.

Section MoreFetchInstances.
Import Fetch FetchTool.


Example flaky_fetch_evaluated :
  error (fetch_rendered_page ExMore.flaky_env (u "http://example.org") 15 2).1
    = Some (u "playwright_failed: playwright timeout (attempt 3): Timeout exceeded")
  /\ (fetch_rendered_page ExMore.flaky_env (u "http://example.org") 15 2).2
     = [Goto 0 15000; Goto 2 60000; Get 30].
Proof. vm_compute. split; reflexivity. Qed.

(** [max_retries = -1]. *)
Lemma fetch_negative_retries_witness :
  (fetch_rendered_page ExMore.flaky_env (u "http://example.org") 15 (-1)).2
    = [Get (Z.max (15 * 2) 10)]
  /\ attempts (fetch_rendered_page ExMore.flaky_env (u "http://example.org") 15 (-1)).1
     = 1%nat
  /\ exists rest,
       error (fetch_rendered_page ExMore.flaky_env (u "http://example.org") 15 (-1)).1
       = Some (u "playwright_failed: None" ++ rest).
Proof.
  apply (fetch_negative_retries ExMore.flaky_env (u "http://example.org") 15 (-1)).
  - reflexivity.
  - lia.
Defined.

End MoreFetchInstances.

Section MoreMemoryInstances.
Import Memory MemoryUtils.

(** The query [SEC] finds the record [second]. *)
Lemma search_finds_matching_text_witness :
  In (hit (JString (u "second"))
        (JObject [(u "type", JString (u "note")); (u "request_id", JString (u "r-2"))]))
     (search ExMore.ascii_lower (fun _ => []) Ex.full_store (u "SEC") 5).
Proof.
  apply (search_finds_matching_text ExMore.ascii_lower (fun _ => []) Ex.full_store
           (u "SEC") 5 1%nat (u "second")
           (JObject [(u "type", JString (u "note"));
                     (u "request_id", JString (u "r-2"))])
           [] (u "ond")).
  - vm_compute. discriminate.
  - reflexivity.
  - reflexivity.
  - vm_compute. reflexivity.
Defined.

(** Two more records for the store of two with limit 2. *)
Lemma add_keeps_newest_records_witness :
  texts (fold_left add_record ExMore.two_records Ex.full_store)
    = newest (Z.to_nat (max_items Ex.full_store))
        (texts Ex.full_store ++ map (fun r => JString r.1.1) ExMore.two_records)
  /\ metadatas (fold_left add_record ExMore.two_records Ex.full_store)
     = newest (Z.to_nat (max_items Ex.full_store))
         (metadatas Ex.full_store
            ++ map (fun r => meta_or_default r.1.2 r.2) ExMore.two_records)
  /\ length (texts (fold_left add_record ExMore.two_records Ex.full_store))
     = length (metadatas (fold_left add_record ExMore.two_records Ex.full_store))
  /\ (Z.of_nat (length (texts (fold_left add_record ExMore.two_records Ex.full_store)))
      <= max_items Ex.full_store)%Z.
Proof.
  apply (add_keeps_newest_records Ex.full_store ExMore.two_records).
  - reflexivity.
  - vm_compute. discriminate.
  - vm_compute. discriminate.
Defined.

Example two_more_records_evaluated :
  texts (fold_left add_record ExMore.two_records Ex.full_store)
    = [JString (u "third"); JString (u "fourth")].
Proof. vm_compute. reflexivity. Qed.

(** The store of two trimmed to one record. *)
Lemma trim_keeps_newest_witness :
  trim_memory_if_needed 1 (Some Ex.full_store)
    = Some {| path := path Ex.full_store;
              texts := newest (Z.to_nat 1) (texts Ex.full_store);
              metadatas := newest (Z.to_nat 1) (metadatas Ex.full_store);
              max_items := max_items Ex.full_store |}
  /\ ((Z.of_nat (length (texts Ex.full_store)) <= 1)%Z ->
      trim_memory_if_needed 1 (Some Ex.full_store) = Some Ex.full_store).
Proof.
  apply (trim_keeps_newest 1 Ex.full_store). reflexivity.
Defined.

Lemma add_then_trim_witness :
  trim_memory_if_needed (max_items Ex.full_store)
    (Some (add Ex.full_store (u "third") None 1%float).2)
  = Some (add Ex.full_store (u "third") None 1%float).2.
Proof.
  apply (add_then_trim Ex.full_store (u "third") None 1%float).
  - reflexivity.
  - vm_compute. discriminate.
  - vm_compute. discriminate.
Defined.

(** The disk fills up 10 characters into the temporary file. *)
Lemma disk_full_fresh : mkstemp_fresh Ex.full_store Ex.disk_full Ex.old_disk.
Proof.
  intros tmppath Htmp.
  change (mkstemp_result Ex.disk_full) with (Some Ex.tmp_path) in Htmp.
  apply (inj Some) in Htmp. rewrite <- Htmp.
  split; [vm_compute; reflexivity|vm_compute; discriminate].
Defined.

Lemma persist_changes_only_its_files_witness :
  (forall p, p <> path Ex.full_store -> mkstemp_result Ex.disk_full <> Some p ->
     after_persist Ex.dirname Ex.dumps Ex.full_store Ex.disk_full Ex.old_disk !! p
     = Ex.old_disk !! p)
  /\ ((persist Ex.dirname Ex.dumps Ex.full_store Ex.disk_full Ex.old_disk).2
        = Returned true ->
      forall tmppath, mkstemp_result Ex.disk_full = Some tmppath ->
        after_persist Ex.dirname Ex.dumps Ex.full_store Ex.disk_full Ex.old_disk
          !! tmppath = None)
  /\ (forall tmppath k,
        mkstemp_result Ex.disk_full = Some tmppath ->
        write_stops_after Ex.disk_full = Some k ->
        (Ex.dirname (path Ex.full_store) = [] \/ makedirs_fails Ex.disk_full = false) ->
        after_persist Ex.dirname Ex.dumps Ex.full_store Ex.disk_full Ex.old_disk
          !! tmppath
        = Some (take k (Ex.dumps (document Ex.full_store)))).
Proof.
  apply (persist_changes_only_its_files Ex.dirname Ex.dumps Ex.full_store Ex.disk_full
           Ex.old_disk).
  exact disk_full_fresh.
Defined.

Example persist_leaves_temporary_file :
  after_persist Ex.dirname Ex.dumps Ex.full_store Ex.disk_full Ex.old_disk
  = {[ u "/data/mem.json" := jq "{'texts': []}";
       Ex.tmp_path := take 10 (Ex.dumps (document Ex.full_store)) ]}.
Proof. vm_compute. reflexivity. Qed.

Lemma failed_persist_keeps_load_witness :
  __init__ (fun p => p) (loads (fun _ => 0%float)) (u "/data/mem.json") 10000
    (after_persist Ex.dirname Ex.dumps Ex.full_store Ex.disk_full Ex.old_disk) false
  = __init__ (fun p => p) (loads (fun _ => 0%float)) (u "/data/mem.json") 10000
      Ex.old_disk false.
Proof.
  apply (failed_persist_keeps_load Ex.dirname Ex.dumps (fun p => p)
           (loads (fun _ => 0%float)) Ex.full_store Ex.disk_full Ex.old_disk
           (u "/data/mem.json") 10000 false).
  - exact disk_full_fresh.
  - vm_compute. reflexivity.
  - reflexivity.
Defined.

End MoreMemoryInstances.

Section MoreToolInstances.
Import Memory MemoryUtils Tools.

(** 250 characters without white space, with the default settings: a
    summary of 455 characters. *)
Lemma summary_of_unbroken_text_witness :
  _maybe_summarize ExMore.default_settings ExMore.unbroken
    = take 300 ExMore.unbroken ++ u " ... " ++ last_chars 200 ExMore.unbroken
  /\ length (_maybe_summarize ExMore.default_settings ExMore.unbroken)
     = (Nat.min 300 (length ExMore.unbroken) + 5
        + Nat.min 200 (length ExMore.unbroken))%nat
  /\ ((length ExMore.unbroken < 505)%nat ->
      (length ExMore.unbroken
       < length (_maybe_summarize ExMore.default_settings ExMore.unbroken))%nat).
Proof.
  apply (summary_of_unbroken_text ExMore.default_settings ExMore.unbroken).
  - reflexivity.
  - vm_compute. discriminate.
  - vm_compute. discriminate.
  - apply (bool_decide_unpack (Forall (fun c => isspace c = false) ExMore.unbroken)).
    vm_compute. exact I.
Defined.

Example summary_longer_than_text :
  length ExMore.unbroken = 250%nat
  /\ length (_maybe_summarize ExMore.default_settings ExMore.unbroken) = 455%nat.
Proof. vm_compute. split; reflexivity. Qed.

(** A persona without a name, saved into the store of two. *)
Lemma saved_persona_is_listed_witness :
  exists idx persisted persona_name self' fs',
    save_persona Ex.dirname Ex.dumps 1%float JNull Ex.all_fine (Some Ex.full_store)
      Ex.old_disk (u "You are a pirate.") []
    = (Returned (JObject [(u "saved_index", JInt (Z.of_nat idx));
                          (u "persisted", JBool persisted);
                          (u "meta", persona_meta persona_name 1%float JNull)]),
       Some self', fs')
    /\ persona_name_of [] (u "You are a pirate.") = Returned persona_name
    /\ texts self' !! idx = Some (JString (u "You are a pirate."))
    /\ metadatas self' !! idx = Some (persona_meta persona_name 1%float JNull)
    /\ last (list_personas_tool (Some self'))
       = Some (JObject [(u "meta", persona_meta persona_name 1%float JNull);
                        (u "text", JString (u "You are a pirate."))]).
Proof.
  apply (saved_persona_is_listed Ex.dirname Ex.dumps 1%float JNull Ex.all_fine
           Ex.full_store Ex.old_disk (u "You are a pirate.") []).
  reflexivity.
Defined.

(** The name [ Bob ] and a body of two lines. *)
Lemma persona_prefix_form_witness :
  persona_name_and_body (u "persona_name:" ++ u " Bob " ++ nl ++ ExMore.bob_body)
  = (strip (u " Bob "),
     str_or (strip (join nl (splitlines ExMore.bob_body))) (strip (u " Bob "))).
Proof.
  apply (persona_prefix_form (u " Bob ") ExMore.bob_body).
  vm_compute. reflexivity.
Defined.

Example bob_persona_evaluated :
  persona_name_and_body (u "persona_name:" ++ u " Bob " ++ nl ++ ExMore.bob_body)
  = (u "Bob", u "You are Bob." ++ nl ++ u "Be kind.").
Proof. vm_compute. reflexivity. Qed.

(** [PassWord= hunter2] in the middle of a sentence. *)
Lemma assignments_are_sensitive_witness :
  _contains_sensitive
    (u "my " ++ u "PassWord" ++ [] ++ [61] ++ u " " ++ u "hunter2" ++ u ", ok?") = true.
Proof.
  apply (assignments_are_sensitive (u "my ") (u "PassWord") [] (u " ") (u "hunter2")
           (u ", ok?") 61).
  - reflexivity.
  - reflexivity.
  - right. reflexivity.
  - left. split; [vm_compute; reflexivity|]. split; [vm_compute; lia|].
    vm_compute. reflexivity.
Defined.

(** The same secret told in plain words. *)
Lemma plain_words_are_not_sensitive_witness :
  _contains_sensitive (u "my password is hunter2") = false.
Proof.
  apply (plain_words_are_not_sensitive (u "my password is hunter2")).
  - intros Hin. apply list_elem_of_In in Hin. revert Hin.
    apply (bool_decide_unpack (~ elem_of 58 (u "my password is hunter2"))).
    vm_compute. exact I.
  - intros Hin. apply list_elem_of_In in Hin. revert Hin.
    apply (bool_decide_unpack (~ elem_of 61 (u "my password is hunter2"))).
    vm_compute. exact I.
  - intros Hin. apply list_elem_of_In in Hin. revert Hin.
    apply (bool_decide_unpack (~ elem_of 45 (u "my password is hunter2"))).
    vm_compute. exact I.
Defined.

(** A turn whose answer repeats an API key. *)
Lemma auto_save_turn_skips_witness :
  auto_save_turn ExMore.first_ten ExMore.default_settings Ex.dirname Ex.dumps None
    1%float Ex.all_fine (u "which key do I use?")
    (Some (u "Use API_KEY = sk-123456789.")) JNull (Some Ex.full_store) true
    Ex.old_disk
  = (None, Some Ex.full_store, Ex.old_disk).
Proof.
  apply (auto_save_turn_skips ExMore.first_ten ExMore.default_settings Ex.dirname
           Ex.dumps None 1%float Ex.all_fine (u "which key do I use?")
           (Some (u "Use API_KEY = sk-123456789.")) JNull (Some Ex.full_store) true
           Ex.old_disk).
  right; right. vm_compute. reflexivity.
Defined.

(** A short turn saved into the full store of two, without [persist]. *)
Lemma auto_save_turn_stores_summary_witness :
  exists idx self' fs',
    auto_save_turn ExMore.first_ten ExMore.small_settings Ex.dirname Ex.dumps None
      1%float Ex.all_fine (u "hi") (Some (u "hello")) JNull (Some Ex.full_store)
      false Ex.old_disk
    = (Some idx, Some self', fs')
    /\ texts self' !! idx
       = Some (JString (_maybe_summarize ExMore.small_settings
                          (u "User: " ++ u "hi" ++ nl ++ u "Assistant: "
                             ++ default [] (Some (u "hello")))))
    /\ (length (_maybe_summarize ExMore.small_settings
                  (u "User: " ++ u "hi" ++ nl ++ u "Assistant: "
                     ++ default [] (Some (u "hello")))) <= 3000)%nat
    /\ metadatas self' !! idx
       = Some (turn_meta JNull 1%float (u "hi") (default [] (Some (u "hello"))))
    /\ length (texts self') = length (metadatas self')
    /\ (Z.of_nat (length (texts self')) <= max_items Ex.full_store)%Z
    /\ (false = false -> fs' = Ex.old_disk).
Proof.
  apply (auto_save_turn_stores_summary ExMore.first_ten ExMore.small_settings
           Ex.dirname Ex.dumps None 1%float Ex.all_fine (u "hi") (Some (u "hello"))
           JNull Ex.full_store false Ex.old_disk).
  - vm_compute. reflexivity.
  - reflexivity.
  - vm_compute. discriminate.
  - vm_compute. discriminate.
  - reflexivity.
Defined.

Example short_turn_saved_evaluated :
  (auto_save_turn ExMore.first_ten ExMore.small_settings Ex.dirname Ex.dumps None
     1%float Ex.all_fine (u "hi") (Some (u "hello")) JNull (Some Ex.full_store)
     false Ex.old_disk).1.1 = Some 1%nat
  /\ option_map texts
       (auto_save_turn ExMore.first_ten ExMore.small_settings Ex.dirname Ex.dumps None
          1%float Ex.all_fine (u "hi") (Some (u "hello")) JNull (Some Ex.full_store)
          false Ex.old_disk).1.2
     = Some [JString (u "second");
             JString (u "User: hi" ++ nl ++ u "Assistant: hello")].
Proof. vm_compute. split; reflexivity. Qed.

End MoreToolInstances.
